(* ===== verification/_CoqProject ===== *)
-Q . S2P
Prelude.v
JsString.v
JsDate.v
Json.v
ObjectId.v
NoteModel.v
Store.v
Api.v
Server.v
NoteCard.v
Wire.v
NoteForm.v
Page.v
Contract.v
Backend.v
ClientList.v
Client.v
ClientRefine.v
ClientHeld.v
ClientSerial.v
ClientRuns.v
