(* ===== verification/Prelude.v ===== *)
(** * A verification development for the Ramyoz notes application

    The program (under [src/src]) is a Next.js notes application: a
    Mongoose model [models/Note.ts], two route files of REST handlers
    [app/api/notes/route.ts] ([GET] lists, [POST] creates) and
    [app/api/notes/[id]/route.ts] ([GET], [PUT], [DELETE] one note), and a
    React client [app/page.tsx] with the components [NoteForm.tsx] and
    [NoteCard.tsx].  Requests flow from the page to a handler, from the
    handler through [dbConnect] and the Mongoose model to MongoDB, and back
    as a JSON envelope [{ success, data?, error?, message? }].

    ** Files, in dependency order

    - [Prelude] (this file): exceptions of the runtime ([exn]), the state
      and exception monad [M S A] in which every handler body is written,
      with its notation [x <- m ;; k] in [js_scope]; [preserves P m], the
      invariant of a computation, with the tactic [preserves_tac] that
      decomposes a handler along its binds and branches; the hint databases
      [notes], [preserves] and [js_run]; [returns Q m], a property of every
      value [m] returns, with [returns_tac]; [zleb_simpl], which evaluates
      the integer comparisons [lia] decides.
    - [JsString]: JavaScript strings as UTF-16 code units ([list Z]),
      ECMAScript white space and [String.prototype.trim], characterised as
      the unique infix without white space at either end.
    - [JsDate]: JavaScript dates as the wire carries them:
      [toISOString], the Date Time String Format read by [new Date(s)],
      ECMA-262's [MakeDay] and the proleptic Gregorian calendar.
    - [Json]: the values of [request.json()], truthiness ([!v]),
      [const { title, content } = body] and [v.trim()] with their
      [TypeError]s.
    - [ObjectId]: bson's identifiers as 96-bit integers: [isValid] (24
      hexadecimal digits of either case), parsing, [toHexString], and
      [generate] from the seconds, the process bytes and the counter, with
      their bit layout.
    - [NoteModel]: [INote] and [NoteSchema] of [models/Note.ts]: the two
      String paths, the [trim] setter ([cast]) and the validators
      ([validate_path], [validate]).
    - [Store]: the [Server] state (collection as a [gmap] from ObjectId to
      note, clock, ObjectId counter, database reachability, cached
      connection), [dbConnect] of [lib/mongodb] and the Mongoose calls the
      handlers make ([create], [findById], [findByIdAndUpdate] with
      [runValidators], [findByIdAndDelete], [find_sorted]); each call's run
      on each branch, and the collection invariant [store_inv] preserved by
      every call.
    - [Api]: the five handlers, [Api.Collection.GET]/[POST] and
      [Api.Member.GET]/[PUT]/[DELETE], statement by statement, with the
      catch block as [catch_500]; their behaviour on every branch.
    - [Server]: the App Router ([dispatch]) and the environment as a step
      relation (requests, and [env]: clock ticks, database outages and
      recoveries); the invariant in every reachable state; the example of
      the specification evaluated as a regression test.
    - [NoteCard]: what a card renders ([render]: the title, the content
      cut at 150 code units by [display_content], the dates, the key) and
      the callbacks of its buttons ([click]).
    - [Wire]: a note as [NextResponse.json] sends it ([note_json]) and
      the page's readings of it (strict equality of [_id]s, the card's
      [updatedAt !== createdAt], [new Date]).
    - [NoteForm]: the form's state ([title], [content], [saving]), its
      events ([form_step]), [handleSubmit] and what it renders
      ([form_view]).
    - [Page]: the page's state ([notes], [loading], [showForm],
      [editingNote]); each asynchronous handler split at its [await
      fetch]: the request it sends ([Call], [send]) and its continuation
      ([recv]), which works on the list its closure captured; what the page
      renders ([view]).
    - [Contract]: what the page relies on from the server, as the classes
      [Backend] (operations) and [BackendSpec] (laws: every answer either
      reports failure and changes nothing, or made exactly the change its
      request asks for).
    - [Backend]: the handlers of [Api] satisfy [Contract] (instances
      [server_backend] and [server_backend_spec]), from the outcome of each
      handler on every branch.
    - [ClientList]: the page's list against the collection ([agree]): the
      three list edits of the page match [insert] and [delete] of the map
      and keep the list sorted.
    - [Client]: the page and the server with requests in flight ([Sys],
      [sys_step]), a scheduler [run] that executes interleavings given as
      lists of events, the spinner, termination and quiescence, proved
      against [Contract.Backend] alone.
    - [ClientRefine]: the sequential use ([seq_step]) keeps the page's
      list equal to the collection ([consistent], [answered]), from
      [Contract.BackendSpec].
    - [ClientHeld]: the notes the page holds under every interleaving
      ([held]) all come from the collection.
    - [ClientSerial]: every interleaving in which no two requests are in
      flight at once keeps the page's list equal to the collection.
    - [ClientRuns]: two requests in flight at once, from every state in
      which the page lists the collection, against
      [Contract.BackendSpec].

    ** What the theorems show

    - Functional behaviour of each handler on every branch: 201/200 with
      the exact document stored ([POST_created], [PUT_updated],
      [GET_by_id], [DELETE_by_id]); 400 for missing, empty or white-space
      fields and malformed identifiers; 404 for absent notes; 500 when
      MongoDB is unreachable.  Round trips: a created note is fetched back
      by the printed form of its identifier; a deleted one is 404.
      Equivalence: the member routes act on the upper-cased identifier
      exactly as on the identifier ([Api.member_case_insensitive]).
    - The wire: [new Date(d.toISOString())] is [d] on the whole range of
      time values ([JsDate.parse_toISOString], through the equivalence of
      [MakeDay] with the era arithmetic, checked over one 400-year era and
      carried to all years by periodicity); hence the page's string tests
      on the JSON it receives decide the integer comparisons of the model
      ([Wire.wire_faithful], [Wire.card_updated_line]).
    - The listing is a permutation of the collection sorted by [createdAt],
      newest first.
    - Invariant: in every reachable state every stored note sits under its
      [_id], has [createdAt <= updatedAt <= now], a trimmed non-empty title
      of at most 100 code units and a trimmed non-empty content.
    - Divergences from the specification, proved as the code's behaviour:
      an oversized title is 500 (not 400) on create and on update, even for
      a missing note; a truthy non-string field is 500; a malformed id is
      500 when the connection fails first; an update in the same
      millisecond leaves [updatedAt] equal to [createdAt] (an instance of
      [Api.PUT_updated]).
    - Typing: every answer of every handler is a well-typed envelope
      (success: no error, 200 or 201, data or message; failure: only an
      error, 400, 404 or 500), so [response.ok] agrees with [data.success]
      ([Server.responses_well_typed], proved with the [returns] framework
      of this file).
    - Client: a card shows at most 153 code units, and its text is
      well-formed UTF-16 exactly unless the cut at 150 falls inside a
      surrogate pair ([NoteCard.display_content_wf]); it shows [Updated:] exactly for notes updated at a later
      millisecond; the form's title never exceeds 100 code units, what it
      submits passes the schema, saving locks it, and saving an unchanged
      note sends back its fields.  Refinement: used sequentially, the page
      lists and renders exactly the collection, newest first, with distinct
      React keys ([ClientRefine.page_lists_collection],
      [ClientRefine.view_lists_collection]); the same holds of every
      interleaving of clicks, answers, failures, time and outages in which
      no two requests overlap ([ClientSerial.serial_lists_collection]).
      Invariants over all interleavings: every note the page holds passes
      the schema ([ClientHeld.held_notes_valid]); while the spinner shows,
      the first load is the only request in flight
      ([Client.loading_only_first_load]).  Liveness: the requests in
      flight can always be emptied and the spinner ends
      ([Client.quiescence]); the steps needing no user terminate, by
      construction of the model, within twice the number of requests in
      flight ([Client.network_terminates]).  Errors: while MongoDB is down
      every request gives an alert and changes nothing
      ([ClientRefine.outage_alerts]); the form left on a deleted note
      saves to a refusal ([ClientRuns.edit_after_delete_refused]).  Bugs,
      from every state in which the page lists the collection: with a
      create, an update or a second delete in flight across a delete that
      the server accepts, the page ends listing a note the server has
      deleted ([ClientRuns.overlapping_deletes_restore],
      [ClientRuns.create_overlapping_delete_restores],
      [ClientRuns.update_overlapping_delete_restores]).

    ** Bounds and fuel

    No definition needs fuel: every recursion is structural (on strings,
    lists, the hexadecimal digit count and the scheduler's list of
    actions).  Timestamps are milliseconds as unbounded integers: a
    JavaScript [Date] is exact on integers up to 8.64e15 ms, beyond any
    clock the theorems consider.  The ObjectId fields keep their widths
    (32-bit seconds, 40-bit process bytes, 24-bit counter, which bson
    advances modulo 0xffffff), and [ObjectId.generate_bound] shows an
    identifier fits 96 bits, which the round trip through [toHexString]
    needs; [ObjectId.generate_distinct] shows fewer than 0xffffff draws in
    one second never repeat.

    ** Not modelled, and why

    - Logging ([console.error], [console.log]): no effect on results.
    - Concurrency inside MongoDB: each handler makes one model call, which
      the step relation runs atomically; interleavings of whole requests
      are the sequences of steps.
    - CSS classes and the browser's event loop beyond the order of events:
      [Client.sys_step] lets any enabled event happen next.  The form's
      own [saving] state is not part of [Client]: the header button stays
      enabled while a form is saving and can unmount it, so every
      submission the page allows is also allowed there.  A response lost
      after the server handled it is not modelled ([fetch] failing is
      modelled before the request reaches the server).
    - Date formatting in [NoteCard] ([toLocaleDateString]) depends on the
      browser's locale: [NoteCard.render] and [Page.view] take the
      formatter as a Section variable, so their theorems hold for any.
    - The module boilerplate of [models/Note.ts] ([mongoose.models.Note ||
      mongoose.model(...)], which reuses the compiled model across hot
      reloads) and the imports of each file: no behaviour.
    - [Date.parse] on strings other than the full format with [Z]
      (date-only forms, offsets, implementation fallbacks): the page only
      parses what [toISOString] printed.
    - The two reads of [Date.now()] when Mongoose creates a document (the
      seconds of the [_id] when it is built, the timestamps in the
      pre-save hook): [Store.create] reads one clock, and no theorem
      relates the [_id]'s seconds to [createdAt].
    - [lib/mongodb] is not among the sources: [Store.dbConnect] models it
      from the specification (a lazily opened connection kept for the
      process). *)

From Stdlib Require Export ssreflect.
From stdpp Require Export base list gmap strings.
From Stdlib Require Export ZArith Lia String.

Declare Scope js_scope.
Delimit Scope js_scope with js.
Open Scope Z_scope.

(** ** Exceptions of the JavaScript runtime and of Mongoose

    The handlers of the application run their whole body inside
    [try { ... } catch (error) { ... }]; every exception raised by the
    runtime (a [TypeError] on [undefined.trim()], a [SyntaxError] of
    [request.json()]) or by Mongoose (a [ValidationError] of the schema, a
    [CastError] of an identifier that is not an ObjectId,
    a server error of MongoDB, a lost connection) ends up in that catch
    block.  We keep the kind of the exception so that the theorems can say
    which one is raised. *)
Inductive exn : Type :=
| TypeError (msg : string)
| SyntaxError
| ValidationError (msg : string)
| CastError
| MongoServerError (code : Z)
| MongoNetworkError.

Inductive result (A : Type) : Type :=
| Ok (a : A)
| Throw (e : exn).
Arguments Ok {A} a.
Arguments Throw {A} e.

(** ** A state and exception monad

    [M S A] is a computation that reads and writes a state [S] and either
    returns a value of [A] or throws.  A thrown exception keeps the state
    reached so far: the code has no transaction, and what was written
    before the exception stays written. *)
Definition M (S A : Type) : Type := S -> result A * S.

Definition ret {S A} (a : A) : M S A := fun s => (Ok a, s).
Definition throw {S A} (e : exn) : M S A := fun s => (Throw e, s).
Definition bind {S A B} (m : M S A) (k : A -> M S B) : M S B :=
  fun s => match m s with
           | (Ok a, s') => k a s'
           | (Throw e, s') => (Throw e, s')
           end.
Definition get {S} : M S S := fun s => (Ok s, s).
Definition put {S} (s : S) : M S unit := fun _ => (Ok tt, s).
Definition modify {S} (f : S -> S) : M S unit := fun s => (Ok tt, f s).

(** [try_catch m h] runs [m]; if it throws [e], [h e] runs from the state
    [m] left behind. *)
Definition try_catch {S A} (m : M S A) (h : exn -> M S A) : M S A :=
  fun s => match m s with
           | (Ok a, s') => (Ok a, s')
           | (Throw e, s') => h e s'
           end.

Notation "x <- m ;; k" := (bind m (fun x => k))
  (at level 100, m at next level, right associativity) : js_scope.
Notation "m ;;; k" := (bind m (fun _ => k))
  (at level 100, right associativity) : js_scope.
Open Scope js_scope.

(** ** Monad laws and the rewriting rules of a run *)

Lemma bind_ret_l {S A B} (a : A) (k : A -> M S B) (s : S) :
  bind (ret a) k s = k a s.
Proof. reflexivity. Qed.

Lemma bind_throw_l {S A B} (e : exn) (k : A -> M S B) (s : S) :
  bind (throw e) k s = (Throw e, s).
Proof. reflexivity. Qed.

Lemma bind_ret_r {S A} (m : M S A) (s : S) : bind m ret s = m s.
Proof. unfold bind, ret. by destruct (m s) as [[] ?]. Qed.

Lemma bind_assoc {S A B C} (m : M S A) (k : A -> M S B) (h : B -> M S C) (s : S) :
  bind (bind m k) h s = bind m (fun a => bind (k a) h) s.
Proof. unfold bind. by destruct (m s) as [[] ?]. Qed.

Lemma bind_run_ok {S A B} (m : M S A) (k : A -> M S B) s a s' :
  m s = (Ok a, s') -> bind m k s = k a s'.
Proof. unfold bind. by intros ->. Qed.

Lemma bind_run_throw {S A B} (m : M S A) (k : A -> M S B) s e s' :
  m s = (Throw e, s') -> bind m k s = (Throw e, s').
Proof. unfold bind. by intros ->. Qed.

Lemma try_catch_ok {S A} (m : M S A) h s a s' :
  m s = (Ok a, s') -> try_catch m h s = (Ok a, s').
Proof. unfold try_catch. by intros ->. Qed.

Lemma try_catch_throw {S A} (m : M S A) h s e s' :
  m s = (Throw e, s') -> try_catch m h s = h e s'.
Proof. unfold try_catch. by intros ->. Qed.

Create HintDb notes discriminated.
Create Rewrite HintDb js_run.
#[export] Hint Rewrite @bind_ret_l @bind_throw_l @bind_assoc : js_run.

(** ** Invariants of computations

    [preserves P m]: running [m] from a state satisfying [P] ends, returning
    or throwing, in a state satisfying [P]. *)
Definition preserves {S A} (P : S -> Prop) (m : M S A) : Prop :=
  forall s r s', P s -> m s = (r, s') -> P s'.

Lemma preserves_ret {S A} (P : S -> Prop) (a : A) : preserves P (ret a).
Proof. by intros s r s' Hs [= _ <-]. Qed.

Lemma preserves_throw {S A} (P : S -> Prop) e : preserves P (@throw S A e).
Proof. by intros s r s' Hs [= _ <-]. Qed.

Lemma preserves_get {S} (P : S -> Prop) : preserves P get.
Proof. by intros s r s' Hs [= _ <-]. Qed.

Lemma preserves_bind {S A B} (P : S -> Prop) (m : M S A) (k : A -> M S B) :
  preserves P m -> (forall a, preserves P (k a)) -> preserves P (bind m k).
Proof.
  intros Hm Hk s r s' Hs. unfold bind.
  destruct (m s) as [[a|e] s1] eqn:E; [|intros [= _ <-]; by eapply Hm].
  intros Hrun. eapply Hk; [|exact Hrun]. by eapply Hm.
Qed.

Lemma preserves_put {S} (P : S -> Prop) (x : S) : P x -> preserves P (put x).
Proof. by intros Hx s r s' Hs [= _ <-]. Qed.

(** A computation that reads the state and then acts on what it read:
    the continuation may assume the invariant of the state it was given. *)
Lemma preserves_get_bind {S A} (P : S -> Prop) (k : S -> M S A) :
  (forall s0, P s0 -> preserves P (k s0)) -> preserves P (bind get k).
Proof. intros Hk s r s' Hs. unfold bind, get. by apply Hk. Qed.

Create HintDb preserves discriminated.
#[export] Hint Resolve preserves_ret preserves_throw preserves_get : preserves.

(** Decompose a computation along its binds and branches, and close the
    leaves with the [preserves] hints. *)
Ltac preserves_tac :=
  repeat match goal with
  | |- preserves _ (bind get _) => apply preserves_get_bind; intros ? ?
  | |- preserves _ (bind _ _) => apply preserves_bind; [|intros ?]
  | |- preserves _ (put _) => apply preserves_put
  | |- preserves _ (let '(_, _) := ?p in _) => destruct p
  | |- preserves _ (if ?b then _ else _) => destruct b eqn:?
  | |- preserves _ (match ?x with _ => _ end) => destruct x eqn:?
  | |- preserves _ _ => solve [eauto with preserves]
  end.

(** ** Properties of returned values

    [returns Q m]: every value [m] returns (from any state) satisfies [Q];
    what it throws is left to the handler's [catch]. *)
Definition returns {S A} (Q : A -> Prop) (m : M S A) : Prop :=
  forall s a s', m s = (Ok a, s') -> Q a.

Lemma returns_ret {S A} (Q : A -> Prop) (a : A) : Q a -> @returns S A Q (ret a).
Proof. by intros Ha s b s' [= <- _]. Qed.

Lemma returns_throw {S A} (Q : A -> Prop) e : @returns S A Q (throw e).
Proof. by intros s b s' [=]. Qed.

Lemma returns_bind {S A B} (Q : B -> Prop) (m : M S A) (k : A -> M S B) :
  (forall a, returns Q (k a)) -> returns Q (bind m k).
Proof.
  intros Hk s b s'. unfold bind.
  destruct (m s) as [[a|e] s1]; [apply Hk|by intros [=]].
Qed.

(** Decompose a computation along its binds and branches down to the
    values it returns. *)
Ltac returns_tac :=
  repeat match goal with
  | |- returns _ (bind _ _) => apply returns_bind; intros ?
  | |- returns _ (ret _) => apply returns_ret
  | |- returns _ (throw _) => apply returns_throw
  | |- returns _ (let '(_, _) := ?p in _) => destruct p
  | |- returns _ (if ?b then _ else _) => destruct b
  | |- returns _ (match ?x with _ => _ end) => destruct x
  end.

(** ** Generic tactics *)

(** Unfold the monad's combinators in the goal and reduce. *)
(** Evaluate the comparisons [a <=? b] of the goal that [lia] decides
    from the hypotheses. *)
Ltac zleb_simpl :=
  repeat match goal with
  | |- context [?a <=? ?b] =>
      first [replace (a <=? b) with true by (symmetry; apply Z.leb_le; lia)
            | replace (a <=? b) with false by (symmetry; apply Z.leb_gt; lia)]
  end.

Ltac run_m := unfold bind, ret, throw, get, put, modify, try_catch; cbn -[Z.add Z.mul Z.sub].

(** ** Generic lemmas on booleans and lists shared by the components *)

Lemma Forall_rev_iff {A} (P : A -> Prop) (l : list A) : Forall P (rev l) <-> Forall P l.
Proof. split; [intros H; rewrite <- (rev_involutive l) |]; by apply Forall_rev. Qed.

#[export] Hint Resolve Forall_nil_2 : notes.

(** The Standard Library's [map] is stdpp's [fmap] on lists. *)
Lemma map_fmap {A B} (f : A -> B) (l : list A) : map f l = f <$> l.
Proof. induction l as [|x l IH]; [done|]. by rw /= IH. Qed.
