(* ===== verification/JsString.v ===== *)
(** * JavaScript strings and [String.prototype.trim]

    The handlers and the form call [trim()] on user input, test the result
    with [!s] and the schema bounds its [length].  A JavaScript string is a
    sequence of UTF-16 code units, modelled as [list Z]; [length] counts
    code units, as JavaScript's [s.length] and Mongoose's [maxlength] do.
    [trim] is modelled from ECMAScript's TrimString: it removes the
    WhiteSpace and LineTerminator code points at both ends (every one of
    them is a single code unit of the Basic Multilingual Plane). *)

From S2P Require Import Prelude.

Module JsString.

Abbreviation jsstring := (list Z).

(** An ASCII Rocq string as a JavaScript string, for concrete inputs. *)
Definition of_ascii (s : string) : list Z :=
  map (fun a => Z.of_N (Ascii.N_of_ascii a)) (list_ascii_of_string s).

(** ECMAScript WhiteSpace (TAB, VT, FF, ZWNBSP and the Unicode category Zs)
    and LineTerminator (LF, CR, LS, PS). *)
Definition is_ws (c : Z) : bool :=
  (c =? 9) || (c =? 10) || (c =? 11) || (c =? 12) || (c =? 13) ||
  (c =? 32) || (c =? 160) || (c =? 5760) || ((8192 <=? c) && (c <=? 8202)) ||
  (c =? 8232) || (c =? 8233) || (c =? 8239) || (c =? 8287) ||
  (c =? 12288) || (c =? 65279).

Fixpoint trim_start (s : list Z) : list Z :=
  match s with
  | [] => []
  | c :: s' => if is_ws c then trim_start s' else s
  end.

Definition trim_end (s : list Z) : list Z := rev (trim_start (rev s)).

(** [s.trim()] *)
Definition trim (s : list Z) : list Z := trim_end (trim_start s).

(** [s.length] *)
Definition length (s : list Z) : Z := Z.of_nat (List.length s).

(** [!s] on a string: only the empty string is falsy. *)
Definition is_empty (s : list Z) : bool :=
  match s with [] => true | _ => false end.

Abbreviation all_ws p := (Forall (fun c => is_ws c = true) p).

(** The first code unit, if any, is not white space. *)
Definition lead_ok (s : list Z) : Prop :=
  match s with [] => True | c :: _ => is_ws c = false end.

(** The last code unit, if any, is not white space. *)
Definition trail_ok (s : list Z) : Prop := lead_ok (rev s).

(** ** Lemmas on [trim_start] *)

Lemma trim_start_all_ws p s : all_ws p -> trim_start (p ++ s) = trim_start s.
Proof. induction 1 as [|c p Hc _ IH]; [done|]. by rw /= Hc. Qed.

Lemma trim_start_lead_ok s : lead_ok s -> trim_start s = s.
Proof. destruct s as [|c s]; [done|]. by intros H; rw /= H. Qed.

Lemma trim_start_split s :
  exists p, s = p ++ trim_start s /\ all_ws p.
Proof.
  induction s as [|c s [p [Hs Hp]]]; [by exists []|].
  simpl. destruct (is_ws c) eqn:Hc.
  - exists (c :: p). rw {1}Hs. auto.
  - by exists [].
Qed.

Lemma trim_start_lead s : lead_ok (trim_start s).
Proof. induction s as [|c s IH]; [done|]. simpl. by destruct (is_ws c) eqn:Hc. Qed.

Lemma trim_start_nil s : trim_start s = [] <-> all_ws s.
Proof.
  split.
  - induction s as [|c s IH]; [done|]. simpl. destruct (is_ws c) eqn:Hc; [|done]. auto.
  - intros H. rw -(app_nil_r s) trim_start_all_ws //.
Qed.

Lemma lead_ok_app_l t q : t <> [] -> lead_ok t -> lead_ok (t ++ q).
Proof. by destruct t. Qed.

#[export] Hint Resolve trim_start_lead trim_start_lead_ok : notes.

(** ** [trim] against its specification

    [trim s] is the unique [t] such that [s = p ++ t ++ q] with [p] and [q]
    white space and [t] neither starting nor ending with white space. *)

Lemma trim_split s :
  exists p q, s = p ++ trim s ++ q /\ all_ws p /\ all_ws q /\
              lead_ok (trim s) /\ trail_ok (trim s).
Proof.
  destruct (trim_start_split s) as [p [Hs Hp]].
  set (u := trim_start s) in *.
  destruct (trim_start_split (rev u)) as [q' [Hu Hq']].
  assert (Hu' : u = trim s ++ rev q').
  { rw /trim /trim_end -/u -rev_app_distr -Hu rev_involutive //. }
  exists p, (rev q'). split; [rw {1}Hs Hu' //|].
  split; [done|]. split; [by apply Forall_rev_iff|]. split.
  - destruct (trim s) as [|c t] eqn:Ht; [done|].
    pose proof (trim_start_lead s) as Hl. fold u in Hl. by rw Hu' in Hl.
  - rw /trail_ok /trim /trim_end rev_involutive. apply trim_start_lead.
Qed.

Lemma trim_unique p t q :
  all_ws p -> all_ws q -> lead_ok t -> trail_ok t -> trim (p ++ t ++ q) = t.
Proof.
  intros Hp Hq Hl Ht. rw /trim /trim_end trim_start_all_ws //.
  destruct t as [|c t'] eqn:Et.
  - simpl. apply trim_start_nil in Hq. rw Hq. done.
  - rw -Et. rw -Et in Hl Ht.
    rw (trim_start_lead_ok (t ++ q)); [apply lead_ok_app_l; by subst|].
    rw rev_app_distr trim_start_all_ws; [by apply Forall_rev_iff|].
    rw trim_start_lead_ok // rev_involutive //.
Qed.

Lemma trim_idempotent s : trim (trim s) = trim s.
Proof.
  destruct (trim_split s) as (_ & _ & _ & _ & _ & Hl & Ht).
  rw -{1}(app_nil_r (trim s)) -(app_nil_l (trim s ++ [])).
  by apply trim_unique.
Qed.

Lemma trim_nil_iff s : trim s = [] <-> all_ws s.
Proof.
  destruct (trim_split s) as (p & q & Hs & Hp & Hq & _).
  split.
  - intros Ht. rw Hs Ht. apply Forall_app; auto.
  - intros Hw. rw /trim /trim_end.
    apply trim_start_nil in Hw. by rw Hw.
Qed.

Lemma length_trim_le s : (List.length (trim s) <= List.length s)%nat.
Proof.
  destruct (trim_split s) as (p & q & Hs & _).
  rw {2}Hs !length_app. lia.
Qed.

Lemma is_empty_true s : is_empty s = true <-> s = [].
Proof. by destruct s. Qed.

Lemma is_empty_false s : s <> [] -> is_empty s = false.
Proof. by destruct s. Qed.

Lemma trim_nonnil s : trim s <> [] -> s <> [].
Proof. by intros H ->. Qed.

(** [trim s] is [t] exactly when [s] is [t] with white space added at
    either end and [t] neither starts nor ends with white space. *)
Lemma trim_spec s t :
  trim s = t <->
  exists p q, s = p ++ t ++ q /\ all_ws p /\ all_ws q /\ lead_ok t /\ trail_ok t.
Proof.
  split.
  - intros <-. apply trim_split.
  - intros (p & q & -> & Hp & Hq & Hl & Ht). by apply trim_unique.
Qed.

#[export] Hint Rewrite trim_idempotent : js_run.
#[export] Hint Resolve trim_nonnil : notes.
#[export] Hint Rewrite is_empty_false using (eauto with notes) : js_run.

End JsString.
