(* ===== verification/JsDate.v ===== *)
(** * JavaScript dates on the wire: [toISOString] and [new Date(string)]

    A note's [createdAt] and [updatedAt] are JavaScript [Date]s, that is
    millisecond time values.  [NextResponse.json] serialises them with
    [Date.prototype.toJSON], which is [toISOString]
    ("YYYY-MM-DDTHH:mm:ss.sssZ", with a signed six-digit year outside
    0..9999, ECMA-262 21.4.4.36), and the card reads them back with
    [new Date(date)] (the Date Time String Format, 21.4.1.32, and
    [MakeDay], [MakeTime], [TimeClip]).  The year, month and day of a time
    value ([civil_from_days]) are computed by the era arithmetic of
    H. Hinnant's [civil_from_days]; [make_day] is [MakeDay] as ECMA-262
    defines it from [DayFromYear] and [InLeapYear], and [days_from_civil]
    is its era form.  The round trip [parse_toISOString] holds on the
    whole range of time values, [-8.64e15 .. 8.64e15] ms. *)

From S2P Require Import Prelude.

Module JsDate.

Definition msPerDay : Z := 86400000.

(** The largest absolute time value of a [Date] (21.4.1.31). *)
Definition maxTime : Z := 8640000000000000.

(** ** The calendar *)

(** [DayFromYear(y)] of 21.4.1.3. *)
Definition day_from_year (y : Z) : Z :=
  365 * (y - 1970) + (y - 1969) / 4 - (y - 1901) / 100 + (y - 1601) / 400.

(** [InLeapYear]: [DaysInYear(y)] is 366. *)
Definition in_leap_year (y : Z) : bool :=
  ((y mod 4 =? 0) && negb (y mod 100 =? 0)) || (y mod 400 =? 0).

(** The day of the year on which month [mn] (0 = January) starts. *)
Definition month_start (leap : bool) (mn : Z) : Z :=
  nth (Z.to_nat mn) [0; 31; 59; 90; 120; 151; 181; 212; 243; 273; 304; 334] 0 +
  (if leap && (2 <=? mn) then 1 else 0).

(** [MakeDay(year, month, date)] for a month in [0..11]. *)
Definition make_day (y mn d : Z) : Z := day_from_year y + month_start (in_leap_year y) mn + d - 1.

(** The same day count by 400-year eras, with years starting in March. *)
Definition days_from_civil (y m d : Z) : Z :=
  let y0 := if m <=? 2 then y - 1 else y in
  let era := y0 / 400 in
  let yoe := y0 - era * 400 in
  let mp := if 2 <? m then m - 3 else m + 9 in
  let doy := (153 * mp + 2) / 5 + d - 1 in
  let doe := yoe * 365 + yoe / 4 - yoe / 100 + doy in
  era * 146097 + doe - 719468.

(** [YearFromTime], [MonthFromTime] + 1 and [DateFromTime] of the day
    [z] after 1970-01-01. *)
Definition civil_from_days (z : Z) : Z * Z * Z :=
  let z' := z + 719468 in
  let era := z' / 146097 in
  let doe := z' - era * 146097 in
  let yoe := (doe - doe / 1460 + doe / 36524 - doe / 146096) / 365 in
  let y := yoe + era * 400 in
  let doy := doe - (365 * yoe + yoe / 4 - yoe / 100) in
  let mp := (5 * doy + 2) / 153 in
  let d := doy - (153 * mp + 2) / 5 + 1 in
  let m := if mp <? 10 then mp + 3 else mp - 9 in
  (if m <=? 2 then y + 1 else y, m, d).

(** ** Printing *)

(** The [n] decimal digits of [v], most significant first. *)
Fixpoint dec_digits (n : nat) (v : Z) : list Z :=
  match n with
  | O => []
  | S n' => dec_digits n' (v / 10) ++ [48 + v mod 10]
  end.

(** The year: four digits, or a sign and six digits outside 0..9999. *)
Definition year_string (y : Z) : list Z :=
  if (0 <=? y) && (y <=? 9999) then dec_digits 4 y
  else (if y <? 0 then 45 else 43) :: dec_digits 6 (Z.abs y).

(** [Date.prototype.toISOString] of the time value [t]. *)
Definition toISOString (t : Z) : list Z :=
  let '(y, m, d) := civil_from_days (t / msPerDay) in
  let ms := t mod msPerDay in
  year_string y ++ [45] ++ dec_digits 2 m ++ [45] ++ dec_digits 2 d ++ [84] ++
  dec_digits 2 (ms / 3600000) ++ [58] ++ dec_digits 2 (ms / 60000 mod 60) ++ [58] ++
  dec_digits 2 (ms / 1000 mod 60) ++ [46] ++ dec_digits 3 (ms mod 1000) ++ [90].

(** ** Parsing *)

(** [n] decimal digits, read onto [acc]. *)
Fixpoint read_digits (n : nat) (acc : Z) (s : list Z) : option (Z * list Z) :=
  match n, s with
  | O, _ => Some (acc, s)
  | S n', c :: s' => if (48 <=? c) && (c <=? 57) then read_digits n' (acc * 10 + (c - 48)) s' else None
  | S _, [] => None
  end.

Definition expect (c : Z) (s : list Z) : option (list Z) :=
  match s with
  | c' :: s' => if c =? c' then Some s' else None
  | [] => None
  end.

(** [YYYY], or [+YYYYYY] / [-YYYYYY]; [-000000] is not a year. *)
Definition read_year (s : list Z) : option (Z * list Z) :=
  match s with
  | c :: s' =>
      if c =? 43 then read_digits 6 0 s'
      else if c =? 45 then '(y, r) ← read_digits 6 0 s'; if y =? 0 then None else Some (- y, r)
      else read_digits 4 0 s
  | [] => None
  end.

(** The fields are in range: month 01..12, day 01..31, hour 00..24
    (24 only for 24:00:00.000), minute and second 00..59. *)
Definition fields_ok (mo d h mi sec ms : Z) : bool :=
  (1 <=? mo) && (mo <=? 12) && (1 <=? d) && (d <=? 31) && (mi <=? 59) && (sec <=? 59) &&
  ((h <? 24) || ((h =? 24) && (mi =? 0) && (sec =? 0) && (ms =? 0))).

(** [new Date(s)] on a string of the Date Time String Format with
    date, time and [Z]: [None] is the invalid date ([NaN]). *)
Definition parse_iso (s : list Z) : option Z :=
  '(y, s) ← read_year s; s ← expect 45 s; '(mo, s) ← read_digits 2 0 s; s ← expect 45 s;
  '(d, s) ← read_digits 2 0 s; s ← expect 84 s; '(h, s) ← read_digits 2 0 s; s ← expect 58 s;
  '(mi, s) ← read_digits 2 0 s; s ← expect 58 s; '(sec, s) ← read_digits 2 0 s; s ← expect 46 s;
  '(ms, s) ← read_digits 3 0 s; s ← expect 90 s;
  if s is [] then
    if fields_ok mo d h mi sec ms then
      let t := make_day y (mo - 1) d * msPerDay + h * 3600000 + mi * 60000 + sec * 1000 + ms in
      if Z.abs t <=? maxTime then Some t else None
    else None
  else None.

(** ** The calendar arithmetic *)

Lemma div_shift a b c : 0 < c -> (a + b * c) / c = a / c + b.
Proof. intros Hc. apply Z.div_add. lia. Qed.

Lemma mod_shift a b c : 0 < c -> (a + b * c) mod c = a mod c.
Proof. intros Hc. apply Z.mod_add. lia. Qed.

(** [civil_from_days] gives a month and a day in range, and the era form
    of [MakeDay] inverts it. *)
Lemma civil_from_days_spec z :
  let '(y, m, d) := civil_from_days z in
  1 <= m <= 12 /\ 1 <= d <= 31 /\
  (z + 719468) / 146097 * 400 <= y <= (z + 719468) / 146097 * 400 + 400 /\
  days_from_civil y m d = z.
Proof.
  rw /civil_from_days.
  set (z' := z + 719468). set (era := z' / 146097). set (doe := z' - era * 146097).
  assert (Hdoe : 0 <= doe <= 146096) by (subst doe era; Z.div_mod_to_equations; lia).
  set (yoe := (doe - doe / 1460 + doe / 36524 - doe / 146096) / 365).
  assert (Hyoe : 0 <= yoe <= 399) by (subst yoe; Z.div_mod_to_equations; lia).
  set (doy := doe - (365 * yoe + yoe / 4 - yoe / 100)).
  assert (Hdoy : 0 <= doy <= 365) by (subst doy yoe; Z.div_mod_to_equations; lia).
  set (mp := (5 * doy + 2) / 153).
  assert (Hmp : 0 <= mp <= 11) by (subst mp; Z.div_mod_to_equations; lia).
  set (d := doy - (153 * mp + 2) / 5 + 1).
  assert (Hd : 1 <= d <= 31) by (subst d mp; Z.div_mod_to_equations; lia).
  rw /days_from_civil.
  destruct (Z.ltb_spec mp 10); zleb_simpl;
    [replace (2 <? mp + 3) with true by (symmetry; apply Z.ltb_lt; lia);
     replace (mp + 3 - 3) with mp by lia
    |replace (2 <? mp - 9) with false by (symmetry; apply Z.ltb_ge; lia);
     replace (yoe + era * 400 + 1 - 1) with (yoe + era * 400) by lia;
     replace (mp - 9 + 9) with mp by lia];
    (split; [lia|split; [lia|split; [lia|]]]);
    replace ((yoe + era * 400) / 400) with era by (Z.div_mod_to_equations; lia);
    replace (yoe + era * 400 - era * 400) with yoe by lia;
    subst d doy doe z'; lia.
Qed.

Lemma make_day_400 y mn d : make_day (y + 400) mn d = make_day y mn d + 146097.
Proof.
  rw /make_day /day_from_year /in_leap_year.
  replace (y + 400 - 1969) with (y - 1969 + 100 * 4) by lia.
  replace (y + 400 - 1901) with (y - 1901 + 4 * 100) by lia.
  replace (y + 400 - 1601) with (y - 1601 + 1 * 400) by lia.
  rw !div_shift; try lia.
  replace (y + 400) with (y + 100 * 4) by lia. rw mod_shift; [lia|].
  replace (y + 100 * 4) with (y + 4 * 100) by lia. rw mod_shift; [lia|].
  replace (y + 4 * 100) with (y + 1 * 400) by lia. rw mod_shift; [lia|].
  lia.
Qed.

Lemma era_400 a : a + 1 * 400 - (a / 400 + 1) * 400 = a - a / 400 * 400.
Proof. lia. Qed.

Lemma days_from_civil_400 y m d : days_from_civil (y + 400) m d = days_from_civil y m d + 146097.
Proof.
  rw /days_from_civil. destruct (m <=? 2).
  - replace (y + 400 - 1) with (y - 1 + 1 * 400) by lia. rw div_shift; [lia|]. rw era_400. lia.
  - replace (y + 400) with (y + 1 * 400) by lia. rw div_shift; [lia|]. rw era_400. lia.
Qed.

(** How far the two day counts of the first of month [m] disagree. *)
Definition calendar_gap (y m : Z) : Z := make_day y (m - 1) 1 - days_from_civil y m 1.

Lemma calendar_gap_400_nat y m k : 0 <= k -> calendar_gap (y + 400 * k) m = calendar_gap y m.
Proof.
  intros Hk. pattern k. apply natlike_ind; [by rw Z.mul_0_r Z.add_0_r| |done].
  intros j Hj IH. rw /calendar_gap in IH |- *.
  replace (y + 400 * Z.succ j) with (y + 400 * j + 400) by lia.
  rw make_day_400 days_from_civil_400. lia.
Qed.

Lemma calendar_gap_400 y m k : calendar_gap (y + 400 * k) m = calendar_gap y m.
Proof.
  destruct (Z.le_ge_cases 0 k) as [Hk|Hk]; [by apply calendar_gap_400_nat|].
  rw -(calendar_gap_400_nat (y + 400 * k) m (- k)); [lia|]. f_equal. lia.
Qed.

(** The two agree on every month of the 400 years of one era. *)
Lemma calendar_gap_era :
  forallb (fun r => forallb (fun m => calendar_gap (Z.of_nat r) m =? 0)
                            [1; 2; 3; 4; 5; 6; 7; 8; 9; 10; 11; 12]) (seq 0 400) = true.
Proof. vm_compute. reflexivity. Qed.

(** [MakeDay] as ECMA-262 defines it is the era form. *)
Lemma make_day_days_from_civil y m d :
  1 <= m <= 12 -> make_day y (m - 1) d = days_from_civil y m d.
Proof.
  intros Hm.
  assert (Hd : make_day y (m - 1) d - days_from_civil y m d = calendar_gap y m)
    by (rw /calendar_gap /make_day /days_from_civil; lia).
  enough (calendar_gap y m = 0) by lia.
  rw (Z_div_mod_eq_full y 400) Z.add_comm calendar_gap_400.
  pose proof calendar_gap_era as Ht. rw forallb_forall in Ht.
  assert (Hr : 0 <= y mod 400 < 400) by (apply Z.mod_pos_bound; lia).
  specialize (Ht (Z.to_nat (y mod 400))). rw Z2Nat.id in Ht; [lia|].
  rw forallb_forall in Ht. apply Z.eqb_eq, Ht; [apply in_seq; lia|].
  cbn. lia.
Qed.

(** ** Reading back what was printed *)

Lemma dec_digits_range n v : Forall (fun c => 48 <= c <= 57) (dec_digits n v).
Proof.
  revert v. induction n as [|n IH]; intros v; [constructor|].
  rw /= Forall_app. split; [apply IH|]. constructor; [|constructor].
  pose proof (Z.mod_pos_bound v 10). lia.
Qed.

Lemma read_digits_plus n k acc s :
  read_digits (n + k) acc s = read_digits n acc s ≫= fun '(a, s') => read_digits k a s'.
Proof.
  revert acc s. induction n as [|n IH]; intros acc [|c s]; [done|done|done|].
  rw /=. case_match; [apply IH|done].
Qed.

Lemma read_digits_dec n acc v rest :
  0 <= v < 10 ^ Z.of_nat n ->
  read_digits n acc (dec_digits n v ++ rest) = Some (acc * 10 ^ Z.of_nat n + v, rest).
Proof.
  revert acc v rest. induction n as [|n IH]; intros acc v rest Hv.
  - cbn in Hv |- *. assert (v = 0) as -> by lia. f_equal. f_equal. lia.
  - rw Nat2Z.inj_succ Z.pow_succ_r in Hv; [lia|].
    change (dec_digits (S n) v) with (dec_digits n (v / 10) ++ [48 + v mod 10]).
    rw -app_assoc -(Nat.add_1_r n) read_digits_plus IH; [Z.div_mod_to_equations; lia|].
    pose proof (Z.mod_pos_bound v 10). cbn. zleb_simpl. cbn. f_equal. f_equal.
    rw Nat2Z.inj_add Z.pow_add_r; [lia|lia|]. cbn. Z.div_mod_to_equations. lia.
Qed.

Lemma bind_read_digits {B} n v rest (f : Z * list Z -> option B) :
  0 <= v < 10 ^ Z.of_nat n -> (read_digits n 0 (dec_digits n v ++ rest) ≫= f) = f (v, rest).
Proof. intros Hv. by rw read_digits_dec. Qed.

Lemma bind_expect {B} c rest (f : list Z -> option B) : (expect c ([c] ++ rest) ≫= f) = f rest.
Proof. by rw /= Z.eqb_refl. Qed.

Lemma read_year_digit c s : c <> 43 -> c <> 45 -> read_year (c :: s) = read_digits 4 0 (c :: s).
Proof. intros H43 H45. rw /read_year (proj2 (Z.eqb_neq c 43)) // (proj2 (Z.eqb_neq c 45)) //. Qed.

Lemma read_year_plus s : read_year (43 :: s) = read_digits 6 0 s.
Proof. done. Qed.

Lemma read_year_minus s :
  read_year (45 :: s) = '(y, r) ← read_digits 6 0 s; if y =? 0 then None else Some (- y, r).
Proof. done. Qed.

Lemma read_year_string y rest :
  Z.abs y < 1000000 -> read_year (year_string y ++ rest) = Some (y, rest).
Proof.
  intros Hy. rw /year_string.
  destruct (Z.leb_spec 0 y), (Z.leb_spec y 9999); cbn [andb].
  - pose proof (dec_digits_range 4 y) as Hr.
    destruct (dec_digits 4 y) as [|c l] eqn:E; [done|]. inv Hr as [|? ? Hc _].
    rw -app_comm_cons read_year_digit; [lia|lia|].
    rw app_comm_cons -E read_digits_dec; [cbn; lia|]. done.
  - replace (y <? 0) with false by (symmetry; apply Z.ltb_ge; lia).
    rw -app_comm_cons read_year_plus read_digits_dec; [cbn; lia|]. f_equal. f_equal. lia.
  - replace (y <? 0) with true by (symmetry; apply Z.ltb_lt; lia).
    rw -app_comm_cons read_year_minus read_digits_dec; [cbn; lia|]. cbn.
    rw (proj2 (Z.eqb_neq _ 0)); [lia|]. f_equal. f_equal. lia.
  - lia.
Qed.

Lemma bind_Some {A B} (x : A) (f : A -> option B) : (Some x ≫= f) = f x.
Proof. done. Qed.

(** One field of the format: a separator or a run of digits. *)
Ltac iso_field :=
  first [rw bind_expect | rw bind_read_digits; [cbn; Z.div_mod_to_equations; lia|]]; cbv beta iota.

(** [new Date(d.toISOString())] is [d]: the string [toISOString] prints
    for any time value a [Date] can hold is read back by the Date Time
    String Format as the same millisecond. *)
Theorem parse_toISOString t : Z.abs t <= maxTime -> parse_iso (toISOString t) = Some t.
Proof.
  intros Ht. rw /toISOString.
  pose proof (civil_from_days_spec (t / msPerDay)) as Hc.
  destruct (civil_from_days (t / msPerDay)) as [[y m] d].
  destruct Hc as (Hm & Hd & Hy & Hz). rw /maxTime /msPerDay in Ht Hy Hz |- *.
  assert (Hms : 0 <= t mod 86400000 < 86400000) by (apply Z.mod_pos_bound; lia).
  rw /parse_iso read_year_string; [Z.div_mod_to_equations; lia|]. rw bind_Some. cbv beta iota.
  do 13 iso_field.
  assert (Hf : fields_ok m d (t mod 86400000 / 3600000) (t mod 86400000 / 60000 mod 60)
                 (t mod 86400000 / 1000 mod 60) (t mod 86400000 mod 1000) = true).
  { assert (0 <= t mod 86400000 / 3600000 < 24) by (Z.div_mod_to_equations; lia).
    pose proof (Z.mod_pos_bound (t mod 86400000 / 60000) 60).
    pose proof (Z.mod_pos_bound (t mod 86400000 / 1000) 60).
    rw /fields_ok. replace (t mod 86400000 / 3600000 <? 24) with true by (symmetry; apply Z.ltb_lt; lia).
    zleb_simpl. by rw orb_true_l. }
  rw Hf make_day_days_from_civil // Hz /msPerDay /maxTime.
  replace (t / 86400000 * 86400000 + t mod 86400000 / 3600000 * 3600000 +
           t mod 86400000 / 60000 mod 60 * 60000 + t mod 86400000 / 1000 mod 60 * 1000 +
           t mod 86400000 mod 1000) with t by (Z.div_mod_to_equations; lia).
  by rw (proj2 (Z.leb_le _ _) Ht).
Qed.

(** Two time values print alike only when they are equal. *)
Lemma toISOString_inj t1 t2 :
  Z.abs t1 <= maxTime -> Z.abs t2 <= maxTime -> toISOString t1 = toISOString t2 -> t1 = t2.
Proof.
  intros H1 H2 Heq. enough (Some t1 = Some t2) by congruence.
  by rw -(parse_toISOString t1 H1) -(parse_toISOString t2 H2) Heq.
Qed.

Lemma toISOString_nonempty t : toISOString t <> [].
Proof. rw /toISOString. destruct (civil_from_days _) as [[y m] d]. by destruct (year_string y). Qed.

End JsDate.
