(* ===== verification/Json.v ===== *)
(** * JSON request bodies as the handlers read them

    [await request.json()] parses the body into a JavaScript value; the
    handlers then destructure it with [const { title, content } = body],
    test the fields with [!title || !content] and call [title.trim()].
    This file models those three JavaScript operations on the values
    JSON.parse can produce.  A JSON number is kept as an integer: the code
    only asks whether it is [0] (falsy) or not, and has no [trim] method on
    any number. *)

From S2P Require Import Prelude JsString.
Import JsString.

Module Json.

#[local] Set Warnings "-register-all".

Inductive jsval : Type :=
| JUndefined
| JNull
| JBool (b : bool)
| JNum (n : Z)
| JStr (s : list Z)
| JArr (xs : list jsval)
| JObj (fields : list (list Z * jsval)).

(** [!v] is [negb (truthy v)]: [undefined], [null], [false], [0] and [""]
    are the falsy values. *)
Definition truthy (v : jsval) : bool :=
  match v with
  | JUndefined | JNull => false
  | JBool b => b
  | JNum n => negb (n =? 0)
  | JStr s => negb (is_empty s)
  | JArr _ | JObj _ => true
  end.

(** An own property of an object produced by JSON.parse; with duplicate
    keys, the last one wins. *)
Fixpoint own_prop (k : list Z) (fs : list (list Z * jsval)) : option jsval :=
  match fs with
  | [] => None
  | (k', v) :: fs' =>
      match own_prop k fs' with
      | Some w => Some w
      | None => if bool_decide (k = k') then Some v else None
      end
  end.

(** [v[k]] for a property that no prototype of a JSON value defines:
    [undefined] and [null] throw, an object yields its own property, any
    other value yields [undefined]. *)
Definition get_prop {S} (v : jsval) (k : list Z) : M S jsval :=
  match v with
  | JUndefined | JNull =>
      throw (TypeError "Cannot destructure property of null or undefined")
  | JObj fs => ret (default JUndefined (own_prop k fs))
  | _ => ret JUndefined
  end.

(** [const { title, content } = body] *)
Definition destructure {S} (body : jsval) : M S (jsval * jsval) :=
  title <- get_prop body (of_ascii "title") ;;
  content <- get_prop body (of_ascii "content") ;;
  ret (title, content).

(** [v.trim()]: only strings have a [trim] method. *)
Definition call_trim {S} (v : jsval) : M S (list Z) :=
  match v with
  | JStr s => ret (trim s)
  | JUndefined | JNull => throw (TypeError "Cannot read properties of null or undefined")
  | _ => throw (TypeError "trim is not a function")
  end.

(** [await request.json()]: [None] is a body that is not JSON. *)
Definition request_json {S} (raw : option jsval) : M S jsval :=
  match raw with
  | Some v => ret v
  | None => throw SyntaxError
  end.

(** A JSON object literal with ASCII keys, for concrete requests. *)
Definition obj (fs : list (string * jsval)) : jsval :=
  JObj (map (fun '(k, v) => (of_ascii k, v)) fs).

(** A request body [{ title, content }] with two ASCII strings. *)
Definition note_body (title content : string) : jsval :=
  obj [("title", JStr (of_ascii title)); ("content", JStr (of_ascii content))].

(** ** Lemmas *)

Lemma destructure_state {S} v (st : S) r st' :
  destructure v st = (r, st') -> st' = st.
Proof. destruct v; cbn; by intros [= _ <-]. Qed.

(** None of these operations touches the state. *)
Lemma request_json_preserves {S} (P : S -> Prop) raw : preserves P (request_json raw).
Proof. destruct raw; cbn; auto with preserves. Qed.

Lemma destructure_preserves {S} (P : S -> Prop) v : preserves P (destructure v).
Proof. intros s r s' Hs Hrun. by rw (destructure_state _ _ _ _ Hrun). Qed.

Lemma call_trim_preserves {S} (P : S -> Prop) v : preserves P (call_trim v).
Proof. destruct v; cbn; auto with preserves. Qed.

#[export] Hint Resolve request_json_preserves destructure_preserves call_trim_preserves : preserves.

Lemma truthy_str s : truthy (JStr s) = true <-> s <> [].
Proof. destruct s; naive_solver. Qed.

Lemma call_trim_str {S} s (st : S) : call_trim (JStr s) st = (Ok (trim s), st).
Proof. reflexivity. Qed.

Lemma call_trim_ok {S} v (st : S) t st' :
  call_trim v st = (Ok t, st') -> exists s, v = JStr s /\ t = trim s /\ st' = st.
Proof. destruct v; cbn; intros [=]; eauto. Qed.

Lemma destructure_obj {S} fs (st : S) :
  destructure (JObj fs) st =
  (Ok (default JUndefined (own_prop (of_ascii "title") fs),
       default JUndefined (own_prop (of_ascii "content") fs)), st).
Proof. reflexivity. Qed.



End Json.
