(* ===== verification/ObjectId.v ===== *)
(** * MongoDB ObjectIds, as the bson library of Mongoose handles them

    The routes under [api/notes/[id]] check the path parameter with
    [mongoose.Types.ObjectId.isValid(id)] before any query, and Mongoose
    casts it with [new ObjectId(id)]; a created note gets the identifier
    [new ObjectId()], and a response prints it with [toHexString()].  The
    12 bytes of an ObjectId are kept as one 96-bit integer, most
    significant byte first.  The string form accepted is the one of bson
    6 and later: exactly 24 hexadecimal digits, either case. *)

From S2P Require Import Prelude.

Module ObjectId.

(** The value of a hexadecimal digit, [0-9a-fA-F]. *)
Definition hex_val (c : Z) : option Z :=
  if (48 <=? c) && (c <=? 57) then Some (c - 48)
  else if (97 <=? c) && (c <=? 102) then Some (c - 87)
  else if (65 <=? c) && (c <=? 70) then Some (c - 55)
  else None.

(** [String.prototype.toUpperCase] on an ASCII code unit. *)
Definition ascii_upper (c : Z) : Z := if (97 <=? c) && (c <=? 122) then c - 32 else c.

Definition is_hex (c : Z) : bool :=
  match hex_val c with Some _ => true | None => false end.

(** [ObjectId.isValid(id)] on a string, as bson 6 and later define it:
    [/^[0-9a-fA-F]{24}$/].  bson 5 also accepted any string of 12
    characters; the repository pins no version, and Mongoose 8 ships
    bson 6. *)
Definition isValid (s : list Z) : bool :=
  (List.length s =? 24)%nat && forallb is_hex s.

Fixpoint parse_hex (acc : Z) (s : list Z) : option Z :=
  match s with
  | [] => Some acc
  | c :: s' => match hex_val c with
               | Some d => parse_hex (acc * 16 + d) s'
               | None => None
               end
  end.

(** [new ObjectId(id)] on a string: the bytes of a valid string, a cast
    error otherwise. *)
Definition of_string (s : list Z) : option Z :=
  if isValid s then parse_hex 0 s else None.

(** Lower-case hexadecimal digit of a nibble. *)
Definition hex_digit (d : Z) : Z := if d <? 10 then 48 + d else 87 + d.

Fixpoint hex_digits (n : nat) (v : Z) : list Z :=
  match n with
  | O => []
  | S n' => hex_digits n' (Z.shiftr v 4) ++ [hex_digit (Z.land v 15)]
  end.

(** [oid.toHexString()], the form of an ObjectId in a JSON response. *)
Definition toHexString (v : Z) : list Z := hex_digits 24 v.

(** ** Generation: [new ObjectId()]

    bson writes the seconds of [Date.now()] as a 4-byte big-endian integer,
    then the 5 random bytes [PROCESS_UNIQUE] drawn once per process, then
    the three low bytes of a counter that [ObjectId.getInc] advances with
    [(index + 1) % 0xffffff]. *)
Definition generate (time process_unique inc : Z) : Z :=
  Z.lor (Z.shiftl (Z.land time (Z.ones 32)) 64)
        (Z.lor (Z.shiftl (Z.land process_unique (Z.ones 40)) 24)
               (Z.land inc (Z.ones 24))).

Definition getInc (index : Z) : Z := (index + 1) mod 16777215.

(** [oid.getTimestamp()] in seconds. *)
Definition getTimestamp (oid : Z) : Z := Z.shiftr oid 64.

(** ** Printing and parsing *)

Lemma parse_hex_app acc s t :
  parse_hex acc (s ++ t) = match parse_hex acc s with
                           | Some a => parse_hex a t
                           | None => None
                           end.
Proof.
  revert acc. induction s as [|c s IH]; intros acc; [done|].
  simpl. destruct (hex_val c); [apply IH|done].
Qed.

Lemma hex_val_digit d : 0 <= d < 16 -> hex_val (hex_digit d) = Some d.
Proof.
  intros Hd. unfold hex_digit, hex_val.
  destruct (Z.ltb_spec d 10).
  - replace (48 <=? 48 + d) with true by lia. replace (48 + d <=? 57) with true by lia.
    f_equal. lia.
  - replace (48 <=? 87 + d) with true by lia. replace (87 + d <=? 57) with false by lia.
    replace (97 <=? 87 + d) with true by lia. replace (87 + d <=? 102) with true by lia.
    f_equal. lia.
Qed.

Lemma land_15_range v : 0 <= Z.land v 15 < 16.
Proof.
  rw (Z.land_ones v 4) //. pose proof (Z.mod_pos_bound v (2 ^ 4)). lia.
Qed.

Lemma parse_hex_digits n acc v :
  parse_hex acc (hex_digits n v) = Some (acc * 2 ^ (4 * Z.of_nat n) + v mod 2 ^ (4 * Z.of_nat n)).
Proof.
  revert acc v. induction n as [|n IH]; intros acc v.
  - simpl. rw Z.mod_1_r. f_equal. lia.
  - simpl hex_digits. rw parse_hex_app IH /= hex_val_digit; [apply land_15_range|].
    f_equal.
    rw Z.shiftr_div_pow2 // (Z.land_ones v 4) //.
    replace (4 * Z.of_nat (S n)) with (4 + 4 * Z.of_nat n) by lia.
    rw Z.pow_add_r; [lia|lia|]. rw Z.rem_mul_r; [lia| apply Z.pow_pos_nonneg; lia|].
    change (2 ^ 4) with 16. ring.
Qed.

Lemma length_hex_digits n v : List.length (hex_digits n v) = n.
Proof.
  revert v. induction n as [|n IH]; intros v; [done|].
  by rw /= length_app IH /= Nat.add_1_r.
Qed.

Lemma hex_digits_hex n v : forallb is_hex (hex_digits n v) = true.
Proof.
  revert v. induction n as [|n IH]; intros v; [done|].
  rw /= forallb_app IH /= /is_hex hex_val_digit //. apply land_15_range.
Qed.

Lemma isValid_toHexString v : isValid (toHexString v) = true.
Proof.
  by rw /isValid /toHexString length_hex_digits hex_digits_hex.
Qed.

Theorem of_string_toHexString v :
  0 <= v < 2 ^ 96 -> of_string (toHexString v) = Some v.
Proof.
  intros Hv. rw /of_string isValid_toHexString /toHexString parse_hex_digits.
  f_equal. rw Z.mod_small //.
Qed.

(** ** The layout of a generated ObjectId *)

Lemma lor_shiftl_small a b k :
  0 <= k -> 0 <= b < 2 ^ k -> Z.lor (Z.shiftl a k) b = a * 2 ^ k + b.
Proof.
  intros Hk Hb.
  assert (Hl : Z.land (Z.shiftl a k) b = 0).
  { apply Z.bits_inj_0. intros n. rw Z.land_spec.
    destruct (Z.ltb_spec n 0); [by rw Z.testbit_neg_r|].
    destruct (Z.ltb_spec n k); [by rw Z.shiftl_spec_low|].
    rw -(Z.mod_small b (2 ^ k)) // Z.mod_pow2_bits_high; [lia|apply andb_false_r]. }
  rw -Z.lxor_lor // -Z.add_nocarry_lxor // Z.shiftl_mul_pow2 //.
Qed.

Lemma land_ones_range a n : 0 <= n -> 0 <= Z.land a (Z.ones n) < 2 ^ n.
Proof.
  intros Hn. rw Z.land_ones //. apply Z.mod_pos_bound. by apply Z.pow_pos_nonneg.
Qed.

Lemma generate_spec time process inc :
  generate time process inc =
  (time mod 2 ^ 32) * 2 ^ 64 + (process mod 2 ^ 40) * 2 ^ 24 + inc mod 2 ^ 24.
Proof.
  rw /generate.
  pose proof (land_ones_range process 40 ltac:(lia)).
  pose proof (land_ones_range inc 24 ltac:(lia)).
  rw (lor_shiftl_small _ (Z.land inc (Z.ones 24))); [lia|lia|].
  rw lor_shiftl_small; [lia| change (2 ^ 64) with (2 ^ 40 * 2 ^ 24); nia|].
  rw !Z.land_ones //. lia.
Qed.

Lemma generate_bound time process inc : 0 <= generate time process inc < 2 ^ 96.
Proof.
  rw generate_spec.
  pose proof (Z.mod_pos_bound time (2 ^ 32) ltac:(lia)).
  pose proof (Z.mod_pos_bound process (2 ^ 40) ltac:(lia)).
  pose proof (Z.mod_pos_bound inc (2 ^ 24) ltac:(lia)).
  change (2 ^ 96) with (2 ^ 32 * 2 ^ 64). change (2 ^ 64) with (2 ^ 40 * 2 ^ 24) in *. nia.
Qed.

Lemma generate_low time process inc :
  (generate time process inc) mod 2 ^ 24 = inc mod 2 ^ 24.
Proof.
  rw generate_spec. change (2 ^ 64) with (2 ^ 40 * 2 ^ 24).
  pose proof (Z.mod_pos_bound inc (2 ^ 24) ltac:(lia)).
  rw -Z.add_mod_idemp_l; [lia|].
  replace ((time mod 2 ^ 32) * (2 ^ 40 * 2 ^ 24) + (process mod 2 ^ 40) * 2 ^ 24)
    with (((time mod 2 ^ 32) * 2 ^ 40 + process mod 2 ^ 40) * 2 ^ 24) by ring.
  rw Z.mod_mul; [lia|]. rw Z.add_0_l Z.mod_mod //.
Qed.

(** [n] successive draws of bson's counter from [index]. *)
Lemma iter_getInc index n :
  0 <= index < 16777215 -> Nat.iter n getInc index = (index + Z.of_nat n) mod 16777215.
Proof.
  intros Hi. induction n as [|n IH]; simpl Nat.iter.
  - rw Z.add_0_r Z.mod_small //.
  - rw IH /getInc Z.add_mod_idemp_l //. f_equal. lia.
Qed.

(** The timestamp of a generated ObjectId is the second it was drawn in,
    modulo 2^32: [getTimestamp] reads back what [generate] wrote. *)
Lemma getTimestamp_generate time process inc :
  getTimestamp (generate time process inc) = time mod 2 ^ 32.
Proof.
  rw /getTimestamp Z.shiftr_div_pow2 // generate_spec.
  pose proof (Z.mod_pos_bound process (2 ^ 40) ltac:(lia)).
  pose proof (Z.mod_pos_bound inc (2 ^ 24) ltac:(lia)).
  rw -Z.add_assoc Z.div_add_l; [lia|]. rw Z.div_small; [|lia].
  change (2 ^ 64) with (2 ^ 40 * 2 ^ 24). nia.
Qed.

(** Within one second, one process draws pairwise distinct ObjectIds as
    long as it draws fewer than 0xffffff of them: the [k1]-th and [k2]-th
    successive counter values give different identifiers. *)
Lemma generate_distinct time process index (k1 k2 : nat) :
  0 <= index < 16777215 -> (k1 < k2)%nat -> Z.of_nat k2 < 16777215 ->
  generate time process (Nat.iter k1 getInc index) <>
  generate time process (Nat.iter k2 getInc index).
Proof.
  intros Hi Hk Hk2 Heq. apply (f_equal (fun v => v mod 2 ^ 24)) in Heq.
  rw !generate_low !iter_getInc // in Heq.
  rw !(Z.mod_small ((index + _) mod 16777215)) in Heq;
    try (pose proof (Z.mod_pos_bound (index + Z.of_nat k1) 16777215 ltac:(lia));
         pose proof (Z.mod_pos_bound (index + Z.of_nat k2) 16777215 ltac:(lia)); lia).
  revert Heq. Z.div_mod_to_equations. lia.
Qed.

Lemma of_string_isValid s v : of_string s = Some v -> isValid s = true.
Proof. rw /of_string. by destruct (isValid s). Qed.

(** ** Both cases of a digit are accepted *)

Lemma hex_val_upper c : hex_val (ascii_upper c) = hex_val c.
Proof.
  rw /ascii_upper. destruct (Z.leb_spec 97 c), (Z.leb_spec c 122); cbn; try reflexivity.
  rw /hex_val. zleb_simpl. cbn.
  destruct (Z.leb_spec c 102), (Z.leb_spec (c - 32) 70); cbn; first [f_equal; lia | reflexivity | lia].
Qed.

Lemma isValid_upper s : isValid (map ascii_upper s) = isValid s.
Proof.
  rw /isValid length_map. f_equal. induction s as [|c s IH]; [done|].
  by rw /= IH /is_hex hex_val_upper.
Qed.

Lemma parse_hex_upper acc s : parse_hex acc (map ascii_upper s) = parse_hex acc s.
Proof. revert acc. induction s as [|c s IH]; intros acc; [done|]. rw /= hex_val_upper. by case_match. Qed.

Lemma of_string_upper s : of_string (map ascii_upper s) = of_string s.
Proof. by rw /of_string isValid_upper parse_hex_upper. Qed.

#[export] Hint Resolve isValid_toHexString of_string_isValid : notes.
#[export] Hint Rewrite isValid_toHexString : js_run.

End ObjectId.
