(* ===== verification/NoteModel.v ===== *)
(** * The Note model: [src/models/Note.ts]

    [INote] is the stored document, with the fields Mongoose adds: the
    [_id] of the collection, the [createdAt] and [updatedAt] of
    [timestamps: true] (milliseconds of [Date.now()]), and the version key
    [__v].  [NoteSchema] declares two String paths; each is a
    [SchemaPath] record of its options: the message of [required], the
    bound and message of [maxlength], and [trim].  Mongoose applies the
    [trim] setter when it casts a value ([cast]) and runs the validators of
    a path in their declaration order, [required] before [maxlength]
    ([validate_path]); a document is valid when both paths are. *)

From S2P Require Import Prelude JsString.
Import JsString.

Module NoteModel.

(** [interface INote], as stored and returned by Mongoose. *)
Record INote := mkNote {
  _id : Z;
  title : list Z;
  content : list Z;
  createdAt : Z;
  updatedAt : Z;
  __v : Z
}.

(** Documents are compared field by field ([decide (n = m)]). *)
#[export] Instance INote_eq_dec : EqDecision INote.
Proof. solve_decision. Defined.

(** The options of one String path of [NoteSchema]. *)
Record SchemaPath := mkPath {
  required : string;
  maxlength : option (Z * string);
  trim_opt : bool
}.

Definition title_path : SchemaPath :=
  mkPath "Note title is required" (Some (100, "Title cannot exceed 100 characters")) true.

Definition content_path : SchemaPath :=
  mkPath "Note content is required" None true.

(** Casting a string to the path: the [trim] setter. *)
Definition cast (p : SchemaPath) (s : list Z) : list Z :=
  if trim_opt p then trim s else s.

(** The first failing validator of the path: Mongoose's [required] check
    of a String fails on the empty string, [maxlength] compares
    [s.length]. *)
Definition validate_path (p : SchemaPath) (s : list Z) : option string :=
  if is_empty s then Some (required p)
  else match maxlength p with
       | Some (n, msg) => if n <? length s then Some msg else None
       | None => None
       end.

(** [doc.validate()] on the two paths; the error reported is the one of
    the first invalid path. *)
Definition validate (title content : list Z) : option string :=
  match validate_path title_path title with
  | Some msg => Some msg
  | None => validate_path content_path content
  end.

(** What the schema guarantees of a stored note: both fields are what the
    setter left (trimmed) and pass the validators. *)
Definition schema_ok (n : INote) : Prop :=
  cast title_path (title n) = title n /\
  cast content_path (content n) = content n /\
  validate (title n) (content n) = None.

(** ** Lemmas *)

(** C19: the schema accepts a title and a content exactly when both are
    non-empty and the title has at most 100 code units. *)
Theorem validate_None t c :
  validate t c = None <-> t <> [] /\ length t <= 100 /\ c <> [].
Proof.
  rw /validate /validate_path /=.
  destruct t as [|x t]; [split; [done|by intros []]|].
  destruct (Z.ltb_spec 100 (length (x :: t))).
  - split; [done|intros (_ & ? & _); lia].
  - destruct c; split; (done || intros (_ & _ & []); done).
Qed.

Lemma cast_idempotent p s : cast p (cast p s) = cast p s.
Proof. rw /cast. destruct (trim_opt p); [apply trim_idempotent|done]. Qed.

(** A string the handler has already trimmed is left alone by the
    schema's [trim] setter. *)
Lemma cast_trimmed p s : cast p (trim s) = trim s.
Proof. rw /cast. destruct (trim_opt p); [apply trim_idempotent|done]. Qed.

Lemma schema_ok_intro n t c :
  title n = cast title_path t -> content n = cast content_path c ->
  validate (title n) (content n) = None -> schema_ok n.
Proof. intros Ht Hc Hv. rw /schema_ok Ht Hc !cast_idempotent -Ht -Hc. done. Qed.

#[export] Hint Rewrite cast_trimmed cast_idempotent : js_run.
#[export] Hint Resolve schema_ok_intro : notes.

End NoteModel.
