(* ===== verification/Store.v ===== *)
(** * The document store behind the [Note] model

    The handlers reach MongoDB through [dbConnect] (the connection helper
    of [lib/mongodb], which is not among the sources: it is modelled from
    the description of a lazily opened connection kept for the life of the
    process) and through five calls of the Mongoose model: [Note.create],
    [Note.findById], [Note.findByIdAndUpdate] (with [new: true] and
    [runValidators: true]), [Note.findByIdAndDelete] and
    [Note.find({}).sort({ createdAt: -1 })].

    [Server] is the state those calls read and write: the notes collection
    as a map from ObjectId to document, the clock [Date.now()] that
    stamps documents and ObjectIds, the counter and the per-process random
    bytes of bson's ObjectId generator, whether MongoDB is reachable, and
    whether the connection is cached.  Every call throws
    [MongoNetworkError] when the database is unreachable. *)

From S2P Require Import Prelude JsString ObjectId NoteModel.
From Stdlib Require Import Sorted.
Import JsString NoteModel.

Module Store.

Record Server := mkServer {
  docs : gmap Z INote;
  clock : Z;
  oid_index : Z;
  process_unique : Z;
  db_up : bool;
  connected : bool
}.

Definition set_docs (d : gmap Z INote) (s : Server) : Server :=
  mkServer d (clock s) (oid_index s) (process_unique s) (db_up s) (connected s).
Definition set_clock (t : Z) (s : Server) : Server :=
  mkServer (docs s) t (oid_index s) (process_unique s) (db_up s) (connected s).
Definition set_oid_index (i : Z) (s : Server) : Server :=
  mkServer (docs s) (clock s) i (process_unique s) (db_up s) (connected s).
Definition set_db_up (b : bool) (s : Server) : Server :=
  mkServer (docs s) (clock s) (oid_index s) (process_unique s) b (connected s).
Definition set_connected (b : bool) (s : Server) : Server :=
  mkServer (docs s) (clock s) (oid_index s) (process_unique s) (db_up s) b.

(** [await dbConnect()]: the cached connection if there is one, else a new
    connection, which fails when MongoDB cannot be reached. *)
Definition dbConnect : M Server unit := fun s =>
  if connected s then (Ok tt, s)
  else if db_up s then (Ok tt, set_connected true s)
  else (Throw MongoNetworkError, s).

(** A round trip to the server. *)
Definition server_guard : M Server unit := fun s =>
  if db_up s then (Ok tt, s) else (Throw MongoNetworkError, s).

(** [new ObjectId()]: advances bson's counter. *)
Definition new_ObjectId : M Server Z := fun s =>
  let inc := ObjectId.getInc (oid_index s) in
  (Ok (ObjectId.generate (clock s / 1000) (process_unique s) inc),
   set_oid_index inc s).

(** The [_id] that the next [new ObjectId()] draws. *)
Definition next_oid (s : Server) : Z :=
  ObjectId.generate (clock s / 1000) (process_unique s) (ObjectId.getInc (oid_index s)).

(** Mongoose casts an [_id] given as a string with [new ObjectId(id)]. *)
Definition cast_id (id : list Z) : M Server Z :=
  match ObjectId.of_string id with
  | Some v => ret v
  | None => throw CastError
  end.

(** [Note.create({ title, content })]: the document is built (its [_id]
    drawn), cast through the setters, validated, stamped with
    [createdAt = updatedAt = Date.now()] and inserted; an [_id] already in
    the collection is a duplicate key error (E11000).  One clock value
    serves both the seconds of the [_id] (drawn when the document is
    built) and the timestamps (stamped in the pre-save hook), where
    Mongoose reads [Date.now()] twice; no theorem relates the two. *)
Definition create (t c : list Z) : M Server INote :=
  id <- new_ObjectId ;;
  let t' := cast title_path t in
  let c' := cast content_path c in
  match validate t' c' with
  | Some msg => throw (ValidationError msg)
  | None =>
      server_guard ;;;
      s <- get ;;
      match docs s !! id with
      | Some _ => throw (MongoServerError 11000)
      | None =>
          let n := mkNote id t' c' (clock s) (clock s) 0 in
          put (set_docs (<[id := n]> (docs s)) s) ;;;
          ret n
      end
  end.

(** [Note.findById(id)] *)
Definition findById (id : list Z) : M Server (option INote) :=
  oid <- cast_id id ;;
  server_guard ;;;
  s <- get ;;
  ret (docs s !! oid).

(** The document after the update [{ title, content }] with the
    [updatedAt] of [timestamps]; [createdAt], [_id] and [__v] are kept. *)
Definition apply_update (n : INote) (t c : list Z) (now : Z) : INote :=
  mkNote (_id n) t c (createdAt n) now (__v n).

(** [Note.findByIdAndUpdate(id, { title, content }, { new: true,
    runValidators: true })]: the update is cast and validated before the
    query is sent; the query returns the updated document, or [null] when
    no document has this [_id]. *)
Definition findByIdAndUpdate (id : list Z) (t c : list Z) : M Server (option INote) :=
  oid <- cast_id id ;;
  let t' := cast title_path t in
  let c' := cast content_path c in
  match validate t' c' with
  | Some msg => throw (ValidationError msg)
  | None =>
      server_guard ;;;
      s <- get ;;
      match docs s !! oid with
      | None => ret None
      | Some n =>
          let n' := apply_update n t' c' (clock s) in
          put (set_docs (<[oid := n']> (docs s)) s) ;;;
          ret (Some n')
      end
  end.

(** [Note.findByIdAndDelete(id)]: the deleted document, or [null]. *)
Definition findByIdAndDelete (id : list Z) : M Server (option INote) :=
  oid <- cast_id id ;;
  server_guard ;;;
  s <- get ;;
  match docs s !! oid with
  | None => ret None
  | Some n => put (set_docs (delete oid (docs s)) s) ;;; ret (Some n)
  end.

(** [sort({ createdAt: -1 })]: MongoDB leaves the order of equal keys
    unspecified; [sort_desc] is the insertion sort that keeps them in the
    order of the collection scan.  The theorems on listing only use that
    the result is sorted and a permutation of the collection. *)
Fixpoint insert_desc (n : INote) (l : list INote) : list INote :=
  match l with
  | [] => [n]
  | m :: l' => if createdAt m <=? createdAt n then n :: l else m :: insert_desc n l'
  end.

Definition sort_desc (l : list INote) : list INote := foldr insert_desc [] l.

(** [Note.find({}).sort({ createdAt: -1 })] *)
Definition find_sorted : M Server (list INote) :=
  server_guard ;;;
  s <- get ;;
  ret (sort_desc (map snd (map_to_list (docs s)))).

(** ** Lemmas on the listing order *)

Definition newer_first (a b : INote) : Prop := createdAt b <= createdAt a.

Lemma insert_desc_perm n l : insert_desc n l ≡ₚ n :: l.
Proof.
  induction l as [|m l IH]; [done|]. simpl.
  destruct (createdAt m <=? createdAt n); [done|].
  rw IH. apply Permutation_swap.
Qed.

Lemma sort_desc_perm l : sort_desc l ≡ₚ l.
Proof.
  induction l as [|n l IH]; [done|]. simpl. by rw insert_desc_perm IH.
Qed.

Lemma insert_desc_sorted n l :
  Sorted newer_first l -> Sorted newer_first (insert_desc n l).
Proof.
  induction 1 as [|m l Hl IH Hhd]; [by repeat constructor|]. simpl.
  destruct (Z.leb_spec (createdAt m) (createdAt n)).
  - constructor; [by constructor|]. constructor. rw /newer_first. lia.
  - constructor; [done|]. destruct l as [|m' l]; simpl.
    + constructor. rw /newer_first. lia.
    + inv Hhd. unfold newer_first in *.
      destruct (createdAt m' <=? createdAt n); constructor; unfold newer_first; lia.
Qed.

Lemma sort_desc_sorted l : Sorted newer_first (sort_desc l).
Proof. induction l as [|n l IH]; [constructor|]. by apply insert_desc_sorted. Qed.

(** ** Lemmas on the state *)

Lemma set_connected_same s : connected s = true -> set_connected true s = s.
Proof. destruct s; simpl. by intros ->. Qed.

(** A successful [dbConnect] leaves the connection cached. *)
Lemma dbConnect_ok s :
  (connected s || db_up s)%bool = true -> dbConnect s = (Ok tt, set_connected true s).
Proof.
  rw /dbConnect. destruct (connected s) eqn:Hc; simpl.
  - by rw set_connected_same.
  - by intros ->.
Qed.

Lemma dbConnect_fail s :
  (connected s || db_up s)%bool = false -> dbConnect s = (Throw MongoNetworkError, s).
Proof. rw /dbConnect. by destruct (connected s), (db_up s). Qed.

Lemma dbConnect_then {A} s (k : M Server A) :
  (connected s || db_up s)%bool = true -> (dbConnect ;;; k) s = k (set_connected true s).
Proof. intros H. by rw /bind dbConnect_ok. Qed.

Lemma dbConnect_fails {A} s (k : M Server A) :
  (connected s || db_up s)%bool = false -> (dbConnect ;;; k) s = (Throw MongoNetworkError, s).
Proof. intros H. by rw /bind dbConnect_fail. Qed.

Lemma dbConnect_docs s r s' : dbConnect s = (r, s') -> docs s' = docs s /\ clock s' = clock s.
Proof. rw /dbConnect. repeat case_match; by intros [= _ <-]. Qed.

Lemma new_ObjectId_run s :
  new_ObjectId s = (Ok (next_oid s), set_oid_index (ObjectId.getInc (oid_index s)) s).
Proof. reflexivity. Qed.

(** ** Each model call on each of its branches *)

Lemma server_guard_up s : db_up s = true -> server_guard s = (Ok tt, s).
Proof. rw /server_guard. by intros ->. Qed.

Lemma server_guard_down s : db_up s = false -> server_guard s = (Throw MongoNetworkError, s).
Proof. rw /server_guard. by intros ->. Qed.

Lemma cast_id_valid id s oid : ObjectId.of_string id = Some oid -> cast_id id s = (Ok oid, s).
Proof. rw /cast_id. by intros ->. Qed.

Lemma create_ok s t c :
  validate (cast title_path t) (cast content_path c) = None ->
  db_up s = true -> docs s !! next_oid s = None ->
  let n := mkNote (next_oid s) (cast title_path t) (cast content_path c) (clock s) (clock s) 0 in
  create t c s =
  (Ok n, set_docs (<[next_oid s := n]> (docs s)) (set_oid_index (ObjectId.getInc (oid_index s)) s)).
Proof.
  intros Hv Hup Hfresh n. rw /next_oid in Hfresh. rw /create. run_m.
  rw Hv server_guard_up //=. by rw Hfresh.
Qed.

Lemma create_invalid s t c msg :
  validate (cast title_path t) (cast content_path c) = Some msg ->
  create t c s = (Throw (ValidationError msg), set_oid_index (ObjectId.getInc (oid_index s)) s).
Proof. intros Hv. rw /create. run_m. by rw Hv. Qed.

Lemma findById_run s id oid :
  ObjectId.of_string id = Some oid -> db_up s = true ->
  findById id s = (Ok (docs s !! oid), s).
Proof. intros Hid Hup. rw /findById. run_m. rw /cast_id Hid /= server_guard_up //. Qed.

Lemma findByIdAndUpdate_invalid s id oid t c msg :
  ObjectId.of_string id = Some oid ->
  validate (cast title_path t) (cast content_path c) = Some msg ->
  findByIdAndUpdate id t c s = (Throw (ValidationError msg), s).
Proof. intros Hid Hv. rw /findByIdAndUpdate. run_m. rw /cast_id Hid /=. by rw Hv. Qed.

Lemma findByIdAndUpdate_run s id oid t c :
  ObjectId.of_string id = Some oid ->
  validate (cast title_path t) (cast content_path c) = None -> db_up s = true ->
  findByIdAndUpdate id t c s =
  match docs s !! oid with
  | None => (Ok None, s)
  | Some n =>
      let n' := apply_update n (cast title_path t) (cast content_path c) (clock s) in
      (Ok (Some n'), set_docs (<[oid := n']> (docs s)) s)
  end.
Proof.
  intros Hid Hv Hup. rw /findByIdAndUpdate. run_m.
  rw /cast_id Hid /=. rw Hv /= server_guard_up //=. by destruct (docs s !! oid).
Qed.

Lemma findByIdAndDelete_run s id oid :
  ObjectId.of_string id = Some oid -> db_up s = true ->
  findByIdAndDelete id s =
  match docs s !! oid with
  | None => (Ok None, s)
  | Some n => (Ok (Some n), set_docs (delete oid (docs s)) s)
  end.
Proof.
  intros Hid Hup. rw /findByIdAndDelete. run_m.
  rw /cast_id Hid /= server_guard_up //=. by destruct (docs s !! oid).
Qed.

Lemma find_sorted_run s :
  db_up s = true -> find_sorted s = (Ok (sort_desc (map snd (map_to_list (docs s)))), s).
Proof. intros Hup. rw /find_sorted. run_m. by rw server_guard_up. Qed.

(** ** The outcome of each model call, over all its branches

    What a call does to the collection and the clock, whatever happens:
    on an exception neither changes. *)

Lemma create_outcome s t c :
  match create t c s with
  | (Ok n, s') =>
      db_up s = true /\ docs s !! next_oid s = None /\
      validate (cast title_path t) (cast content_path c) = None /\
      n = mkNote (next_oid s) (cast title_path t) (cast content_path c) (clock s) (clock s) 0 /\
      docs s' = <[next_oid s := n]> (docs s) /\ clock s' = clock s
  | (Throw _, s') => docs s' = docs s /\ clock s' = clock s
  end.
Proof.
  rw /create /next_oid. run_m.
  destruct (validate (trim t) (trim c)) eqn:Hv; cbn; [split; reflexivity|].
  rw /server_guard. cbn. destruct (db_up s) eqn:Hup; cbn; [|split; reflexivity].
  destruct (docs s !! ObjectId.generate (clock s / 1000) (process_unique s)
              (ObjectId.getInc (oid_index s))) eqn:E; cbn; [split; reflexivity|].
  by split_and!.
Qed.

Lemma findByIdAndUpdate_outcome s id t c :
  match findByIdAndUpdate id t c s with
  | (Ok None, s') => docs s' = docs s /\ clock s' = clock s
  | (Ok (Some n'), s') =>
      exists oid n, db_up s = true /\ ObjectId.of_string id = Some oid /\ docs s !! oid = Some n /\
        n' = apply_update n (cast title_path t) (cast content_path c) (clock s) /\
        docs s' = <[oid := n']> (docs s) /\ clock s' = clock s
  | (Throw _, s') => docs s' = docs s /\ clock s' = clock s
  end.
Proof.
  rw /findByIdAndUpdate /cast_id. run_m.
  destruct (ObjectId.of_string id) as [oid|] eqn:Hid; cbn; [|split; reflexivity].
  destruct (validate (trim t) (trim c)); cbn; [split; reflexivity|].
  rw /server_guard. cbn. destruct (db_up s) eqn:Hup; cbn; [|split; reflexivity].
  destruct (docs s !! oid) eqn:Hn; cbn; [|split; reflexivity]. eauto 10.
Qed.

Lemma findByIdAndDelete_outcome s id :
  match findByIdAndDelete id s with
  | (Ok None, s') => docs s' = docs s /\ clock s' = clock s
  | (Ok (Some n), s') =>
      exists oid, db_up s = true /\ ObjectId.of_string id = Some oid /\ docs s !! oid = Some n /\
        docs s' = delete oid (docs s) /\ clock s' = clock s
  | (Throw _, s') => docs s' = docs s /\ clock s' = clock s
  end.
Proof.
  rw /findByIdAndDelete /cast_id. run_m.
  destruct (ObjectId.of_string id) as [oid|] eqn:Hid; cbn; [|split; reflexivity].
  rw /server_guard. cbn. destruct (db_up s) eqn:Hup; cbn; [|split; reflexivity].
  destruct (docs s !! oid) eqn:Hn; cbn; [|split; reflexivity]. eauto 10.
Qed.

Lemma find_sorted_outcome s :
  match find_sorted s with
  | (Ok ns, s') => ns = sort_desc (map snd (map_to_list (docs s))) /\ s' = s
  | (Throw _, s') => s' = s
  end.
Proof. rw /find_sorted /server_guard. run_m. by destruct (db_up s). Qed.

(** ** The invariant of the collection

    Every stored note sits under its own [_id], was updated no earlier
    than it was created and no later than the present, and satisfies the
    schema.  The clock is read from the state, so [store_inv] relates the
    timestamps to the time the state has reached. *)
Definition note_wf (now oid : Z) (n : INote) : Prop :=
  _id n = oid /\ 0 <= oid < 2 ^ 96 /\
  createdAt n <= updatedAt n /\ updatedAt n <= now /\ schema_ok n.

Definition store_inv (s : Server) : Prop := map_Forall (note_wf (clock s)) (docs s).

Lemma store_inv_same s s' :
  docs s' = docs s -> clock s' = clock s -> store_inv s -> store_inv s'.
Proof. rw /store_inv. by intros -> ->. Qed.

Lemma store_inv_set_connected b s : store_inv s -> store_inv (set_connected b s).
Proof. by apply store_inv_same. Qed.

Lemma store_inv_set_oid_index i s : store_inv s -> store_inv (set_oid_index i s).
Proof. by apply store_inv_same. Qed.

Lemma store_inv_set_db_up b s : store_inv s -> store_inv (set_db_up b s).
Proof. by apply store_inv_same. Qed.

(** The clock only moves forward. *)
Lemma store_inv_tick s d : 0 <= d -> store_inv s -> store_inv (set_clock (clock s + d) s).
Proof.
  intros Hd Hs. apply (map_Forall_impl _ _ _ Hs).
  intros oid n (? & ? & ? & ? & ?). rw /note_wf /=. split_and!; auto; lia.
Qed.

#[export] Hint Resolve store_inv_set_connected store_inv_set_oid_index store_inv_set_db_up : notes.

Lemma dbConnect_inv : preserves store_inv dbConnect.
Proof. intros s r s' Hs. rw /dbConnect. repeat case_match; intros [= _ <-]; auto with notes. Qed.

Lemma server_guard_inv : preserves store_inv server_guard.
Proof. intros s r s' Hs. rw /server_guard. case_match; by intros [= _ <-]. Qed.

Lemma new_ObjectId_inv : preserves store_inv new_ObjectId.
Proof. intros s r s' Hs [= _ <-]. auto with notes. Qed.

Lemma cast_id_inv id : preserves store_inv (cast_id id).
Proof. rw /cast_id. case_match; auto with preserves. Qed.

#[export] Hint Resolve dbConnect_inv server_guard_inv new_ObjectId_inv cast_id_inv : preserves.

Lemma next_oid_bound s : 0 <= next_oid s < 2 ^ 96.
Proof. unfold next_oid. apply ObjectId.generate_bound. Qed.

Lemma create_inv t c : preserves store_inv (create t c).
Proof.
  intros s r s' Hs Hrun. pose proof (create_outcome s t c) as Ho. rw Hrun in Ho.
  destruct r as [n|e].
  - destruct Ho as (_ & Hf & Hv & -> & Hd & Hc). rw /store_inv Hd Hc.
    apply map_Forall_insert_2; [|done].
    rw /note_wf /=. split_and!; try done; [apply next_oid_bound..|by eapply schema_ok_intro].
  - destruct Ho as (Hd & Hc). by apply (store_inv_same s).
Qed.

Lemma findById_inv id : preserves store_inv (findById id).
Proof. rw /findById. preserves_tac. Qed.

Lemma findByIdAndUpdate_inv id t c : preserves store_inv (findByIdAndUpdate id t c).
Proof.
  rw /findByIdAndUpdate. preserves_tac.
  match goal with H : store_inv ?s0, E : docs ?s0 !! _ = Some _ |- _ =>
    pose proof (map_Forall_lookup_1 _ _ _ _ H E) as (Hid & Hb & Hcu & Huc & _) end.
  apply map_Forall_insert_2; [|done].
  rw /note_wf /=. split_and!; try done; try lia. by eapply schema_ok_intro.
Qed.

Lemma findByIdAndDelete_inv id : preserves store_inv (findByIdAndDelete id).
Proof. rw /findByIdAndDelete. preserves_tac. by apply map_Forall_delete. Qed.

Lemma find_sorted_inv : preserves store_inv find_sorted.
Proof. rw /find_sorted. preserves_tac. Qed.

#[export] Hint Resolve create_inv findById_inv findByIdAndUpdate_inv findByIdAndDelete_inv
  find_sorted_inv : preserves.

End Store.
