(* ===== verification/Api.v ===== *)
(** * The REST handlers: [src/app/api/notes/route.ts] and
      [src/app/api/notes/[id]/route.ts]

    Each exported handler becomes a function from the server state to the
    response and the next state.  Its body is the [try] block, written in
    the state and exception monad of the prelude, statement by statement;
    [catch_500] is its [catch] block, which turns any exception into the
    500 response with the handler's fixed message.  [Collection] holds the
    [GET] and [POST] of [/api/notes], [Member] the [GET], [PUT] and
    [DELETE] of [/api/notes/[id]]; the [id] is the path parameter as a
    string, the request body the result of parsing it as JSON ([None] when
    it is not JSON). *)

From S2P Require Import Prelude JsString Json ObjectId NoteModel Store.
From Stdlib Require Import Sorted.
Import JsString Json NoteModel Store.

Module Api.

(** The [data] of an envelope: one note or the list of notes. *)
Inductive Payload : Type :=
| PNote (n : INote)
| PNotes (ns : list INote).

(** [{ success, data?, error?, message? }] *)
Record Envelope := mkEnvelope {
  success : bool;
  data : option Payload;
  error : option string;
  message : option string
}.

Record Response := mkResponse {
  status : Z;
  body : Envelope
}.

(** [NextResponse.json({ success: true, data }, { status })] *)
Definition json_data (st : Z) (p : Payload) : Response :=
  mkResponse st (mkEnvelope true (Some p) None None).

(** [NextResponse.json({ success: false, error }, { status })] *)
Definition json_error (st : Z) (msg : string) : Response :=
  mkResponse st (mkEnvelope false None (Some msg) None).

(** [NextResponse.json({ success: true, message })] *)
Definition json_message (msg : string) : Response :=
  mkResponse 200 (mkEnvelope true None None (Some msg)).

(** [response.ok] of the [Response] [fetch] hands to the page: a status
    from 200 to 299. *)
Definition ok (r : Response) : bool := (200 <=? status r) && (status r <=? 299).

(** The shape of the envelopes the handlers send: a success carries no
    [error], a 200 or 201 status and a [data] or a [message]; a failure
    carries only an [error] and a 400, 404 or 500 status. *)
Definition well_typed (r : Response) : bool :=
  let e := body r in
  if success e then
    bool_decide (error e = None) && bool_decide (status r = 200 \/ status r = 201) &&
    bool_decide (is_Some (data e) \/ is_Some (message e))
  else
    bool_decide (data e = None) && bool_decide (message e = None) &&
    bool_decide (is_Some (error e)) && bool_decide (status r ∈ [400; 404; 500]).

(** [try { ... } catch (error) { console.error(...); return
    NextResponse.json({ success: false, error: msg }, { status: 500 }); }] *)
Definition catch_500 (msg : string) (m : M Server Response) (s : Server) : Response * Server :=
  match m s with
  | (Ok r, s') => (r, s')
  | (Throw _, s') => (json_error 500 msg, s')
  end.

Module Collection.

(** [GET /api/notes] *)
Definition GET : Server -> Response * Server :=
  catch_500 "Failed to fetch notes" (
    dbConnect ;;;
    notes <- find_sorted ;;
    ret (json_data 200 (PNotes notes))).

(** [POST /api/notes] *)
Definition POST (request : option jsval) : Server -> Response * Server :=
  catch_500 "Failed to create note" (
    dbConnect ;;;
    body <- request_json request ;;
    fields <- destructure body ;;
    let '(title, content) := fields in
    if (negb (truthy title) || negb (truthy content))%bool then
      ret (json_error 400 "Title and content are required")
    else
      trimmedTitle <- call_trim title ;;
      trimmedContent <- call_trim content ;;
      if (is_empty trimmedTitle || is_empty trimmedContent)%bool then
        ret (json_error 400 "Title and content cannot be empty")
      else
        note <- create trimmedTitle trimmedContent ;;
        ret (json_data 201 (PNote note))).

End Collection.

Module Member.

(** [GET /api/notes/[id]] *)
Definition GET (id : list Z) : Server -> Response * Server :=
  catch_500 "Failed to fetch note" (
    dbConnect ;;;
    if negb (ObjectId.isValid id) then
      ret (json_error 400 "Invalid note ID format")
    else
      note <- findById id ;;
      match note with
      | None => ret (json_error 404 "Note not found")
      | Some n => ret (json_data 200 (PNote n))
      end).

(** [PUT /api/notes/[id]] *)
Definition PUT (id : list Z) (request : option jsval) : Server -> Response * Server :=
  catch_500 "Failed to update note" (
    dbConnect ;;;
    if negb (ObjectId.isValid id) then
      ret (json_error 400 "Invalid note ID format")
    else
      body <- request_json request ;;
      fields <- destructure body ;;
      let '(title, content) := fields in
      if (negb (truthy title) || negb (truthy content))%bool then
        ret (json_error 400 "Title and content are required")
      else
        trimmedTitle <- call_trim title ;;
        trimmedContent <- call_trim content ;;
        if (is_empty trimmedTitle || is_empty trimmedContent)%bool then
          ret (json_error 400 "Title and content cannot be empty")
        else
          updatedNote <- findByIdAndUpdate id trimmedTitle trimmedContent ;;
          match updatedNote with
          | None => ret (json_error 404 "Note not found")
          | Some n => ret (json_data 200 (PNote n))
          end).

(** [DELETE /api/notes/[id]] *)
Definition DELETE (id : list Z) : Server -> Response * Server :=
  catch_500 "Failed to delete note" (
    dbConnect ;;;
    if negb (ObjectId.isValid id) then
      ret (json_error 400 "Invalid note ID format")
    else
      deletedNote <- findByIdAndDelete id ;;
      match deletedNote with
      | None => ret (json_error 404 "Note not found")
      | Some _ => ret (json_message "Note deleted successfully")
      end).

End Member.

(** ** Concrete inputs, used by the witnesses of the theorems below *)

Definition demo_server : Server := mkServer ∅ 1700000000000 5 12345 true false.

Definition demo_fields (t c : list Z) : list (list Z * jsval) :=
  [(of_ascii "title", JStr t); (of_ascii "content", JStr c)].

Definition demo_oid : Z := next_oid demo_server.

Definition demo_note : INote :=
  mkNote demo_oid (of_ascii "Shopping") (of_ascii "Milk, eggs") 1700000000000 1700000000000 0.

Definition demo_stored : Server := set_docs {[demo_oid := demo_note]} demo_server.

Definition demo_id : list Z := ObjectId.toHexString demo_oid.

(** A title of 101 code units. *)
Definition long_title : list Z := repeat 97 101.

(** ** Running a handler

    [api_run] unfolds the monad and the JavaScript helpers of a handler
    body and reduces it, leaving the model calls and the field lookups of
    the body for the lemmas of [Store] and the hypotheses. *)
Ltac api_run :=
  unfold bind, ret, throw, get, put, modify, request_json, destructure, get_prop, call_trim;
  cbn -[own_prop of_ascii trim is_empty create findById findByIdAndUpdate
        findByIdAndDelete find_sorted ObjectId.isValid ObjectId.of_string validate cast].

(** Discharge a hypothesis on concrete inputs by computation. *)
Ltac concrete := vm_compute; first [reflexivity | intros ?; discriminate | discriminate].

(** Rewrite the lookups of [title] and [content] and the emptiness tests
    they decide. *)
Ltac body_fields Ht Hc :=
  rw ?Ht ?Hc; cbn -[own_prop of_ascii trim is_empty create findById findByIdAndUpdate
        findByIdAndDelete find_sorted ObjectId.isValid ObjectId.of_string validate cast].

Lemma validate_trimmed_None t c :
  trim t <> [] -> trim c <> [] -> length (trim t) <= 100 ->
  validate (cast title_path (trim t)) (cast content_path (trim c)) = None.
Proof. intros. rw !cast_trimmed. by apply validate_None. Qed.

Lemma validate_trimmed_long t c :
  length (trim t) > 100 ->
  validate (cast title_path (trim t)) (cast content_path (trim c)) =
  Some "Title cannot exceed 100 characters".
Proof.
  intros Hl. rw !cast_trimmed /validate /validate_path /=.
  destruct (trim t) as [|x r] eqn:E; [done|]. cbn -[length].
  destruct (Z.ltb_spec 100 (length (x :: r))); [done|lia].
Qed.

(** Every handler starts with [await dbConnect()]: either the connection
    is (or becomes) available and the rest of the body runs, or the
    handler answers 500 with the state unchanged. *)
Lemma catch_500_connect msg k s :
  catch_500 msg (dbConnect ;;; k) s =
  if (connected s || db_up s)%bool then catch_500 msg k (set_connected true s)
  else (json_error 500 msg, s).
Proof.
  rw /catch_500. destruct (connected s || db_up s)%bool eqn:H.
  - by rw dbConnect_then.
  - by rw dbConnect_fails.
Qed.

Lemma connect_up s : db_up s = true -> (connected s || db_up s)%bool = true.
Proof. intros ->. apply orb_true_r. Qed.

#[export] Hint Resolve connect_up : notes.

(** A well-typed envelope has a 2xx status exactly when it reports
    success. *)
Lemma well_typed_ok r : well_typed r = true -> ok r = success (body r).
Proof.
  rw /well_typed /ok. destruct (success (body r)).
  - rw !andb_true_iff !bool_decide_eq_true. intros [[_ [-> | ->]] _]; done.
  - rw !andb_true_iff !bool_decide_eq_true. intros [_ Hs].
    repeat (apply elem_of_cons in Hs as [-> | Hs]; [done|]). by apply elem_of_nil in Hs.
Qed.

(** Whatever the body of a handler returns is well typed, and so is the
    500 of its [catch] block. *)
Lemma catch_500_well_typed msg m s :
  returns (fun r => well_typed r = true) m -> well_typed (fst (catch_500 msg m s)) = true.
Proof.
  intros Hm. rw /catch_500. destruct (m s) as [[r|e] s'] eqn:E; [by eapply Hm|done].
Qed.

(** ** [POST /api/notes] *)

Lemma POST_created_run s fs t c :
  db_up s = true ->
  own_prop (of_ascii "title") fs = Some (JStr t) ->
  own_prop (of_ascii "content") fs = Some (JStr c) ->
  trim t <> [] -> trim c <> [] -> length (trim t) <= 100 ->
  docs s !! next_oid s = None ->
  let n := mkNote (next_oid s) (trim t) (trim c) (clock s) (clock s) 0 in
  Collection.POST (Some (JObj fs)) s =
  (json_data 201 (PNote n),
   set_docs (<[next_oid s := n]> (docs s))
     (set_oid_index (ObjectId.getInc (oid_index s)) (set_connected true s))).
Proof.
  intros Hup Ht Hc Htn Hcn Hlen Hfresh n.
  rw /Collection.POST catch_500_connect connect_up // /catch_500.
  api_run. body_fields Ht Hc. autorewrite with js_run. cbn -[create].
  rw create_ok //=; [by apply validate_trimmed_None|]. by rw !cast_trimmed.
Qed.

(** C9: [POST] with string fields of which one is empty or only white space answers 400 and stores nothing. *)
Theorem POST_blank_rejected s fs t c :
  (connected s || db_up s)%bool = true ->
  own_prop (of_ascii "title") fs = Some (JStr t) ->
  own_prop (of_ascii "content") fs = Some (JStr c) ->
  trim t = [] \/ trim c = [] ->
  let r := Collection.POST (Some (JObj fs)) s in
  status (fst r) = 400 /\ snd r = set_connected true s.
Proof.
  intros Hconn Ht Hc Hblank r. rw /r /Collection.POST catch_500_connect Hconn /catch_500.
  api_run. body_fields Ht Hc.
  destruct (is_empty t), (is_empty c); cbn -[trim]; try done.
  by destruct Hblank as [-> | ->]; [|rw orb_true_r].
Qed.

(** C10: [POST] whose body lacks [title] or [content] answers 400 [Title and content are required] and stores nothing. *)
Theorem POST_missing_rejected s fs :
  (connected s || db_up s)%bool = true ->
  own_prop (of_ascii "title") fs = None \/ own_prop (of_ascii "content") fs = None ->
  Collection.POST (Some (JObj fs)) s =
  (json_error 400 "Title and content are required", set_connected true s).
Proof.
  intros Hconn Hmiss. rw /Collection.POST catch_500_connect Hconn /catch_500.
  api_run. destruct Hmiss as [H | H]; body_fields H H; [done|by rw orb_true_r].
Qed.

(** C12: [POST] whose trimmed title is longer than 100 code units is refused by the schema's [maxlength] validator, which the handler does not tell apart from other failures: it answers 500, not 400, stores nothing and has consumed an ObjectId counter value. *)
Theorem POST_long_title_500 s fs t c :
  db_up s = true ->
  own_prop (of_ascii "title") fs = Some (JStr t) ->
  own_prop (of_ascii "content") fs = Some (JStr c) ->
  trim t <> [] -> trim c <> [] -> length (trim t) > 100 ->
  Collection.POST (Some (JObj fs)) s =
  (json_error 500 "Failed to create note",
   set_oid_index (ObjectId.getInc (oid_index s)) (set_connected true s)).
Proof.
  intros Hup Ht Hc Htn Hcn Hlen.
  rw /Collection.POST catch_500_connect connect_up // /catch_500.
  api_run. body_fields Ht Hc. autorewrite with js_run. cbn -[create].
  by rw (create_invalid _ _ _ _ (validate_trimmed_long t c Hlen)).
Qed.

(** C14: [POST] whose title is a truthy value that is not a string (a number, [true], an array, an object) answers 500: [title.trim] is not a function and the [TypeError] is caught as a storage failure. *)
Theorem POST_non_string_title_500 s fs v c :
  (connected s || db_up s)%bool = true ->
  own_prop (of_ascii "title") fs = Some v -> truthy v = true -> (forall x, v <> JStr x) ->
  own_prop (of_ascii "content") fs = Some c -> truthy c = true ->
  Collection.POST (Some (JObj fs)) s = (json_error 500 "Failed to create note", set_connected true s).
Proof.
  intros Hconn Ht Hv Hns Hc Hcv. rw /Collection.POST catch_500_connect Hconn /catch_500.
  api_run. body_fields Ht Hc. rw Hv Hcv /=.
  destruct v; try done. by destruct (Hns s0).
Qed.

(** ** [/api/notes/[id]] *)

(** C7: an identifier that is not 24 hexadecimal digits is refused with 400 by [GET], [PUT] and [DELETE] before any query, when the database connection is available; when it is not, the earlier [dbConnect] fails and the answer is 500. *)
Theorem invalid_id_rejected s id request :
  ObjectId.isValid id = false ->
  let expect msg (r : Response * Server) :=
    r = if (connected s || db_up s)%bool
        then (json_error 400 "Invalid note ID format", set_connected true s)
        else (json_error 500 msg, s) in
  expect "Failed to fetch note" (Member.GET id s) /\
  expect "Failed to update note" (Member.PUT id request s) /\
  expect "Failed to delete note" (Member.DELETE id s).
Proof.
  intros Hid expect. rw /expect /Member.GET /Member.PUT /Member.DELETE !catch_500_connect.
  destruct (connected s || db_up s)%bool; [|done].
  rw /catch_500 Hid. done.
Qed.

Lemma id_checked (s : Server) id oid (k1 k2 : M Server Response) :
  ObjectId.of_string id = Some oid ->
  (if negb (ObjectId.isValid id) then k1 else k2) s = k2 s.
Proof. intros Hid. by rw (ObjectId.of_string_isValid _ _ Hid). Qed.

Lemma GET_by_id_run s id oid :
  ObjectId.of_string id = Some oid -> db_up s = true ->
  Member.GET id s =
  (match docs s !! oid with
   | Some n => json_data 200 (PNote n)
   | None => json_error 404 "Note not found"
   end, set_connected true s).
Proof.
  intros Hid Hup. rw /Member.GET catch_500_connect connect_up // /catch_500.
  rw (id_checked _ _ _ _ _ Hid) /bind (findById_run (set_connected true s) _ _ Hid Hup) /=. by destruct (docs s !! oid).
Qed.

(** C2: [PUT /api/notes/[id]] on a stored note with a valid body answers 200 with the note whose title and content are the trimmed inputs, whose [updatedAt] is the present and whose [_id], [createdAt] and [__v] are kept, and stores that note in place of the old one. *)
Theorem PUT_updated s id oid fs t c n :
  ObjectId.of_string id = Some oid -> db_up s = true -> docs s !! oid = Some n ->
  own_prop (of_ascii "title") fs = Some (JStr t) ->
  own_prop (of_ascii "content") fs = Some (JStr c) ->
  trim t <> [] -> trim c <> [] -> length (trim t) <= 100 ->
  let n' := mkNote (_id n) (trim t) (trim c) (createdAt n) (clock s) (__v n) in
  Member.PUT id (Some (JObj fs)) s =
  (json_data 200 (PNote n'), set_docs (<[oid := n']> (docs s)) (set_connected true s)).
Proof.
  intros Hid Hup Hn Ht Hc Htn Hcn Hlen n'.
  rw /Member.PUT catch_500_connect connect_up // /catch_500 (id_checked _ _ _ _ _ Hid).
  api_run. body_fields Ht Hc. autorewrite with js_run. cbn -[findByIdAndUpdate].
  rw (findByIdAndUpdate_run _ _ _ _ _ Hid) //=; [by apply validate_trimmed_None|].
  by rw Hn /= !cast_trimmed.
Qed.

(** C11: [PUT] with a valid body on a well-formed identifier that no note has answers 404 and changes no note. *)
Theorem PUT_not_found s id oid fs t c :
  ObjectId.of_string id = Some oid -> db_up s = true -> docs s !! oid = None ->
  own_prop (of_ascii "title") fs = Some (JStr t) ->
  own_prop (of_ascii "content") fs = Some (JStr c) ->
  trim t <> [] -> trim c <> [] -> length (trim t) <= 100 ->
  Member.PUT id (Some (JObj fs)) s = (json_error 404 "Note not found", set_connected true s).
Proof.
  intros Hid Hup Hn Ht Hc Htn Hcn Hlen.
  rw /Member.PUT catch_500_connect connect_up // /catch_500 (id_checked _ _ _ _ _ Hid).
  api_run. body_fields Ht Hc. autorewrite with js_run. cbn -[findByIdAndUpdate].
  rw (findByIdAndUpdate_run _ _ _ _ _ Hid) //=; [by apply validate_trimmed_None|].
  by rw Hn.
Qed.

(** C13: [PUT] whose trimmed title is longer than 100 code units answers 500, even when no note has the identifier: the update validators run before the query. *)
Theorem PUT_long_title_500 s id oid fs t c :
  ObjectId.of_string id = Some oid -> (connected s || db_up s)%bool = true ->
  own_prop (of_ascii "title") fs = Some (JStr t) ->
  own_prop (of_ascii "content") fs = Some (JStr c) ->
  trim t <> [] -> trim c <> [] -> length (trim t) > 100 ->
  Member.PUT id (Some (JObj fs)) s = (json_error 500 "Failed to update note", set_connected true s).
Proof.
  intros Hid Hconn Ht Hc Htn Hcn Hlen.
  rw /Member.PUT catch_500_connect Hconn /catch_500 (id_checked _ _ _ _ _ Hid).
  api_run. body_fields Ht Hc. autorewrite with js_run. cbn -[findByIdAndUpdate].
  by rw (findByIdAndUpdate_invalid _ _ _ _ _ _ Hid (validate_trimmed_long t c Hlen)).
Qed.

Lemma DELETE_by_id_run s id oid :
  ObjectId.of_string id = Some oid -> db_up s = true ->
  Member.DELETE id s =
  match docs s !! oid with
  | Some _ => (json_message "Note deleted successfully",
               set_docs (delete oid (docs s)) (set_connected true s))
  | None => (json_error 404 "Note not found", set_connected true s)
  end.
Proof.
  intros Hid Hup. rw /Member.DELETE catch_500_connect connect_up // /catch_500.
  rw (id_checked _ _ _ _ _ Hid) /bind (findByIdAndDelete_run (set_connected true s) _ _ Hid Hup) /=. by destruct (docs s !! oid).
Qed.

(** C3: after [DELETE /api/notes/[id]], [GET /api/notes/[id]] on the same identifier answers 404, whether or not the note existed. *)
Theorem DELETE_then_GET_404 s id oid :
  ObjectId.of_string id = Some oid -> db_up s = true ->
  fst (Member.GET id (snd (Member.DELETE id s))) = json_error 404 "Note not found".
Proof.
  intros Hid Hup. rw (DELETE_by_id_run _ _ _ Hid Hup).
  destruct (docs s !! oid) eqn:Hn; rw (GET_by_id_run _ _ _ Hid) //=.
  - by rw lookup_delete_eq.
  - by rw Hn.
Qed.

(** C6: a note created by [POST] is answered by [GET /api/notes/[id]] on the printed form ([toHexString]) of its identifier, unchanged. *)
Theorem POST_then_GET s fs t c :
  db_up s = true ->
  own_prop (of_ascii "title") fs = Some (JStr t) ->
  own_prop (of_ascii "content") fs = Some (JStr c) ->
  trim t <> [] -> trim c <> [] -> length (trim t) <= 100 ->
  docs s !! next_oid s = None ->
  fst (Member.GET (ObjectId.toHexString (next_oid s)) (snd (Collection.POST (Some (JObj fs)) s))) =
  json_data 200 (PNote (mkNote (next_oid s) (trim t) (trim c) (clock s) (clock s) 0)).
Proof.
  intros Hup Ht Hc Htn Hcn Hlen Hfresh.
  rw (POST_created_run _ _ _ _ Hup Ht Hc Htn Hcn Hlen Hfresh).
  assert (Hid : ObjectId.of_string (ObjectId.toHexString (next_oid s)) = Some (next_oid s)).
  { apply ObjectId.of_string_toHexString. unfold next_oid. apply ObjectId.generate_bound. }
  set (n := mkNote (next_oid s) (trim t) (trim c) (clock s) (clock s) 0).
  set (s1 := set_docs (<[next_oid s := n]> (docs s))
                      (set_oid_index (ObjectId.getInc (oid_index s)) (set_connected true s))).
  change (fst (Member.GET (ObjectId.toHexString (next_oid s)) s1) = json_data 200 (PNote n)).
  rw (GET_by_id_run s1 _ _ Hid Hup). cbn [fst docs set_docs s1].
  by rw lookup_insert_eq.
Qed.


(** ** [GET /api/notes] *)

(** C5: [GET /api/notes] answers 200 with the stored notes, each exactly once, newest [createdAt] first. *)
Theorem GET_list_sorted s :
  db_up s = true ->
  let ns := sort_desc (map snd (map_to_list (docs s))) in
  Collection.GET s = (json_data 200 (PNotes ns), set_connected true s) /\
  Sorted newer_first ns /\ ns ≡ₚ map snd (map_to_list (docs s)).
Proof.
  intros Hup ns. split_and!.
  - rw /Collection.GET catch_500_connect connect_up // /catch_500 /bind find_sorted_run //.
  - apply sort_desc_sorted.
  - apply sort_desc_perm.
Qed.

(** [GET /api/notes] when MongoDB cannot be reached answers 500 [Failed to fetch notes] and leaves the collection alone. *)
Theorem GET_list_down s :
  db_up s = false ->
  fst (Collection.GET s) = json_error 500 "Failed to fetch notes" /\ docs (snd (Collection.GET s)) = docs s.
Proof.
  intros Hdown. rw /Collection.GET catch_500_connect.
  destruct (connected s || db_up s)%bool; [|done].
  by rw /catch_500 /bind /find_sorted /bind server_guard_down.
Qed.

(** C1: [POST /api/notes] with string fields whose trimmed forms are non-empty
    and a title of at most 100 code units answers 201 with the new note: the
    next ObjectId, the trimmed fields, [createdAt = updatedAt = now] and
    [__v = 0]; the note is stored under its identifier. *)
Theorem POST_created s fs t c :
  db_up s = true ->
  own_prop (of_ascii "title") fs = Some (JStr t) ->
  own_prop (of_ascii "content") fs = Some (JStr c) ->
  trim t <> [] -> trim c <> [] -> length (trim t) <= 100 ->
  docs s !! next_oid s = None ->
  let n := mkNote (next_oid s) (trim t) (trim c) (clock s) (clock s) 0 in
  Collection.POST (Some (JObj fs)) s =
  (json_data 201 (PNote n),
   set_docs (<[next_oid s := n]> (docs s))
     (set_oid_index (ObjectId.getInc (oid_index s)) (set_connected true s))).
Proof. exact (POST_created_run s fs t c). Qed.

(** C8: [GET /api/notes/[id]] on a well-formed identifier answers 200 with the
    note stored under it, or 404 when there is none, and changes nothing but
    the cached connection. *)
Theorem GET_by_id s id oid :
  ObjectId.of_string id = Some oid -> db_up s = true ->
  Member.GET id s =
  (match docs s !! oid with
   | Some n => json_data 200 (PNote n)
   | None => json_error 404 "Note not found"
   end, set_connected true s).
Proof. exact (GET_by_id_run s id oid). Qed.

(** C17: [DELETE /api/notes/[id]] on a well-formed identifier removes the note
    stored under it and confirms with 200, or answers 404 when there is none. *)
Theorem DELETE_by_id s id oid :
  ObjectId.of_string id = Some oid -> db_up s = true ->
  Member.DELETE id s =
  match docs s !! oid with
  | Some _ => (json_message "Note deleted successfully",
               set_docs (delete oid (docs s)) (set_connected true s))
  | None => (json_error 404 "Note not found", set_connected true s)
  end.
Proof. exact (DELETE_by_id_run s id oid). Qed.

(** ** Witnesses *)

Lemma POST_created_witness :
  let s := demo_server in
  let t := of_ascii "  Shopping " in
  let c := of_ascii "Milk, eggs" in
  let n := mkNote (next_oid s) (trim t) (trim c) (clock s) (clock s) 0 in
  Collection.POST (Some (JObj (demo_fields t c))) s =
  (json_data 201 (PNote n),
   set_docs (<[next_oid s := n]> (docs s))
     (set_oid_index (ObjectId.getInc (oid_index s)) (set_connected true s))).
Proof. intros s t c n. apply POST_created; concrete. Defined.

Lemma PUT_updated_witness :
  let t := of_ascii "Shopping list" in
  let c := of_ascii "Milk, eggs, bread" in
  let n' := mkNote (_id demo_note) (trim t) (trim c) (createdAt demo_note)
                   (clock demo_stored) (__v demo_note) in
  Member.PUT demo_id (Some (JObj (demo_fields t c))) demo_stored =
  (json_data 200 (PNote n'),
   set_docs (<[demo_oid := n']> (docs demo_stored)) (set_connected true demo_stored)).
Proof. intros t c n'. apply (PUT_updated _ _ _ _ _ _ demo_note); concrete. Defined.

Lemma DELETE_then_GET_404_witness :
  fst (Member.GET demo_id (snd (Member.DELETE demo_id demo_stored))) =
  json_error 404 "Note not found".
Proof. apply (DELETE_then_GET_404 _ _ demo_oid); concrete. Defined.

Lemma GET_list_sorted_witness :
  let ns := sort_desc (map snd (map_to_list (docs demo_stored))) in
  Collection.GET demo_stored = (json_data 200 (PNotes ns), set_connected true demo_stored) /\
  Sorted newer_first ns /\ ns ≡ₚ map snd (map_to_list (docs demo_stored)).
Proof. apply GET_list_sorted; concrete. Defined.

Lemma POST_then_GET_witness :
  let t := of_ascii "Shopping" in
  let c := of_ascii "Milk, eggs" in
  fst (Member.GET (ObjectId.toHexString (next_oid demo_server))
         (snd (Collection.POST (Some (JObj (demo_fields t c))) demo_server))) =
  json_data 200 (PNote (mkNote (next_oid demo_server) (trim t) (trim c)
                          (clock demo_server) (clock demo_server) 0)).
Proof. intros t c. apply POST_then_GET; concrete. Defined.

Lemma invalid_id_rejected_witness :
  let s := demo_server in
  let id := of_ascii "not-an-object-id" in
  let expect msg (r : Response * Server) :=
    r = if (connected s || db_up s)%bool
        then (json_error 400 "Invalid note ID format", set_connected true s)
        else (json_error 500 msg, s) in
  expect "Failed to fetch note" (Member.GET id s) /\
  expect "Failed to update note" (Member.PUT id None s) /\
  expect "Failed to delete note" (Member.DELETE id s).
Proof. intros s id expect. apply invalid_id_rejected; concrete. Defined.

Lemma GET_by_id_witness :
  Member.GET demo_id demo_stored = (json_data 200 (PNote demo_note), set_connected true demo_stored).
Proof. rw (GET_by_id _ _ demo_oid); concrete. Defined.

Lemma POST_blank_rejected_witness :
  let r := Collection.POST (Some (JObj (demo_fields (of_ascii "   ") (of_ascii "x")))) demo_server in
  status (fst r) = 400 /\ snd r = set_connected true demo_server.
Proof.
  apply (POST_blank_rejected _ _ (of_ascii "   ") (of_ascii "x")); try concrete.
  left. concrete.
Defined.

Lemma POST_missing_rejected_witness :
  Collection.POST (Some (JObj [(of_ascii "title", JStr (of_ascii "Shopping"))])) demo_server =
  (json_error 400 "Title and content are required", set_connected true demo_server).
Proof. apply POST_missing_rejected; [concrete|]. right. concrete. Defined.

Lemma PUT_not_found_witness :
  Member.PUT demo_id (Some (JObj (demo_fields (of_ascii "a") (of_ascii "b")))) demo_server =
  (json_error 404 "Note not found", set_connected true demo_server).
Proof. apply (PUT_not_found _ _ demo_oid _ (of_ascii "a") (of_ascii "b")); concrete. Defined.

Lemma POST_long_title_500_witness :
  Collection.POST (Some (JObj (demo_fields long_title (of_ascii "x")))) demo_server =
  (json_error 500 "Failed to create note",
   set_oid_index (ObjectId.getInc (oid_index demo_server)) (set_connected true demo_server)).
Proof. apply (POST_long_title_500 _ _ long_title (of_ascii "x")); concrete. Defined.

Lemma PUT_long_title_500_witness :
  Member.PUT demo_id (Some (JObj (demo_fields long_title (of_ascii "x")))) demo_server =
  (json_error 500 "Failed to update note", set_connected true demo_server).
Proof. apply (PUT_long_title_500 _ _ demo_oid _ long_title (of_ascii "x")); concrete. Defined.

Lemma POST_non_string_title_500_witness :
  Collection.POST (Some (JObj [(of_ascii "title", JNum 42); (of_ascii "content", JStr (of_ascii "x"))]))
    demo_server = (json_error 500 "Failed to create note", set_connected true demo_server).
Proof.
  apply (POST_non_string_title_500 _ _ (JNum 42) (JStr (of_ascii "x"))); concrete.
Defined.

Lemma DELETE_by_id_witness :
  Member.DELETE demo_id demo_stored =
  (json_message "Note deleted successfully",
   set_docs (delete demo_oid (docs demo_stored)) (set_connected true demo_stored)).
Proof. rw (DELETE_by_id _ _ demo_oid); concrete. Defined.

(** C16: the routes under [api/notes/[id]] read the path parameter only
    through [mongoose.Types.ObjectId.isValid(id)] and the cast
    [new ObjectId(id)], and both accept either case of a hexadecimal
    digit: [GET], [PUT] and [DELETE] on the upper-cased identifier answer
    and change the collection exactly as on the identifier itself, so one
    note is reached under every mix of cases of its 24 digits. *)
Theorem member_case_insensitive id request s :
  Member.GET (map ObjectId.ascii_upper id) s = Member.GET id s /\
  Member.PUT (map ObjectId.ascii_upper id) request s = Member.PUT id request s /\
  Member.DELETE (map ObjectId.ascii_upper id) s = Member.DELETE id s.
Proof.
  rw /Member.GET /Member.PUT /Member.DELETE /findById /findByIdAndUpdate /findByIdAndDelete /cast_id.
  by rw ObjectId.isValid_upper ObjectId.of_string_upper.
Qed.

End Api.
