(* ===== verification/Server.v ===== *)
(** * The server as a transition system

    The App Router sends each request to the handler of its method and
    path ([dispatch]); between requests, time passes and MongoDB may become
    unreachable or reachable again.  [step] is that transition relation on
    [Server]; [init] is a fresh process with an empty collection.  The
    invariant [store_inv] of [Store] holds in every reachable state, and
    the concrete run of the example of the specification is computed. *)

From S2P Require Import Prelude JsString Json ObjectId NoteModel Store Api.
Import JsString Json NoteModel Store Api.

Module Server.

(** The HTTP surface: [GET /api/notes], [POST /api/notes],
    [GET|PUT|DELETE /api/notes/[id]]. *)
Inductive Request : Type :=
| ListNotes
| CreateNote (request : option jsval)
| GetNote (id : list Z)
| UpdateNote (id : list Z) (request : option jsval)
| DeleteNote (id : list Z).

Definition dispatch (r : Request) : Server -> Response * Server :=
  match r with
  | ListNotes => Collection.GET
  | CreateNote b => Collection.POST b
  | GetNote id => Member.GET id
  | UpdateNote id b => Member.PUT id b
  | DeleteNote id => Member.DELETE id
  end.

(** What happens between requests: time passes, MongoDB goes away or
    comes back. *)
Inductive env : Server -> Server -> Prop :=
| env_tick s d : 0 <= d -> env s (set_clock (clock s + d) s)
| env_db_down s : env s (set_db_up false s)
| env_db_up s : env s (set_db_up true s).

Inductive step : Server -> Server -> Prop :=
| step_request r s : step s (snd (dispatch r s))
| step_env s s' : env s s' -> step s s'.

(** A process that has just started: no connection, an empty collection,
    the clock at [now], bson's random counter start and process bytes. *)
Definition init (now index process : Z) : Server := mkServer ∅ now index process true false.

(** ** Every answer is a well-typed envelope *)

Lemma dispatch_returns r s : well_typed (fst (dispatch r s)) = true.
Proof.
  destruct r; apply catch_500_well_typed;
    rw /= ?/Collection.GET ?/Collection.POST ?/Member.GET ?/Member.PUT ?/Member.DELETE;
    returns_tac; reflexivity.
Qed.

(** C30: whatever the request and the state, the handler's answer is a
    well-typed envelope: on success no [error], a 200 or 201 status and a
    [data] or [message]; on failure only an [error] and a 400, 404 or 500
    status.  So [response.ok], which [createNote], [updateNote] and
    [deleteNote] test, always agrees with [data.success], which
    [loadNotes] tests. *)
Theorem responses_well_typed r s :
  well_typed (fst (dispatch r s)) = true /\
  ok (fst (dispatch r s)) = success (body (fst (dispatch r s))).
Proof. pose proof (dispatch_returns r s). split; [done|by apply well_typed_ok]. Qed.

(** ** The invariant holds in every reachable state *)

Lemma catch_500_inv msg m s :
  preserves store_inv m -> store_inv s -> store_inv (snd (catch_500 msg m s)).
Proof.
  intros Hm Hs. rw /catch_500.
  destruct (m s) as [[r|e] s'] eqn:E; simpl; by eapply Hm.
Qed.

Lemma dispatch_inv r s : store_inv s -> store_inv (snd (dispatch r s)).
Proof.
  intros Hs. destruct r; apply catch_500_inv; try done;
    rw /= ?/Collection.GET ?/Collection.POST ?/Member.GET ?/Member.PUT ?/Member.DELETE;
    preserves_tac.
Qed.

Lemma env_inv s s' : env s s' -> store_inv s -> store_inv s'.
Proof. destruct 1; intros Hs; auto using store_inv_tick with notes. Qed.

Lemma env_docs s s' : env s s' -> docs s' = docs s /\ clock s <= clock s'.
Proof. destruct 1; cbn; split; auto with lia. Qed.

Lemma step_inv s s' : step s s' -> store_inv s -> store_inv s'.
Proof. destruct 1; eauto using dispatch_inv, env_inv. Qed.

Lemma reachable_inv s s' : rtc step s s' -> store_inv s -> store_inv s'.
Proof. induction 1; eauto using step_inv. Qed.

Lemma init_inv now index process : store_inv (init now index process).
Proof. apply map_Forall_empty. Qed.

(** C4: every note stored in a state reachable from a fresh process, by any
    interleaving of requests, clock ticks and database outages, sits under
    its own identifier, which fits 96 bits, has [createdAt <= updatedAt <= now], a trimmed
    non-empty title of at most 100 code units and a trimmed non-empty
    content. *)
Theorem reachable_notes_wf now index process s :
  rtc step (init now index process) s ->
  forall oid n, docs s !! oid = Some n ->
    _id n = oid /\ 0 <= oid < 2 ^ 96 /\ createdAt n <= updatedAt n <= clock s /\
    trim (title n) = title n /\ title n <> [] /\ length (title n) <= 100 /\
    trim (content n) = content n /\ content n <> [].
Proof.
  intros Hreach oid n Hn.
  pose proof (map_Forall_lookup_1 _ _ _ _ (reachable_inv _ _ Hreach (init_inv _ _ _)) Hn)
    as (Hid & Hb & Hcu & Hun & Ht & Hc & Hv).
  apply validate_None in Hv as (? & ? & ?). rw /cast /= in Ht Hc. split_and!; try done; lia.
Qed.

(** ** The example of the specification, computed *)

Definition example_start : Server := init 1700000000000 5 12345.

Definition example_id : list Z := ObjectId.toHexString (next_oid example_start).

Definition example_request : Request := CreateNote (Some (note_body "Shopping" "Milk, eggs")).

Definition example_created : Server := snd (dispatch example_request example_start).

(** The example of the specification: create [Shopping], update it a
    minute later, delete it, fetch it: 201 with the trimmed fields and
    [createdAt = updatedAt], 200 with the new fields and the later
    [updatedAt], 200 with the confirmation, 404. *)
Example spec_example_run :
  let s0 := example_start in
  let t0 := 1700000000000 in
  let t1 := 1700000060000 in
  let oid := next_oid s0 in
  let (r1, s1) := Collection.POST (Some (note_body "Shopping" "Milk, eggs")) s0 in
  let (r2, s2) := Member.PUT example_id
                    (Some (note_body "Shopping list" "Milk, eggs, bread")) (set_clock t1 s1) in
  let (r3, s3) := Member.DELETE example_id s2 in
  let (r4, _) := Member.GET example_id s3 in
  r1 = json_data 201 (PNote (mkNote oid (of_ascii "Shopping") (of_ascii "Milk, eggs") t0 t0 0)) /\
  r2 = json_data 200 (PNote (mkNote oid (of_ascii "Shopping list")
                                     (of_ascii "Milk, eggs, bread") t0 t1 0)) /\
  r3 = json_message "Note deleted successfully" /\
  r4 = json_error 404 "Note not found".
Proof. vm_compute. split_and!; reflexivity. Qed.

(** An update in the same millisecond as the creation changes the title
    and content but leaves [updatedAt] equal to [createdAt]: [updatedAt] is
    the clock at the update, not a value strictly greater than before. *)
Example PUT_same_instant :
  let s0 := example_start in
  let (_, s1) := Collection.POST (Some (note_body "Shopping" "Milk, eggs")) s0 in
  let (r2, _) := Member.PUT example_id
                   (Some (note_body "Shopping list" "Milk, eggs, bread")) s1 in
  r2 = json_data 200 (PNote (mkNote (next_oid s0) (of_ascii "Shopping list")
                                    (of_ascii "Milk, eggs, bread") (clock s0) (clock s0) 0)).
Proof. vm_compute. reflexivity. Qed.

Lemma reachable_notes_wf_witness :
  let n := mkNote (next_oid example_start) (of_ascii "Shopping") (of_ascii "Milk, eggs")
                  1700000000000 1700000000000 0 in
  _id n = next_oid example_start /\ 0 <= next_oid example_start < 2 ^ 96 /\
  createdAt n <= updatedAt n <= clock example_created /\
  trim (title n) = title n /\ title n <> [] /\ length (title n) <= 100 /\
  trim (content n) = content n /\ content n <> [].
Proof.
  intros n. apply (reachable_notes_wf 1700000000000 5 12345 example_created).
  - apply rtc_once. apply (step_request example_request).
  - vm_compute. reflexivity.
Defined.

End Server.
