(* ===== verification/NoteCard.v ===== *)
(** * The note card: [src/components/NoteCard.tsx]

    The card shows a note's title, its content cut to 150 code units with
    ["..."] appended when longer ([display_content]), the creation date,
    and the update date when [updatedAt] differs from [createdAt]
    ([shows_updated]).  Dates reach the client as ISO strings of the
    millisecond timestamps, so comparing the strings compares the
    milliseconds ([Wire.json_shows_updated_note]).  [render] is what the card shows and [click] what its
    buttons call; [formatDate] depends on the browser's locale, so [render]
    takes it as a Section variable.  [substring] counts UTF-16 code units, so the cut can fall
    between the two halves of a surrogate pair: [wf_utf16] states that a
    string has no unpaired surrogate, and [display_content_wf] says exactly
    when the card's text keeps it. *)

From S2P Require Import Prelude JsString NoteModel.
Import JsString NoteModel.

Module NoteCard.

(** [note.content.length > 150 ? note.content.substring(0, 150) + '...'
    : note.content] *)
Definition display_content (c : list Z) : list Z :=
  if 150 <? length c then take 150 c ++ of_ascii "..." else c.

(** [note.updatedAt && note.updatedAt !== note.createdAt] *)
Definition shows_updated (n : INote) : bool := negb (updatedAt n =? createdAt n).

Definition is_high_surrogate (u : Z) : bool := (55296 <=? u) && (u <=? 56319).
Definition is_low_surrogate (u : Z) : bool := (56320 <=? u) && (u <=? 57343).

(** Well-formed UTF-16: every high surrogate is followed by a low one, and
    every low surrogate follows a high one. *)
Fixpoint wf_utf16 (s : list Z) : bool :=
  match s with
  | [] => true
  | u :: s' =>
      if is_high_surrogate u then
        match s' with
        | v :: s'' => is_low_surrogate v && wf_utf16 s''
        | [] => false
        end
      else negb (is_low_surrogate u) && wf_utf16 s'
  end.

(** ** What the card renders

    [formatDate] ([toLocaleDateString] and [toLocaleTimeString]) depends
    on the browser's locale: the card is rendered for any formatter. *)
Section Render.
Variable formatDate : Z -> list Z.

Record CardView := mkCard {
  card_key : Z;
  card_title : list Z;
  card_content : list Z;
  card_created : list Z;
  card_updated : option (list Z)
}.

(** [<NoteCard key={note._id} note={note} .../>]: the title, the
    truncated content, [Created: ...] and, when [updatedAt] differs,
    [Updated: ...]. *)
Definition render (n : INote) : CardView :=
  mkCard (_id n) (title n) (display_content (content n))
    (of_ascii "Created: " ++ formatDate (createdAt n))
    (if shows_updated n then Some (of_ascii "Updated: " ++ formatDate (updatedAt n)) else None).

End Render.

(** The card's two buttons and the callbacks they call. *)
Inductive CardButton := EditButton | DeleteButton.

Inductive Callback :=
| OnEdit (n : INote)
| OnDelete (id : Z).

(** [onClick={() => onEdit(note)}], [onClick={() => onDelete(note._id!)}] *)
Definition click (n : INote) (b : CardButton) : Callback :=
  match b with
  | EditButton => OnEdit n
  | DeleteButton => OnDelete (_id n)
  end.

(** ** Lemmas *)

Lemma display_content_short c : length c <= 150 -> display_content c = c.
Proof. intros H. rw /display_content. by destruct (Z.ltb_spec 150 (length c)); [lia|]. Qed.

Lemma display_content_long c :
  150 < length c -> display_content c = take 150 c ++ of_ascii "...".
Proof. intros H. rw /display_content. by destruct (Z.ltb_spec 150 (length c)); [|lia]. Qed.

(** C20: the card shows at most 153 code units: the content itself when it
    has at most 150, and otherwise text whose first 150 code units are the
    content's first 150. *)
Theorem display_content_bounded c :
  length (display_content c) <= 153 /\
  (length c <= 150 -> display_content c = c) /\
  (150 < length c -> take 150 (display_content c) = take 150 c).
Proof.
  destruct (Z.leb_spec (length c) 150) as [Hs|Hl].
  - rw display_content_short //. split_and!; [lia|done|lia].
  - rw display_content_long //. unfold length in *.
    assert (H3 : List.length (of_ascii "...") = 3%nat) by reflexivity.
    assert (Hm : Nat.min 150 (List.length c) = 150%nat) by lia.
    split_and!; [|lia|].
    + rw length_app length_take H3 Hm. lia.
    + intros _. rw take_app_length' ?length_take //.
Qed.

Lemma high_not_low u : is_low_surrogate u = true -> is_high_surrogate u = false.
Proof. rw /is_low_surrogate /is_high_surrogate. intros [H1 H2]%andb_prop. apply Z.leb_le in H1. apply andb_false_intro2, Z.leb_gt. lia. Qed.

(** A prefix of a well-formed string followed by a well-formed string
    that does not start with a low surrogate is well-formed exactly when
    the prefix does not end in a high surrogate. *)
Lemma wf_utf16_take_app n s t :
  wf_utf16 s = true -> wf_utf16 t = true ->
  (forall u, head t = Some u -> is_low_surrogate u = false) ->
  wf_utf16 (take n s ++ t) = negb (default false (is_high_surrogate <$> last (take n s))).
Proof.
  intros Hs Ht Hh. remember (List.length s) as k eqn:Hk. revert s n Hs Hk.
  induction k as [k IH] using lt_wf_ind; intros s n Hs ->.
  destruct s as [|u s]; destruct n as [|n]; try by rw /= ?Ht.
  cbn [take app wf_utf16] in Hs |- *. destruct (is_high_surrogate u) eqn:Hu.
  - destruct s as [|v s]; [done|]. destruct (andb_prop _ _ Hs) as [Hv Hs'].
    destruct n as [|n]; cbn [take app].
    + destruct t as [|w t]; [by rw /= Hu|]. rw (Hh w) //. by rw /= Hu.
    + rw Hv (IH (List.length s) ltac:(cbn; lia) s n Hs' eq_refl) /=.
      rw !last_cons. destruct (last (take n s)); [done|]. by rw /= high_not_low.
  - destruct (andb_prop _ _ Hs) as [Hl Hs']. rw Hl (IH (List.length s) ltac:(cbn; lia) s n Hs' eq_refl) /=.
    rw last_cons. destruct (last (take n s)); [done|]. by rw /= Hu.
Qed.

(** C21: the card's cut falls between the two halves of a surrogate pair
    exactly when the content is longer than 150 code units and its 150th
    code unit is a high surrogate: for well-formed content, the displayed
    text is well-formed in every other case, and has an unpaired high
    surrogate before the ["..."] in that one. *)
Theorem display_content_wf c :
  wf_utf16 c = true ->
  wf_utf16 (display_content c) =
  negb ((150 <? length c) && default false (is_high_surrogate <$> c !! 149%nat)).
Proof.
  intros Hc. destruct (Z.ltb_spec 150 (length c)) as [Hl|Hl]; cbn [andb negb].
  - rw display_content_long // wf_utf16_take_app //; [by cbn; intros u [= <-]|].
    unfold length in Hl. assert (Hm : pred (List.length (take 150 c)) = 149%nat) by (rw length_take; lia).
    by rw last_lookup Hm lookup_take.
  - by rw display_content_short; [lia|].
Qed.

(** An emoji at code units 150 and 151. *)
Lemma display_content_wf_witness :
  let c := repeat 97 149 ++ [55357; 56832] in
  wf_utf16 c = true /\ wf_utf16 (display_content c) = false.
Proof.
  intros c. assert (Hc : wf_utf16 c = true) by (vm_compute; reflexivity).
  split; [exact Hc|]. rw (display_content_wf c Hc). vm_compute. reflexivity.
Defined.

End NoteCard.
