(* ===== verification/Wire.v ===== *)
(** * A note on the wire, between the handlers and the page

    [NextResponse.json({ success: true, data: note })] serialises a
    Mongoose document with [toJSON] and [JSON.stringify]: the ObjectId as
    its [toHexString], the two [Date]s by [toISOString] ([note_json]).
    The page keeps what [response.json()] gives back, and reads it in
    three ways: [note._id === id] to find a note in its list
    ([page.tsx] lines 86 and 107, on two notes' [_id]s), [note.updatedAt
    && note.updatedAt !== note.createdAt] to show the update line
    ([NoteCard.tsx] line 52, [json_shows_updated]) and [new Date(date)] to
    format a date, and it sends [_id] back in the URL, where the server
    casts it with [new ObjectId(id)].  [note_of_json] is the note these
    readings recover.  The model of the page ([Page], [NoteCard]) holds
    [INote]s and compares the integers; [wire_faithful] shows that this is
    what the code computes on the strings, and [card_updated_line] that
    the card of a stored note shows its update line exactly when the note
    was updated later than created, on the model and on the wire. *)

From S2P Require Import Prelude JsString JsDate Json ObjectId NoteModel Store Server NoteCard.
Import JsString JsDate Json NoteModel Store Server NoteCard.

Module Wire.

(** [note.toJSON()] and [JSON.stringify]: the fields in the order
    Mongoose keeps them. *)
Definition note_json (n : INote) : jsval :=
  JObj [(of_ascii "_id", JStr (ObjectId.toHexString (_id n)));
        (of_ascii "title", JStr (title n));
        (of_ascii "content", JStr (content n));
        (of_ascii "createdAt", JStr (toISOString (createdAt n)));
        (of_ascii "updatedAt", JStr (toISOString (updatedAt n)));
        (of_ascii "__v", JNum (__v n))].

(** [v[k]] on a value of [JSON.parse]: [undefined] when absent. *)
Definition field (k : list Z) (v : jsval) : jsval :=
  match v with
  | JObj fs => default JUndefined (own_prop k fs)
  | _ => JUndefined
  end.

(** [a === b] on values of [JSON.parse]: two objects or arrays parsed
    separately are never the same object. *)
Definition strict_eq (a b : jsval) : bool :=
  match a, b with
  | JUndefined, JUndefined | JNull, JNull => true
  | JBool x, JBool y => Bool.eqb x y
  | JNum x, JNum y => x =? y
  | JStr x, JStr y => bool_decide (x = y)
  | _, _ => false
  end.

(** [note.updatedAt && note.updatedAt !== note.createdAt] *)
Definition json_shows_updated (v : jsval) : bool :=
  truthy (field (of_ascii "updatedAt") v) &&
  negb (strict_eq (field (of_ascii "updatedAt") v) (field (of_ascii "createdAt") v)).

(** [note._id === id], for [id] the [_id] of another note. *)
Definition json_same_id (v w : jsval) : bool :=
  strict_eq (field (of_ascii "_id") v) (field (of_ascii "_id") w).

Definition str_field (k : list Z) (v : jsval) : option (list Z) :=
  if field k v is JStr s then Some s else None.

(** The note the readings of the page recover: the identifier as the
    server casts it back, the dates as [new Date] parses them. *)
Definition note_of_json (v : jsval) : option INote :=
  i ← str_field (of_ascii "_id") v ≫= ObjectId.of_string;
  t ← str_field (of_ascii "title") v;
  c ← str_field (of_ascii "content") v;
  ca ← str_field (of_ascii "createdAt") v ≫= parse_iso;
  ua ← str_field (of_ascii "updatedAt") v ≫= parse_iso;
  ver ← (if field (of_ascii "__v") v is JNum k then Some k else None);
  Some (mkNote i t c ca ua ver).

(** The identifier fits the 12 bytes of an ObjectId and the dates are
    time values a [Date] can hold. *)
Definition wire_ok (n : INote) : Prop :=
  0 <= _id n < 2 ^ 96 /\ Z.abs (createdAt n) <= maxTime /\ Z.abs (updatedAt n) <= maxTime.

Lemma strict_eq_str a b : strict_eq (JStr a) (JStr b) = bool_decide (a = b).
Proof. done. Qed.

Lemma toHexString_inj a b :
  0 <= a < 2 ^ 96 -> 0 <= b < 2 ^ 96 -> ObjectId.toHexString a = ObjectId.toHexString b -> a = b.
Proof.
  intros Ha Hb Heq. enough (Some a = Some b) by congruence.
  by rw -(ObjectId.of_string_toHexString a Ha) -(ObjectId.of_string_toHexString b Hb) Heq.
Qed.

Lemma bool_decide_inj {A B} `{EqDecision A} `{EqDecision B} (f : A -> B) (x y : A) :
  (f x = f y -> x = y) -> bool_decide (f x = f y) = bool_decide (x = y).
Proof. intros Hf. apply bool_decide_ext. split; [done|by intros ->]. Qed.

(** The fields of [note_json n], read without printing the identifier
    or the dates. *)
Lemma note_json_fields n :
  field (of_ascii "_id") (note_json n) = JStr (ObjectId.toHexString (_id n)) /\
  field (of_ascii "title") (note_json n) = JStr (title n) /\
  field (of_ascii "content") (note_json n) = JStr (content n) /\
  field (of_ascii "createdAt") (note_json n) = JStr (toISOString (createdAt n)) /\
  field (of_ascii "updatedAt") (note_json n) = JStr (toISOString (updatedAt n)) /\
  field (of_ascii "__v") (note_json n) = JNum (__v n).
Proof.
  rw /note_json. generalize (ObjectId.toHexString (_id n)) (toISOString (createdAt n))
    (toISOString (updatedAt n)). intros h c u. split_and!; reflexivity.
Qed.

Lemma truthy_str_empty s : truthy (JStr s) = negb (is_empty s).
Proof. done. Qed.

Lemma json_shows_updated_note n :
  wire_ok n -> json_shows_updated (note_json n) = shows_updated n.
Proof.
  intros (_ & Hc & Hu). destruct (note_json_fields n) as (_ & _ & _ & Hca & Hua & _).
  rw /json_shows_updated Hca Hua truthy_str_empty strict_eq_str (is_empty_false _ (toISOString_nonempty _)).
  rw (bool_decide_inj toISOString (updatedAt n) (createdAt n)); [by apply toISOString_inj|].
  rw /shows_updated /=. by case_bool_decide as E; [rw E Z.eqb_refl|rw (proj2 (Z.eqb_neq _ _) E)].
Qed.

Lemma json_same_id_note n n' :
  0 <= _id n < 2 ^ 96 -> 0 <= _id n' < 2 ^ 96 ->
  json_same_id (note_json n) (note_json n') = bool_decide (_id n = _id n').
Proof.
  intros Hn Hn'. destruct (note_json_fields n) as (Hi & _), (note_json_fields n') as (Hi' & _).
  rw /json_same_id Hi Hi' strict_eq_str. apply bool_decide_inj. by apply toHexString_inj.
Qed.

Lemma note_of_json_note n : wire_ok n -> note_of_json (note_json n) = Some n.
Proof.
  intros (Hid & Hc & Hu). destruct (note_json_fields n) as (Hi & Ht & Hct & Hca & Hua & Hv).
  rw /note_of_json /str_field Hi Ht Hct Hca Hua Hv. cbv beta iota.
  rw !bind_Some (ObjectId.of_string_toHexString _ Hid) bind_Some (parse_toISOString _ Hc).
  rw bind_Some (parse_toISOString _ Hu) !bind_Some. by destruct n.
Qed.

(** A note created at the start of [Server.example_start], and the same
    note updated a minute later. *)
Definition example_note : INote :=
  mkNote (next_oid example_start) (of_ascii "Shopping") (of_ascii "Milk, eggs") 1700000000000 1700000000000 0.

Definition example_updated : INote :=
  mkNote (next_oid example_start) (of_ascii "Shopping list") (of_ascii "Milk, eggs, bread")
         1700000000000 1700000060000 0.

(** C18: a note travels from the handlers to the page as JSON with its
    ObjectId printed in hexadecimal and its dates printed by
    [toISOString]; for an identifier of 12 bytes and dates a [Date] can
    hold, the page's readings of that JSON give back the note (the id as
    the server casts it, the dates as [new Date] parses them), the card's
    test [note.updatedAt !== note.createdAt] on the strings is the
    comparison of the milliseconds, and [note._id === id] on two notes'
    strings is the equality of their identifiers. *)
Theorem wire_faithful n n' :
  wire_ok n -> 0 <= _id n' < 2 ^ 96 ->
  note_of_json (note_json n) = Some n /\
  json_shows_updated (note_json n) = shows_updated n /\
  json_same_id (note_json n) (note_json n') = bool_decide (_id n = _id n').
Proof.
  intros Hn Hn'. split_and!; [by apply note_of_json_note|by apply json_shows_updated_note|].
  apply json_same_id_note; [by destruct Hn|done].
Qed.

Lemma wire_faithful_witness :
  note_of_json (note_json example_updated) = Some example_updated /\
  json_shows_updated (note_json example_updated) = shows_updated example_updated /\
  json_same_id (note_json example_updated) (note_json example_note) =
    bool_decide (_id example_updated = _id example_note).
Proof.
  apply wire_faithful.
  - split_and!; apply Z.leb_le || apply Z.ltb_lt; vm_compute; reflexivity.
  - split; [apply Z.leb_le|apply Z.ltb_lt]; vm_compute; reflexivity.
Defined.

(** C33: the card of a note stored in any reachable state of the server
    shows an [Updated:] line with the update's date exactly when the note
    was updated at a later millisecond than it was created; otherwise
    [updatedAt] equals [createdAt] and the card shows no such line.  The
    card's test on the JSON the page receives decides the same, for dates
    a [Date] can hold. *)
Theorem card_updated_line fmt now index process s oid n :
  rtc step (init now index process) s -> docs s !! oid = Some n ->
  ((card_updated (render fmt n) = Some (of_ascii "Updated: " ++ fmt (updatedAt n)) /\
    createdAt n < updatedAt n) \/
   (card_updated (render fmt n) = None /\ updatedAt n = createdAt n)) /\
  (Z.abs (createdAt n) <= maxTime -> Z.abs (updatedAt n) <= maxTime ->
   json_shows_updated (note_json n) = bool_decide (createdAt n < updatedAt n)).
Proof.
  intros Hr Hn.
  destruct (map_Forall_lookup_1 _ _ _ _ (reachable_inv _ _ Hr (init_inv _ _ _)) Hn)
    as (Hid & Hb & Hcu & _). split.
  - rw /render /shows_updated /=. destruct (Z.eqb_spec (updatedAt n) (createdAt n)).
    + by right.
    + left. split; [done|lia].
  - intros Hc Hu. rw json_shows_updated_note; [rw /wire_ok Hid; split_and!; lia|].
    rw /shows_updated. destruct (Z.eqb_spec (updatedAt n) (createdAt n)); case_bool_decide; lia.
Qed.

Lemma card_updated_line_witness :
  let fmt := fun _ : Z => of_ascii "today" in
  let n := example_note in
  ((card_updated (render fmt n) = Some (of_ascii "Updated: " ++ fmt (updatedAt n)) /\
    createdAt n < updatedAt n) \/
   (card_updated (render fmt n) = None /\ updatedAt n = createdAt n)) /\
  (Z.abs (createdAt n) <= maxTime -> Z.abs (updatedAt n) <= maxTime ->
   json_shows_updated (note_json n) = bool_decide (createdAt n < updatedAt n)).
Proof.
  intros fmt n. apply (card_updated_line fmt 1700000000000 5 12345 example_created (next_oid example_start)).
  - apply rtc_once. apply (step_request example_request).
  - vm_compute. reflexivity.
Defined.

End Wire.
