(* ===== verification/NoteForm.v ===== *)
(** * The note form: [src/components/NoteForm.tsx]

    The form keeps three pieces of React state, [title], [content] and
    [saving] ([FormState]).  The effect on [note] loads the edited note or
    clears the fields ([load_note]).  The inputs are disabled while
    saving, and the title input has [maxLength={100}]: the browser never
    produces a longer value by typing or pasting, so a change to a longer
    value is a change the user cannot make ([change_title]).
    [handleSubmit] checks the trimmed fields in order, raising an alert for
    the first empty one, and otherwise calls [onSubmit] with the trimmed
    fields ([submit]); [saving] is set for the duration of the call
    ([submit_done] clears it in the [finally] block).  [form_step] gathers
    these events; [form_view] is what the form renders. *)

From S2P Require Import Prelude JsString NoteModel.
Import JsString.

Module NoteForm.

Record FormState := mkForm {
  title : list Z;
  content : list Z;
  saving : bool
}.

(** [useState('')], [useState('')], [useState(false)] *)
Definition init : FormState := mkForm [] [] false.

(** [useEffect(() => { if (note) { setTitle(note.title);
    setContent(note.content); } else { setTitle(''); setContent(''); } },
    [note])] *)
Definition load_note (note : option NoteModel.INote) (f : FormState) : FormState :=
  match note with
  | Some n => mkForm (NoteModel.title n) (NoteModel.content n) (saving f)
  | None => mkForm [] [] (saving f)
  end.

(** [onChange={(e) => setTitle(e.target.value)}] on an input with
    [maxLength={100}] and [disabled={saving}]. *)
Definition change_title (v : list Z) (f : FormState) : FormState :=
  if saving f then f
  else if 100 <? length v then f
  else mkForm v (content f) (saving f).

(** [onChange={(e) => setContent(e.target.value)}], [disabled={saving}] *)
Definition change_content (v : list Z) (f : FormState) : FormState :=
  if saving f then f else mkForm (title f) v (saving f).

(** What a submission does: an alert, or the call [onSubmit({ title,
    content })] with the trimmed fields. *)
Inductive Submission : Type :=
| Alert (msg : string)
| Submit (t c : list Z).

(** [handleSubmit] up to the call of [onSubmit]. *)
Definition handleSubmit (f : FormState) : Submission :=
  if is_empty (trim (title f)) then Alert "Please enter a title"
  else if is_empty (trim (content f)) then Alert "Please enter some content"
  else Submit (trim (title f)) (trim (content f)).

(** The submit button is disabled while saving; a submission that calls
    [onSubmit] sets [saving]. *)
Definition submit (f : FormState) : option (Submission * FormState) :=
  if saving f then None
  else match handleSubmit f with
       | Alert msg => Some (Alert msg, f)
       | Submit t c => Some (Submit t c, mkForm (title f) (content f) true)
       end.

(** [finally { setSaving(false); }] *)
Definition submit_done (f : FormState) : FormState := mkForm (title f) (content f) false.

(** What the form renders: the heading, the counter
    [{title.length}/100 characters], the submit button's label, and whether
    the inputs and the buttons are disabled. *)
Record FormView := mkFormView {
  heading : string;
  counter : Z;
  button_label : string;
  inputs_disabled : bool;
  buttons_disabled : bool
}.

Definition form_view (note : option NoteModel.INote) (f : FormState) : FormView :=
  mkFormView (if note is Some _ then "Edit Note" else "Create New Note")
    (length (title f))
    (if saving f then "Saving..." else if note is Some _ then "Update" else "Create")
    (saving f) (saving f).

(** The events of the form.  A note loaded into the form comes from the
    page's list, whose notes the server validated ([length <= 100]). *)
Inductive form_step : FormState -> FormState -> Prop :=
| fs_load_none f : form_step f (load_note None f)
| fs_load_some f n :
    length (NoteModel.title n) <= 100 -> form_step f (load_note (Some n) f)
| fs_title f v : form_step f (change_title v f)
| fs_content f v : form_step f (change_content v f)
| fs_submit f s f' : submit f = Some (s, f') -> form_step f f'
| fs_done f : form_step f (submit_done f).

(** ** Lemmas *)

Lemma form_step_title f f' :
  form_step f f' -> length (title f) <= 100 -> length (title f') <= 100.
Proof.
  destruct 1 as [f|f n Hn|f v|f v|f s f' Hs|f]; intros Hf.
  - rw /load_note /length /=. lia.
  - done.
  - rw /change_title. destruct (saving f); [done|].
    destruct (Z.ltb_spec 100 (length v)); [done|]. done.
  - rw /change_content. by destruct (saving f).
  - revert Hs. rw /submit. destruct (saving f); [done|].
    destruct (handleSubmit f); by intros [= <- <-].
  - done.
Qed.

Lemma length_trim_Z s : length (trim s) <= length s.
Proof. rw /length. pose proof (length_trim_le s). lia. Qed.

(** C22: in every state the form reaches from its initial state, the title
    has at most 100 code units: typing is capped by [maxLength={100}], and
    [form_step] loads only notes whose title has at most 100 code units,
    as every note the page holds has ([ClientHeld.held_notes_valid]). *)
Theorem form_title_bounded f : rtc form_step init f -> length (title f) <= 100.
Proof.
  intros Hr. assert (H0 : length (title init) <= 100) by (rw /length /=; lia).
  induction Hr as [|x y z Hxy _ IH]; [done|]. apply IH. by eapply form_step_title.
Qed.

(** C23: a submission of the form whose title has at most 100 code units
    sends trimmed fields that the schema's validators accept. *)
Theorem submission_valid f t c :
  handleSubmit f = Submit t c -> length (title f) <= 100 ->
  trim t = t /\ trim c = c /\ NoteModel.validate t c = None.
Proof.
  rw /handleSubmit. intros Hs Hlen.
  destruct (is_empty (trim (title f))) eqn:Et; [done|].
  destruct (is_empty (trim (content f))) eqn:Ec; [done|].
  injection Hs as <- <-. rw !trim_idempotent. split_and!; [done|done|].
  apply NoteModel.validate_None. split_and!.
  - intros H. by rw H in Et.
  - pose proof (length_trim_Z (title f)). lia.
  - intros H. by rw H in Ec.
Qed.

(** C34: while a submission is in progress the form shows [Saving...],
    disables its inputs and buttons, ignores typing in either field and
    refuses a second submission. *)
Theorem saving_locks_form note f v :
  saving f = true ->
  button_label (form_view note f) = "Saving..." /\ inputs_disabled (form_view note f) = true /\
  change_title v f = f /\ change_content v f = f /\ submit f = None.
Proof. intros Hs. by rw /form_view /change_title /change_content /submit Hs. Qed.

(** C35: opening a note for editing and saving it unchanged sends back
    exactly its title and content, when they are trimmed and non-empty as
    every stored note's are ([Server.reachable_notes_wf]). *)
Theorem edit_roundtrip n f :
  trim (NoteModel.title n) = NoteModel.title n -> NoteModel.title n <> [] ->
  trim (NoteModel.content n) = NoteModel.content n -> NoteModel.content n <> [] ->
  handleSubmit (load_note (Some n) f) = Submit (NoteModel.title n) (NoteModel.content n).
Proof.
  intros Ht Htn Hc Hcn. rw /handleSubmit /= Ht Hc !is_empty_false //.
Qed.

Lemma edit_roundtrip_witness :
  let n := NoteModel.mkNote 7 (of_ascii "Shopping") (of_ascii "Milk, eggs") 0 0 0 in
  handleSubmit (load_note (Some n) init) = Submit (NoteModel.title n) (NoteModel.content n).
Proof. intros n. apply edit_roundtrip; vm_compute; first [reflexivity | discriminate]. Defined.

Lemma saving_locks_form_witness :
  let f := mkForm (of_ascii "Shopping") (of_ascii "Milk") true in
  button_label (form_view None f) = "Saving..." /\ inputs_disabled (form_view None f) = true /\
  change_title (of_ascii "x") f = f /\ change_content (of_ascii "x") f = f /\ submit f = None.
Proof. intros f. by apply saving_locks_form. Defined.

Lemma form_title_bounded_witness : length (title (change_title (of_ascii "Shopping") init)) <= 100.
Proof. apply form_title_bounded. apply rtc_once. apply fs_title. Defined.

Lemma submission_valid_witness :
  let f := mkForm (of_ascii " Shopping ") (of_ascii "Milk, eggs") false in
  let t := of_ascii "Shopping" in
  let c := of_ascii "Milk, eggs" in
  trim t = t /\ trim c = c /\ NoteModel.validate t c = None.
Proof.
  intros f t c. apply (submission_valid f).
  - vm_compute. reflexivity.
  - vm_compute. intros H. discriminate.
Defined.

End NoteForm.
