(* ===== verification/Page.v ===== *)
(** * The notes page: [src/app/page.tsx]

    The page keeps four pieces of React state ([PageState]): the list of
    notes, [loading], [showForm] and [editingNote].  Each asynchronous
    handler runs in two parts.  Up to [await fetch(...)] it decides which
    request to send ([Call]); after the response it updates the state from
    the values its closure captured when it was called: [createNote],
    [updateNote] and [deleteNote] compute the new list from the [notes] of
    the render they belong to, not from the list at the time the response
    arrives ([*_recv] take that [captured] list).  A response is [None]
    when [fetch] or [response.json()] throws.  An alert is returned as a
    message; [console.log] is not modelled.  [view] is what the page
    renders, for any date format of the cards.

    The request bodies are [JSON.stringify(noteData)] and the identifiers
    in URLs are the [_id] strings of the notes, the [toHexString] of their
    ObjectIds; the notes of the list are the documents of the server's
    responses (JSON serialisation is the identity on them). *)

From S2P Require Import Prelude JsString Json ObjectId NoteModel Store Api NoteCard.
Import JsString Json NoteModel Store Api NoteCard.

Module Page.

Record PageState := mkPage {
  notes : list INote;
  loading : bool;
  showForm : bool;
  editingNote : option INote
}.

Definition set_notes (ns : list INote) (st : PageState) : PageState :=
  mkPage ns (loading st) (showForm st) (editingNote st).
Definition set_loading (b : bool) (st : PageState) : PageState :=
  mkPage (notes st) b (showForm st) (editingNote st).
Definition set_showForm (b : bool) (st : PageState) : PageState :=
  mkPage (notes st) (loading st) b (editingNote st).
Definition set_editingNote (e : option INote) (st : PageState) : PageState :=
  mkPage (notes st) (loading st) (showForm st) e.

(** [useState<INote[]>([])], [useState(true)], [useState(false)],
    [useState<INote | null>(null)] *)
Definition initial : PageState := mkPage [] true false None.

(** The requests the page sends. *)
Inductive Call : Type :=
| CList
| CCreate (t c : list Z)
| CUpdate (id : Z) (t c : list Z)
| CDelete (id : Z).

#[export] Instance Call_eq_dec : EqDecision Call.
Proof. solve_decision. Defined.

(** [JSON.stringify(noteData)] as the server parses it. *)
Definition note_json (t c : list Z) : jsval :=
  JObj [(of_ascii "title", JStr t); (of_ascii "content", JStr c)].

(** [fetch(url, { method, body })] as the server receives it. *)
Definition send (k : Call) : Server -> Response * Server :=
  match k with
  | CList => Collection.GET
  | CCreate t c => Collection.POST (Some (note_json t c))
  | CUpdate id t c => Member.PUT (ObjectId.toHexString id) (Some (note_json t c))
  | CDelete id => Member.DELETE (ObjectId.toHexString id)
  end.

(** [loadNotes], after [await fetch('/api/notes')]: [data.data || []] on
    success, [[]] otherwise, then [setLoading(false)]. *)
Definition loadNotes_recv (r : option Response) (st : PageState) : PageState :=
  let ns := match r with
            | Some resp =>
                if success (body resp) then
                  match data (body resp) with
                  | Some (PNotes ns) => ns
                  | _ => []
                  end
                else []
            | None => []
            end in
  set_loading false (set_notes ns st).

(** [createNote(noteData)] up to the fetch: the client-side check of the
    trimmed fields ([None] is the alert [Please fill in both fields]). *)
Definition createNote (t c : list Z) : option Call :=
  if (is_empty (trim t) || is_empty (trim c))%bool then None else Some (CCreate t c).

(** After the response: [setNotes([data.data, ...notes])] with the captured
    [notes], and [setShowForm(false)].  A successful answer of the server
    always carries the note ([Backend.POST_outcome]); without one the list
    is left as it was. *)
Definition createNote_recv (captured : list INote) (r : option Response) (st : PageState)
    : PageState * option string :=
  match r with
  | Some resp =>
      if ok resp then
        match data (body resp) with
        | Some (PNote n) => (set_showForm false (set_notes (n :: captured) st), None)
        | _ => (set_showForm false st, None)
        end
      else (st, Some "Failed to create note")
  | None => (st, Some "Something went wrong")
  end.

(** [notes.map(note => note._id === id ? data.data : note)] *)
Definition replace_note (id : Z) (n : INote) (ns : list INote) : list INote :=
  map (fun note => if bool_decide (_id note = id) then n else note) ns.

(** [updateNote(id, noteData)] after the response. *)
Definition updateNote_recv (captured : list INote) (id : Z) (r : option Response)
    (st : PageState) : PageState * option string :=
  match r with
  | Some resp =>
      if ok resp then
        match data (body resp) with
        | Some (PNote n) => (set_editingNote None (set_notes (replace_note id n captured) st), None)
        | _ => (set_editingNote None st, None)
        end
      else (st, Some "Failed to update note")
  | None => (st, Some "Error updating note")
  end.

(** [notes.filter(note => note._id !== id)] *)
Definition remove_note (id : Z) (ns : list INote) : list INote :=
  filter (fun note => _id note <> id) ns.

(** [deleteNote(id)] up to the fetch: [confirm('Delete this note?')]. *)
Definition deleteNote (confirmed : bool) (id : Z) : option Call :=
  if confirmed then Some (CDelete id) else None.

(** [deleteNote(id)] in the [then] of the fetch. *)
Definition deleteNote_recv (captured : list INote) (id : Z) (r : option Response)
    (st : PageState) : PageState * option string :=
  match r with
  | Some resp =>
      if ok resp then (set_notes (remove_note id captured) st, None)
      else (st, Some "Failed to delete note")
  | None => (st, Some "Error deleting note")
  end.

(** The continuation of a request, with the list its closure captured. *)
Definition recv (k : Call) (captured : list INote) (r : option Response) (st : PageState)
    : PageState * option string :=
  match k with
  | CList => (loadNotes_recv r st, None)
  | CCreate _ _ => createNote_recv captured r st
  | CUpdate id _ _ => updateNote_recv captured id r st
  | CDelete id => deleteNote_recv captured id r st
  end.

(** ** The synchronous events of the page *)

(** The header button: [setShowForm(!showForm)]. *)
Definition toggle_form (st : PageState) : PageState := set_showForm (negb (showForm st)) st.

(** A card's Edit button: [setEditingNote(note)]. *)
Definition edit_note (n : INote) (st : PageState) : PageState := set_editingNote (Some n) st.

(** The form's Cancel: [setShowForm(false); setEditingNote(null)]. *)
Definition cancel_form (st : PageState) : PageState :=
  set_editingNote None (set_showForm false st).

(** The form's [onSubmit]: [editingNote ? (data) => updateNote(editingNote._id!,
    data) : createNote]. *)
Definition form_submit (st : PageState) (t c : list Z) : option Call :=
  match editingNote st with
  | Some n => Some (CUpdate (_id n) t c)
  | None => createNote t c
  end.

(** The form is rendered when [showForm || editingNote]. *)
Definition form_visible (st : PageState) : bool :=
  showForm st || bool_decide (is_Some (editingNote st)).

(** The callbacks a card calls: [onEdit={(note) => setEditingNote(note)}]
    and [onDelete={deleteNote}] (with the answer of [confirm]). *)
Definition on_card (cb : Callback) (confirmed : bool) (st : PageState) : PageState * option Call :=
  match cb with
  | OnEdit n => (edit_note n st, None)
  | OnDelete id => (st, deleteNote confirmed id)
  end.

(** ** What the page renders *)

Inductive Grid : Type :=
| EmptyGrid
| CardGrid (cards : list CardView).

Inductive PageView : Type :=
| Spinner
| Main (header_button : list Z) (form : option (option INote)) (grid : Grid).

Section View.
Variable formatDate : Z -> list Z.

(** [if (loading) return <div>Loading notes...</div>]; otherwise the
    header button ([showForm ? 'Cancel' : 'New Note']), the form with
    [note={editingNote}] when [showForm || editingNote], and the empty
    message when [notes.length === 0], else one card per note. *)
Definition view (st : PageState) : PageView :=
  if loading st then Spinner
  else Main (if showForm st then of_ascii "Cancel" else of_ascii "New Note")
            (if form_visible st then Some (editingNote st) else None)
            (match notes st with
             | [] => EmptyGrid
             | ns => CardGrid (map (render formatDate) ns)
             end).

End View.

End Page.
