(* ===== verification/Contract.v ===== *)
(** * What the page relies on from the server

    The page talks to the server only through the answers of its four
    requests.  [Backend] names what a server offers the page: the answer
    to a request and the next state ([backend_send]), the collection of
    notes it holds ([collection]), its clock ([now]), an invariant
    ([backend_inv]), the identifiers it hands out ([id_ok]) and what may
    happen between requests ([env_step]: time passing, outages).
    [BackendSpec] states the promises: every answer either reports a
    failure ([ok] false) and leaves the collection alone, or reports
    success and made exactly the change its request asks for.  The client
    theorems of [Client] are proved from these laws only; [Backend.v]
    shows that the handlers of [Api] satisfy them. *)

From S2P Require Import Prelude NoteModel Store Api Page.
From Stdlib Require Import Sorted.
Import NoteModel Store Api Page.

Module Contract.

Class Backend (St : Type) := {
  backend_send : Call -> St -> Response * St;
  collection : St -> gmap Z INote;
  now : St -> Z;
  backend_inv : St -> Prop;
  id_ok : Z -> Prop;
  env_step : St -> St -> Prop
}.

Class BackendSpec (St : Type) `{Backend St} := {
  inv_send k s : backend_inv s -> backend_inv (snd (backend_send k s));
  inv_env s s' : env_step s s' -> backend_inv s -> backend_inv s';
  env_collection s s' : env_step s s' -> collection s' = collection s;
  env_now s s' : env_step s s' -> now s <= now s';
  inv_notes s id n :
    backend_inv s -> collection s !! id = Some n ->
    _id n = id /\ id_ok id /\ createdAt n <= now s;
  spec_list s :
    backend_inv s ->
    let (r, s') := backend_send CList s in
    collection s' = collection s /\ now s' = now s /\
    (success (body r) = true ->
     exists ns, data (body r) = Some (PNotes ns) /\
       ns ≡ₚ map snd (map_to_list (collection s)) /\ Sorted newer_first ns);
  spec_create s t c :
    backend_inv s ->
    let (r, s') := backend_send (CCreate t c) s in
    now s' = now s /\
    ((ok r = false /\ collection s' = collection s) \/
     (exists n, ok r = true /\ data (body r) = Some (PNote n) /\
        collection s !! _id n = None /\ collection s' = <[_id n := n]> (collection s) /\
        createdAt n = now s));
  spec_update s id t c :
    backend_inv s -> id_ok id ->
    let (r, s') := backend_send (CUpdate id t c) s in
    now s' = now s /\
    ((ok r = false /\ collection s' = collection s) \/
     (exists n n', ok r = true /\ data (body r) = Some (PNote n') /\
        collection s !! id = Some n /\ collection s' = <[id := n']> (collection s) /\
        _id n' = id /\ createdAt n' = createdAt n));
  spec_delete s id :
    backend_inv s -> id_ok id ->
    let (r, s') := backend_send (CDelete id) s in
    now s' = now s /\
    ((ok r = false /\ collection s' = collection s) \/
     (ok r = true /\ collection s' = delete id (collection s)))
}.

End Contract.
