(* ===== verification/Backend.v ===== *)
(** * The handlers of [Api] keep the promises of [Contract]

    The server of [Store] and [Server], reached through the requests the
    page sends ([Page.send]), is an instance of [Contract.Backend]: the
    collection is [docs], the clock is [clock], the invariant is
    [store_inv], the identifiers are the 96-bit ObjectIds and the steps
    between requests are [Server.env].  Each law of [Contract.BackendSpec]
    follows from the outcome of the handler on every branch
    ([POST_outcome], [PUT_outcome], [DELETE_outcome], [GET_list_outcome]),
    which in turn follows from the outcome lemmas of the model calls. *)

From S2P Require Import Prelude JsString Json ObjectId NoteModel Store Api Server Page Contract.
From Stdlib Require Import Sorted.
Import JsString Json NoteModel Store Api Server Page Contract.

Module Backend.

(** The fields of the body the page sends. *)
Lemma note_json_title t c :
  own_prop (of_ascii "title") [(of_ascii "title", JStr t); (of_ascii "content", JStr c)] = Some (JStr t).
Proof. reflexivity. Qed.

Lemma note_json_content t c :
  own_prop (of_ascii "content") [(of_ascii "title", JStr t); (of_ascii "content", JStr c)] = Some (JStr c).
Proof. reflexivity. Qed.

(** A failed answer that changed neither the collection nor the clock. *)
Definition unchanged (r : Response) (s s' : Server) : Prop :=
  ok r = false /\ docs s' = docs s /\ clock s' = clock s.

Lemma unchanged_refl r s : ok r = false -> unchanged r s s.
Proof. by intros. Qed.

Lemma unchanged_connected r s : ok r = false -> unchanged r s (set_connected true s).
Proof. by intros. Qed.

#[export] Hint Resolve unchanged_refl unchanged_connected : notes.

Ltac answer := first [left; apply unchanged_connected; reflexivity
                     | left; apply unchanged_refl; reflexivity].

(** [POST /api/notes] with the body of [createNote]: a failure that
    changes nothing, or 201 with a note stored under a fresh identifier
    and stamped with the present. *)
Lemma POST_outcome s t c :
  let (r, s') := Collection.POST (Some (note_json t c)) s in
  unchanged r s s' \/
  (exists n, ok r = true /\ data (body r) = Some (PNote n) /\ docs s !! _id n = None /\
     docs s' = <[_id n := n]> (docs s) /\ clock s' = clock s /\ createdAt n = clock s /\
     _id n = next_oid s /\ db_up s = true).
Proof.
  rw /Collection.POST catch_500_connect.
  destruct (connected s || db_up s)%bool; [|answer].
  rw /catch_500. api_run. body_fields (note_json_title t c) (note_json_content t c).
  destruct (is_empty t), (is_empty c); cbn -[trim is_empty create]; try answer.
  destruct (is_empty (trim t)), (is_empty (trim c)); cbn -[trim is_empty create]; try answer.
  pose proof (create_outcome (set_connected true s) (trim t) (trim c)) as Ho.
  destruct (create (trim t) (trim c) (set_connected true s)) as [[n|e] s'];
    cbn -[trim is_empty create].
  - destruct Ho as (Hup & Hf & _ & -> & Hd & Hc). right. eexists. by split_and!.
  - destruct Ho as (Hd & Hc). left. by split_and!.
Qed.

(** [PUT /api/notes/[id]] on the printed form of a 96-bit identifier,
    with the body of [updateNote]. *)
Lemma PUT_outcome s id t c :
  0 <= id < 2 ^ 96 ->
  let (r, s') := Member.PUT (ObjectId.toHexString id) (Some (note_json t c)) s in
  unchanged r s s' \/
  (exists n, ok r = true /\ docs s !! id = Some n /\
     let n' := apply_update n (trim t) (trim c) (clock s) in
     data (body r) = Some (PNote n') /\ docs s' = <[id := n']> (docs s) /\ clock s' = clock s /\
     db_up s = true).
Proof.
  intros Hb. pose proof (ObjectId.of_string_toHexString _ Hb) as Hid.
  generalize dependent (ObjectId.toHexString id). intros hid Hid.
  rw /Member.PUT catch_500_connect.
  destruct (connected s || db_up s)%bool; [|answer].
  rw /catch_500 (id_checked _ _ _ _ _ Hid). api_run.
  body_fields (note_json_title t c) (note_json_content t c).
  destruct (is_empty t), (is_empty c); cbn -[trim is_empty findByIdAndUpdate]; try answer.
  destruct (is_empty (trim t)), (is_empty (trim c)); cbn -[trim is_empty findByIdAndUpdate];
    try answer.
  pose proof (findByIdAndUpdate_outcome (set_connected true s) hid
                (trim t) (trim c)) as Ho.
  destruct (findByIdAndUpdate _ _ _ _) as [[[n'|]|e] s']; cbn -[trim is_empty].
  - destruct Ho as (oid & n & Hup & Hoid & Hn & -> & Hd & Hc). rw Hid in Hoid. injection Hoid as <-.
    right. exists n. rw !cast_trimmed in Hd |- *. by split_and!.
  - left. by destruct Ho.
  - left. by destruct Ho.
Qed.

(** [DELETE /api/notes/[id]] on the printed form of a 96-bit identifier. *)
Lemma DELETE_outcome s id :
  0 <= id < 2 ^ 96 ->
  let (r, s') := Member.DELETE (ObjectId.toHexString id) s in
  unchanged r s s' \/
  (ok r = true /\ docs s' = delete id (docs s) /\ clock s' = clock s /\ db_up s = true).
Proof.
  intros Hb. pose proof (ObjectId.of_string_toHexString _ Hb) as Hid.
  generalize dependent (ObjectId.toHexString id). intros hid Hid.
  rw /Member.DELETE catch_500_connect.
  destruct (connected s || db_up s)%bool; [|answer].
  rw /catch_500 (id_checked _ _ _ _ _ Hid).
  pose proof (findByIdAndDelete_outcome (set_connected true s) hid) as Ho.
  rw /bind. destruct (findByIdAndDelete _ _) as [[[n|]|e] s']; cbn.
  - destruct Ho as (oid & Hup & Hoid & Hn & Hd & Hc). rw Hid in Hoid. injection Hoid as <-.
    right. by split_and!.
  - left. by destruct Ho.
  - left. by destruct Ho.
Qed.

(** [GET /api/notes]: the collection is untouched; a successful answer
    lists it, newest first. *)
Lemma GET_list_outcome s :
  let (r, s') := Collection.GET s in
  docs s' = docs s /\ clock s' = clock s /\
  (success (body r) = true -> data (body r) = Some (PNotes (sort_desc (map snd (map_to_list (docs s)))))).
Proof.
  rw /Collection.GET catch_500_connect.
  destruct (connected s || db_up s)%bool; [|done].
  pose proof (find_sorted_outcome (set_connected true s)) as Ho.
  rw /catch_500 /bind. destruct (find_sorted _) as [[ns|e] s']; cbn.
  - by destruct Ho as [-> ->].
  - by subst s'.
Qed.

(** ** The instance *)

#[export] Instance server_backend : Backend Server := {|
  backend_send := send;
  collection := docs;
  now := clock;
  backend_inv := store_inv;
  id_ok id := 0 <= id < 2 ^ 96;
  env_step := env
|}.

Lemma send_inv k s : store_inv s -> store_inv (snd (send k s)).
Proof.
  destruct k; [apply (dispatch_inv ListNotes) | apply (dispatch_inv (CreateNote _))
              | apply (dispatch_inv (UpdateNote _ _)) | apply (dispatch_inv (DeleteNote _))].
Qed.

Lemma store_inv_lookup s id n :
  store_inv s -> docs s !! id = Some n -> note_wf (clock s) id n.
Proof. intros Hs Hn. exact (map_Forall_lookup_1 _ _ _ _ Hs Hn). Qed.

#[export] Instance server_backend_spec : BackendSpec Server.
Proof.
  split; cbn.
  - apply send_inv.
  - apply env_inv.
  - intros s s' He. by apply env_docs.
  - intros s s' He. by apply env_docs.
  - intros s id n Hs Hn. destruct (store_inv_lookup _ _ _ Hs Hn) as (? & ? & ? & ? & _).
    split_and!; try done; lia.
  - intros s _. pose proof (GET_list_outcome s) as Ho.
    destruct (Collection.GET s) as [r s']. destruct Ho as (Hd & Hc & Hl).
    split_and!; [done|done|]. intros Hsucc. eexists. split; [by apply Hl|].
    split; [apply sort_desc_perm | apply sort_desc_sorted].
  - intros s t c _. pose proof (POST_outcome s t c) as Ho.
    destruct (Collection.POST _ s) as [r s'].
    destruct Ho as [(Hok & Hd & Hc) | (n & Hok & Hn & Hf & Hd & Hc & Hca & _)].
    + split; [done|]. by left.
    + split; [done|]. right. by exists n.
  - intros s id t c Hs Hb. pose proof (PUT_outcome s id t c Hb) as Ho.
    destruct (Member.PUT _ _ s) as [r s'].
    destruct Ho as [(Hok & Hd & Hc) | (n & Hok & Hn & Hr & Hd & Hc & _)].
    + split; [done|]. by left.
    + split; [done|]. right. destruct (store_inv_lookup _ _ _ Hs Hn) as (Hid & _).
      by exists n, (apply_update n (trim t) (trim c) (clock s)).
  - intros s id _ Hb. pose proof (DELETE_outcome s id Hb) as Ho.
    destruct (Member.DELETE _ s) as [r s'].
    destruct Ho as [(Hok & Hd & Hc) | (Hok & Hd & Hc & _)].
    + split; [done|]. by left.
    + split; [done|]. by right.
Qed.

End Backend.
