(* ===== verification/ClientList.v ===== *)
(** * The page's list against the server's collection

    [agree ns m] says that the list [ns] the page shows holds exactly the
    documents of the collection [m], each once: the identifiers of [ns]
    are distinct and a document is in [m] under [i] exactly when it is in
    [ns] with [_id = i].  The three edits the page makes to its list
    ([n :: notes], [Page.replace_note], [Page.remove_note]) agree with the
    three changes of the collection ([insert] of a fresh key, [insert] of
    an existing key, [delete]), and keep the list sorted newest first. *)

From S2P Require Import Prelude NoteModel Store Page.
From Stdlib Require Import Sorted.
Import NoteModel Store Page.

Module ClientList.

Definition agree (ns : list INote) (m : gmap Z INote) : Prop :=
  NoDup (map _id ns) /\ forall i n, m !! i = Some n <-> n ∈ ns /\ _id n = i.

(** ** Membership in the edited lists *)

Lemma elem_of_remove_note id x ns : x ∈ remove_note id ns <-> x ∈ ns /\ _id x <> id.
Proof. rw /remove_note list_elem_of_filter. naive_solver. Qed.

Lemma elem_of_replace_note id n' x ns :
  x ∈ replace_note id n' ns <->
  (x = n' /\ exists y, y ∈ ns /\ _id y = id) \/ (x ∈ ns /\ _id x <> id).
Proof.
  rw /replace_note map_fmap list_elem_of_fmap. split.
  - intros (y & -> & Hy). case_bool_decide; naive_solver.
  - intros [(-> & y & Hy & Hid) | (Hx & Hid)].
    + exists y. by rw bool_decide_true.
    + exists x. by rw bool_decide_false.
Qed.

Lemma map_id_replace_note id n' ns :
  _id n' = id -> map _id (replace_note id n' ns) = map _id ns.
Proof.
  intros Hn'. rw /replace_note map_map. apply map_ext. intros x.
  case_bool_decide; congruence.
Qed.

Lemma NoDup_map_filter {A B} (f : A -> B) (P : A -> Prop) `{forall x, Decision (P x)} l :
  NoDup (map f l) -> NoDup (map f (filter P l)).
Proof.
  rw !map_fmap. intros Hl. eapply sublist_NoDup; [exact Hl|].
  apply fmap_sublist, sublist_filter.
Qed.

(** ** The edits agree with the changes of the collection *)

Lemma agree_lookup ns m n : agree ns m -> n ∈ ns -> m !! _id n = Some n.
Proof. intros [_ Hm] Hn. by apply Hm. Qed.

Lemma agree_insert_fresh ns m n :
  agree ns m -> m !! _id n = None -> agree (n :: ns) (<[_id n := n]> m).
Proof.
  intros Ha Hf. pose proof Ha as [Hnd Hm]. split.
  - rw /=. constructor; [|done]. rw map_fmap list_elem_of_fmap. intros (y & Hy & Hyin).
    by rw Hy (agree_lookup ns m y) in Hf.
  - intros i y. rw lookup_insert_Some Hm elem_of_cons. split.
    + naive_solver.
    + intros [[-> | Hy] Hid]; [by left|]. right. split; [|done].
      intros <-. by rw -Hid (agree_lookup ns m y) in Hf.
Qed.

Lemma agree_delete ns m id : agree ns m -> agree (remove_note id ns) (delete id m).
Proof.
  intros [Hnd Hm]. split; [by apply NoDup_map_filter|].
  intros i y. rw lookup_delete_Some Hm elem_of_remove_note. naive_solver.
Qed.

Lemma agree_replace ns m id n n' :
  agree ns m -> m !! id = Some n -> _id n' = id ->
  agree (replace_note id n' ns) (<[id := n']> m).
Proof.
  intros [Hnd Hm] Hn Hn'. split; [by rw map_id_replace_note|].
  apply Hm in Hn as [Hnin Hnid].
  intros i y. rw lookup_insert_Some Hm elem_of_replace_note. naive_solver.
Qed.

Lemma agree_nil ns m : agree ns m -> ns = [] <-> m = ∅.
Proof.
  intros [_ Hm]. split.
  - intros ->. apply map_empty. intros i. destruct (m !! i) as [n|] eqn:E; [|done].
    apply Hm in E as [?%elem_of_nil _]. done.
  - intros ->. destruct ns as [|n ns]; [done|]. exfalso.
    assert (Hn : (∅ : gmap Z INote) !! _id n = Some n) by (apply Hm; split; [left|done]).
    by rw lookup_empty in Hn.
Qed.

(** ** From and to the listing of the collection *)

Lemma agree_perm ns m : agree ns m -> ns ≡ₚ map snd (map_to_list m).
Proof.
  intros [Hnd Hm].
  assert (Hp : map (fun n => (_id n, n)) ns ≡ₚ map_to_list m).
  { apply NoDup_Permutation.
    - rw map_fmap. apply (NoDup_fmap_1 fst). rw -list_fmap_compose. by rw map_fmap in Hnd.
    - apply NoDup_map_to_list.
    - intros [i y]. rw elem_of_map_to_list Hm map_fmap list_elem_of_fmap. naive_solver. }
  rw -Hp map_map. by rw map_id.
Qed.

Lemma perm_agree ns m :
  (forall i n, m !! i = Some n -> _id n = i) ->
  ns ≡ₚ map snd (map_to_list m) -> agree ns m.
Proof.
  intros Hkeys Hp.
  assert (Hfst : map _id (map snd (map_to_list m)) = map fst (map_to_list m)).
  { rw map_map. apply map_ext_in. intros [i y] Hin. apply list_elem_of_In in Hin.
    apply elem_of_map_to_list in Hin. by apply Hkeys. }
  split.
  - rw Hp Hfst map_fmap. apply NoDup_fst_map_to_list.
  - intros i y. rw Hp map_fmap list_elem_of_fmap. split.
    + intros Hy. split; [|by eapply Hkeys]. exists (i, y). by rw elem_of_map_to_list.
    + intros [([j z] & -> & Hz) Hid]. apply elem_of_map_to_list in Hz. rw /= in Hid |- *.
      by rw -Hid (Hkeys _ _ Hz).
Qed.

(** ** The edits keep the list sorted newest first *)

Lemma Sorted_map_createdAt (f : INote -> INote) ns :
  (forall x, x ∈ ns -> createdAt (f x) = createdAt x) ->
  Sorted newer_first ns -> Sorted newer_first (map f ns).
Proof.
  intros Hf Hs. induction Hs as [|x l Hl IH Hhd]; [constructor|]. rw /=. constructor.
  - apply IH. intros y Hy. apply Hf. by right.
  - destruct Hhd as [|y l Hxy]; constructor.
    assert (Hx : createdAt (f x) = createdAt x) by (apply Hf; left).
    assert (Hy : createdAt (f y) = createdAt y) by (apply Hf; right; left).
    unfold newer_first in *. lia.
Qed.

Lemma Sorted_replace_note id n' ns :
  (forall x, x ∈ ns -> _id x = id -> createdAt x = createdAt n') ->
  Sorted newer_first ns -> Sorted newer_first (replace_note id n' ns).
Proof.
  intros Hc. apply Sorted_map_createdAt. intros x Hx. case_bool_decide; [|done].
  symmetry. by apply Hc.
Qed.

Lemma Sorted_remove_note id ns : Sorted newer_first ns -> Sorted newer_first (remove_note id ns).
Proof.
  intros Hs. apply StronglySorted_Sorted.
  assert (Ht : Transitive newer_first) by (intros a b c; rw /newer_first; lia).
  apply Sorted_StronglySorted in Hs; [|done].
  induction Hs as [|x l Hl IH Hx]; [constructor|]. rw /remove_note filter_cons.
  case_decide; [|done]. constructor; [done|].
  apply Forall_forall. intros y Hy. apply (elem_of_remove_note id) in Hy.
  rw Forall_forall in Hx. apply Hx, Hy.
Qed.

Lemma Sorted_cons_newest n ns :
  (forall x, x ∈ ns -> createdAt x <= createdAt n) ->
  Sorted newer_first ns -> Sorted newer_first (n :: ns).
Proof.
  intros Hn Hs. constructor; [done|]. destruct ns as [|x ns]; constructor.
  apply Hn. by left.
Qed.

End ClientList.
