(* ===== verification/Client.v ===== *)
(** * The page and the server together

    A state of the whole application ([Sys]) is the server's state, the
    page's state and the requests in flight ([Pending]): the request, the
    list of notes its handler captured when the user triggered it, and its
    reply once there is one ([None] while the server has not answered,
    [Some None] when [fetch] failed).  [sys_step] interleaves the user's
    events ([issues], [ui_step]; nothing is clickable while [loading]), the
    server answering any request in flight, the page running the
    continuation of any answered request, and the server's own steps.

    The theorems here are proved against [Contract.Backend] only: the
    scheduler [run] performs steps of [sys_step] ([run_steps]); while the
    spinner shows, the first load is the only request in flight
    ([loading_only_first_load]); the steps that need no user terminate
    ([network_terminates], which holds by construction: no continuation
    sends a request) and can always empty the requests in flight and end
    the spinner ([quiescence]).  [ClientRefine] defines the sequential use
    ([seq_step]) and proves it correct, [ClientSerial] every interleaving
    without overlapping requests, [ClientHeld] what the page holds under
    every interleaving, [ClientRuns] what two overlapping requests do. *)

From S2P Require Import Prelude JsString NoteModel Store Api Server NoteCard Page Contract Backend ClientList.
From Stdlib Require Import Sorted.
Import JsString NoteModel Store Api Server NoteCard Page Contract Backend ClientList.

Module Client.

Record Pending := mkPending {
  call : Call;
  captured : list INote;
  reply : option (option Response)
}.

(** What the user can send from the page: the form's [onSubmit] while
    the form is shown, or a card's Delete (confirmed). *)
Inductive issues (st : PageState) : Call -> Prop :=
| issue_form t c k :
    loading st = false -> form_visible st = true -> form_submit st t c = Some k -> issues st k
| issue_delete n k :
    loading st = false -> n ∈ notes st -> deleteNote true (_id n) = Some k -> issues st k.

(** The synchronous events of the page. *)
Inductive ui_step : PageState -> PageState -> Prop :=
| ui_toggle st : loading st = false -> ui_step st (toggle_form st)
| ui_edit st n : loading st = false -> n ∈ notes st -> ui_step st (edit_note n st)
| ui_cancel st : loading st = false -> form_visible st = true -> ui_step st (cancel_form st).

Section System.
Context {St : Type} `{Backend St}.

Record Sys := mkSys {
  srv : St;
  page : PageState;
  inflight : list Pending
}.

(** The page has just mounted: [useEffect] has sent [GET /api/notes]. *)
Definition boot (s : St) : Sys := mkSys s initial [mkPending CList [] None].

Definition issue (k : Call) (x : Sys) : Sys :=
  mkSys (srv x) (page x) (inflight x ++ [mkPending k (notes (page x)) None]).

Definition serve (i : nat) (p : Pending) (x : Sys) : Sys :=
  let (r, s') := backend_send (call p) (srv x) in
  mkSys s' (page x) (<[i := mkPending (call p) (captured p) (Some (Some r))]> (inflight x)).

Definition drop (i : nat) (p : Pending) (x : Sys) : Sys :=
  mkSys (srv x) (page x) (<[i := mkPending (call p) (captured p) (Some None)]> (inflight x)).

Definition deliver (i : nat) (p : Pending) (r : option Response) (x : Sys) : Sys :=
  mkSys (srv x) (fst (recv (call p) (captured p) r (page x))) (delete i (inflight x)).

Inductive sys_step : Sys -> Sys -> Prop :=
| sys_issue x k : issues (page x) k -> sys_step x (issue k x)
| sys_serve x i p : inflight x !! i = Some p -> reply p = None -> sys_step x (serve i p x)
| sys_drop x i p : inflight x !! i = Some p -> reply p = None -> sys_step x (drop i p x)
| sys_deliver x i p r :
    inflight x !! i = Some p -> reply p = Some r -> sys_step x (deliver i p r x)
| sys_ui x st' : ui_step (page x) st' -> sys_step x (mkSys (srv x) st' (inflight x))
| sys_env x s' : env_step (srv x) s' -> sys_step x (mkSys s' (page x) (inflight x)).

(** ** A scheduler, to run interleavings given as lists of events

    [act] performs one event when it is enabled: the [j]-th card's Edit
    or Delete, a form submission, the header button, Cancel, or the
    answer, failure or continuation of the [i]-th request in flight. *)
Inductive Action : Type :=
| AToggle | ACancel | AEdit (j : nat) | ADelete (j : nat) | ASubmit (t c : list Z)
| AServe (i : nat) | ADrop (i : nat) | ADeliver (i : nat).

Definition user_act (a : Action) (x : Sys) : option Sys :=
  let st := page x in
  match a with
  | AToggle => Some (mkSys (srv x) (toggle_form st) (inflight x))
  | ACancel => if form_visible st then Some (mkSys (srv x) (cancel_form st) (inflight x)) else None
  | AEdit j => n ← notes st !! j; Some (mkSys (srv x) (edit_note n st) (inflight x))
  | ADelete j => n ← notes st !! j; k ← deleteNote true (_id n); Some (issue k x)
  | ASubmit t c => if form_visible st then k ← form_submit st t c; Some (issue k x) else None
  | _ => None
  end.

Definition act (a : Action) (x : Sys) : option Sys :=
  match a with
  | AServe i => p ← inflight x !! i; if reply p is None then Some (serve i p x) else None
  | ADrop i => p ← inflight x !! i; if reply p is None then Some (drop i p x) else None
  | ADeliver i => p ← inflight x !! i; r ← reply p; Some (deliver i p r x)
  | _ => if loading (page x) then None else user_act a x
  end.

Fixpoint run (acts : list Action) (x : Sys) : option Sys :=
  match acts with
  | [] => Some x
  | a :: acts' => y ← act a x; run acts' y
  end.

(** ** The scheduler performs steps of the system *)

Lemma user_act_step a x y :
  loading (page x) = false -> user_act a x = Some y -> sys_step x y.
Proof.
  intros Hl. destruct a; rw /user_act; intros Hy; simplify_option_eq.
  - by apply sys_ui, ui_toggle.
  - case_match; simplify_eq. by apply sys_ui, ui_cancel.
  - apply sys_ui, ui_edit; [done|]. by eapply list_elem_of_lookup_2.
  - destruct (notes (page x) !! j) as [n|] eqn:Hn; simplify_eq/=.
    apply sys_issue. eapply issue_delete; [done| |done]. by eapply list_elem_of_lookup_2.
  - case_match; simplify_option_eq. apply sys_issue. by eapply issue_form.
Qed.

Lemma act_step a x y : act a x = Some y -> sys_step x y.
Proof.
  destruct a as [| | j | j | t c | i | i | i]; rw /act; intros Hy.
  1-5: destruct (loading (page x)) eqn:Hl; [discriminate|by eapply user_act_step].
  all: destruct (inflight x !! i) as [p|] eqn:Hp; simplify_eq/=.
  - destruct (reply p) eqn:Hr; simplify_eq. by apply sys_serve.
  - destruct (reply p) eqn:Hr; simplify_eq. by apply sys_drop.
  - destruct (reply p) as [r|] eqn:Hr; simplify_eq/=. by eapply sys_deliver.
Qed.

Lemma run_steps acts x y : run acts x = Some y -> rtc sys_step x y.
Proof.
  revert x. induction acts as [|a acts IH]; intros x; rw /=; [by intros [= ->]|].
  destruct (act a x) as [x'|] eqn:Ha; [|done]. intros Hr.
  eapply rtc_l; [by eapply act_step | by apply IH].
Qed.

(** ** Without the user, the application comes to rest

    [net_step] is the part of [sys_step] that needs no user: the server
    answering a request, a [fetch] failing, a continuation running.  No
    continuation sends a request and nothing is retried, so these steps
    cannot go on forever: each lowers [weight], which counts 2 for a
    request not yet answered and 1 for an answer not yet handled. *)
Inductive net_step : Sys -> Sys -> Prop :=
| net_serve x i p : inflight x !! i = Some p -> reply p = None -> net_step x (serve i p x)
| net_drop x i p : inflight x !! i = Some p -> reply p = None -> net_step x (drop i p x)
| net_deliver x i p r :
    inflight x !! i = Some p -> reply p = Some r -> net_step x (deliver i p r x).

Definition pending_weight (p : Pending) : nat := if reply p is None then 2 else 1.

Fixpoint weight (l : list Pending) : nat :=
  match l with
  | [] => 0
  | p :: l' => pending_weight p + weight l'
  end.

Lemma net_step_sys x y : net_step x y -> sys_step x y.
Proof. destruct 1; [by apply sys_serve|by apply sys_drop|by eapply sys_deliver]. Qed.

Lemma weight_insert l i p p' :
  l !! i = Some p -> (pending_weight p' < pending_weight p)%nat ->
  (weight (<[i := p']> l) < weight l)%nat.
Proof.
  revert i. induction l as [|q l IH]; intros [|i] Hi Hw; simplify_eq/=; [lia|].
  specialize (IH i Hi Hw). lia.
Qed.

Lemma weight_delete l i p : l !! i = Some p -> (weight (delete i l) < weight l)%nat.
Proof.
  revert i. induction l as [|q l IH]; intros [|i] Hi; simplify_eq/=.
  - rw /pending_weight. case_match; lia.
  - specialize (IH i Hi). lia.
Qed.

Lemma weight_bound l : (weight l <= 2 * List.length l)%nat.
Proof. induction l as [|p l IH]; [done|]. rw /= /pending_weight. case_match; lia. Qed.

Lemma net_step_weight x y : net_step x y -> (weight (inflight y) < weight (inflight x))%nat.
Proof.
  destruct 1 as [x i p Hi Hr|x i p Hi Hr|x i p r Hi Hr].
  - rw /serve. destruct (backend_send (call p) (srv x)).
    apply (weight_insert _ _ p); [done|]. rw /pending_weight Hr /=. lia.
  - apply (weight_insert _ _ p); [done|]. rw /pending_weight Hr /=. lia.
  - by apply (weight_delete _ _ p).
Qed.

Lemma nsteps_weight n x y :
  nsteps net_step n x y -> (n + weight (inflight y) <= weight (inflight x))%nat.
Proof.
  induction 1 as [|n x y z Hxy _ IH]; [done|].
  pose proof (net_step_weight _ _ Hxy). lia.
Qed.

(** From any state, the steps that need no user terminate: there is
    no infinite sequence of answers, failed fetches and continuations, and
    every sequence has at most twice as many steps as requests in
    flight. *)
Theorem network_terminates x :
  sn net_step x /\
  forall n y, nsteps net_step n x y -> (n <= 2 * List.length (inflight x))%nat.
Proof.
  split.
  - assert (Hwf : well_founded (flip net_step)).
    { apply (wf_projected (R1 := flip net_step) lt (fun x => weight (inflight x))); [|apply lt_wf].
      intros a b Hab. by apply net_step_weight. }
    apply Hwf.
  - intros n y Hn. pose proof (nsteps_weight _ _ _ Hn). pose proof (weight_bound (inflight x)). lia.
Qed.

(** ** Every request in flight can be answered, and the spinner ends *)

(** A load of the list is among the requests in flight. *)
Definition has_load (l : list Pending) : Prop := exists p, p ∈ l /\ call p = CList.

Lemma recv_loading k cap r st : k <> CList -> loading (fst (recv k cap r st)) = loading st.
Proof.
  destruct k; [done|..]; intros _; rw /= ?/createNote_recv ?/updateNote_recv ?/deleteNote_recv;
    repeat case_match; done.
Qed.

Lemma recv_list cap r st : loading (fst (recv CList cap r st)) = false.
Proof. done. Qed.

Lemma has_load_insert l i p p' :
  l !! i = Some p -> call p' = call p -> has_load l -> has_load (<[i := p']> l).
Proof.
  intros Hi Hc (q & Hq & Hql). apply list_elem_of_lookup in Hq as [j Hj].
  destruct (decide (i = j)) as [<-|Hij].
  - exists p'. split; [apply list_elem_of_lookup; exists i; apply list_lookup_insert_eq;
      by eapply lookup_lt_Some|]. rw Hc. rw Hi in Hj. by injection Hj as ->.
  - exists q. split; [|done]. apply list_elem_of_lookup. exists j. by rw list_lookup_insert_ne.
Qed.

Lemma has_load_delete l i p :
  l !! i = Some p -> call p <> CList -> has_load l -> has_load (delete i l).
Proof.
  intros Hi Hc (q & Hq & Hql). exists q. split; [|done].
  rw delete_take_drop. rw -(take_drop_middle l i p Hi) in Hq.
  apply elem_of_app in Hq as [Hq|[->|Hq]%elem_of_cons]; [by apply elem_of_app; left|done|].
  apply elem_of_app. by right.
Qed.

(** The first request in flight can be answered (if it has not been)
    and its continuation run. *)
Lemma first_delivered s st p l :
  exists r s', rtc sys_step (mkSys s st (p :: l)) (mkSys s' (fst (recv (call p) (captured p) r st)) l).
Proof.
  destruct (reply p) as [r|] eqn:Hr.
  - exists r, s. apply rtc_once. by apply (sys_deliver (mkSys s st (p :: l)) 0 p r).
  - destruct (backend_send (call p) s) as [r s'] eqn:Hs.
    exists (Some r), s'. eapply rtc_l; [by apply (sys_serve (mkSys s st (p :: l)) 0 p)|].
    rw /serve /= Hs. apply rtc_once.
    by apply (sys_deliver (mkSys s' st (mkPending (call p) (captured p) (Some (Some r)) :: l)) 0
                (mkPending (call p) (captured p) (Some (Some r))) (Some r)).
Qed.

(** Answering and delivering the requests in flight one by one, from the
    first, empties the list; the page stops loading if it was not
    loading or a load was among them. *)
Lemma drain x :
  exists y, rtc sys_step x y /\ inflight y = [] /\
    (loading (page x) = false \/ has_load (inflight x) -> loading (page y) = false).
Proof.
  destruct x as [s st l]. revert s st. induction l as [|p l IH]; intros s st.
  { exists (mkSys s st []). split_and!; [done|done|]. by intros [?|(? & ?%elem_of_nil & _)]. }
  destruct (first_delivered s st p l) as (r & s' & Hx1).
  destruct (IH s' (fst (recv (call p) (captured p) r st))) as (y & Hy & Hin & Hl).
  exists y. split_and!; [by etrans|done|]. intros Hpre. apply Hl. rw /=.
  destruct (decide (call p = CList)) as [Hc|Hc]; [left; by rw Hc|].
  rw recv_loading //. destruct Hpre as [Hpre|(q & Hq & Hql)]; [by left|right].
  exists q. split; [|done]. apply elem_of_cons in Hq as [->|Hq]; done.
Qed.

Lemma step_has_load x y :
  sys_step x y -> loading (page x) = false \/ has_load (inflight x) ->
  loading (page y) = false \/ has_load (inflight y).
Proof.
  destruct 1 as [x k Hk|x i p Hi Hr|x i p Hi Hr|x i p r Hi Hr|x st' Hu|x s' He]; intros Hpre.
  - left. by destruct Hk.
  - rw /serve. destruct (backend_send (call p) (srv x)). destruct Hpre as [?|?]; [by left|right].
    by eapply has_load_insert.
  - destruct Hpre as [?|?]; [by left|right]. by eapply has_load_insert.
  - rw /deliver /=. destruct (decide (call p = CList)) as [Hc|Hc]; [left; by rw Hc|].
    rw recv_loading //. destruct Hpre as [?|?]; [by left|right]. by eapply has_load_delete.
  - left. by destruct Hu.
  - done.
Qed.

(** In every state reached from the page's mount, the page is not loading
    or its first load is still in flight. *)
Lemma loading_has_load s y :
  rtc sys_step (boot s) y -> loading (page y) = false \/ has_load (inflight y).
Proof.
  assert (Hgen : forall x y, rtc sys_step x y ->
            loading (page x) = false \/ has_load (inflight x) ->
            loading (page y) = false \/ has_load (inflight y)).
  { induction 1; eauto using step_has_load. }
  intros Hr. apply (Hgen _ _ Hr). right. exists (mkPending CList [] None). by split; [left|].
Qed.

(** Only the first load is in flight, answered or not. *)
Definition only_load (l : list Pending) : Prop := exists r, l = [mkPending CList [] r].

Lemma only_load_lookup l i p : only_load l -> l !! i = Some p -> call p = CList /\ captured p = [].
Proof. intros [r ->]. destruct i as [|i]; cbn; [by intros [= <-]|by destruct i]. Qed.

Lemma only_load_insert l i p r : only_load l -> l !! i = Some p -> only_load (<[i := mkPending (call p) (captured p) r]> l).
Proof. intros [r0 ->]. destruct i as [|i]; cbn; [intros [= <-]; by exists r|by destruct i]. Qed.

Lemma step_only_load x y :
  sys_step x y -> loading (page x) = false \/ only_load (inflight x) ->
  loading (page y) = false \/ only_load (inflight y).
Proof.
  destruct 1 as [x k Hk|x i p Hi Hr|x i p Hi Hr|x i p r Hi Hr|x st' Hu|x s' He]; intros Hpre.
  - left. by destruct Hk.
  - rw /serve. destruct (backend_send (call p) (srv x)). destruct Hpre as [?|?]; [by left|right].
    by apply only_load_insert.
  - destruct Hpre as [?|?]; [by left|right]. by apply only_load_insert.
  - left. rw /deliver /=. destruct Hpre as [Hl|Ho].
    + destruct (decide (call p = CList)) as [->|Hc]; [done|by rw recv_loading].
    + by rw (proj1 (only_load_lookup _ _ _ Ho Hi)).
  - left. by destruct Hu.
  - done.
Qed.

(** C27: from the page's mount, under any interleaving, while the page
    shows its spinner the user can do nothing: the only request in flight
    is the first load ([useEffect]'s [loadNotes]), with the empty list it
    captured, answered or not; no step other than that load's continuation
    ends the spinner, and none starts it again. *)
Theorem loading_only_first_load s y :
  rtc sys_step (boot s) y -> loading (page y) = true -> exists r, inflight y = [mkPending CList [] r].
Proof.
  assert (Hgen : forall x y, rtc sys_step x y ->
            loading (page x) = false \/ only_load (inflight x) ->
            loading (page y) = false \/ only_load (inflight y)).
  { induction 1; eauto using step_only_load. }
  intros Hr Hl. destruct (Hgen _ _ Hr) as [Hf|Ho]; [right; by exists None|congruence|done].
Qed.

(** C28: from every state reached after the page mounts, under any
    interleaving, the application can answer every request in flight and
    run its continuation, reaching a state with nothing in flight in which
    the page no longer shows its spinner: [setLoading(false)] runs after
    [loadNotes] whether the load succeeds or fails. *)
Theorem quiescence s y :
  rtc sys_step (boot s) y ->
  exists z, rtc sys_step y z /\ inflight z = [] /\ loading (page z) = false.
Proof.
  intros Hr. destruct (drain y) as (z & Hz & Hin & Hl). exists z. split_and!; [done|done|].
  apply Hl. by apply (loading_has_load s).
Qed.

End System.

Arguments Sys St : clear implicits.

(** ** Example runs on the server of [Backend] *)

(** From the loaded page, the user creates [First], then [Second]. *)
Definition create_two : list Action :=
  [AToggle; ASubmit (of_ascii "First") (of_ascii "a"); AServe 0; ADeliver 0;
   AToggle; ASubmit (of_ascii "Second") (of_ascii "b"); AServe 0; ADeliver 0].

(** The page loads the empty collection, then the user creates two notes. *)
Definition two_notes : list Action := [AServe 0; ADeliver 0] ++ create_two.

Lemma loading_only_first_load_witness :
  let y := default (boot example_start) (run [AServe 0] (boot example_start)) in
  rtc sys_step (boot example_start) y /\ loading (page y) = true /\
  exists r, inflight y = [mkPending CList [] r].
Proof.
  intros y. assert (Hr : rtc sys_step (boot example_start) y).
  { subst y. destruct (run [AServe 0] (boot example_start)) eqn:E; [by eapply run_steps|apply rtc_refl]. }
  assert (Hl : loading (page y) = true) by (subst y; vm_compute; reflexivity).
  split_and!; [exact Hr|exact Hl|]. exact (loading_only_first_load example_start y Hr Hl).
Defined.

Lemma quiescence_witness :
  exists z, rtc sys_step (boot example_start) z /\ inflight z = [] /\ loading (page z) = false.
Proof. apply (quiescence example_start). apply rtc_refl. Defined.

End Client.
