(* ===== verification/ClientRefine.v ===== *)
(** * Sequential use of the page is correct

    When the user waits for each answer before acting again ([seq_step]),
    the page keeps a list equal to the collection of the server, newest
    first ([consistent]): proved from the laws of [Contract.BackendSpec]
    only, by cases on the request the user can send ([issues_cases]) and
    the outcome the contract allows.  Hence the page lists the collection
    ([page_lists_collection]) and renders it so ([view_lists_collection]);
    on the server of [Backend], a request sent while MongoDB is down only
    ever gives an alert ([outage_alerts]). *)

From S2P Require Import Prelude JsString NoteModel Store Api Server NoteCard Page Contract Backend ClientList Client.
From Stdlib Require Import Sorted.
Import JsString NoteModel Store Api Server NoteCard Page Contract Backend ClientList Client.

Module ClientRefine.

(** ** Sequential use keeps the page's list equal to the collection *)

Section Refinement.
Context {St : Type} `{BackendSpec St}.

(** The page once the answer of that first request has been shown. *)
Definition loaded (s : St) : Sys St :=
  mkSys (snd (backend_send CList s)) (loadNotes_recv (Some (fst (backend_send CList s))) initial) [].

(** The user waits for each answer: a request is answered (or fails)
    and its continuation runs before anything else happens. *)
Inductive seq_step : Sys St -> Sys St -> Prop :=
| seq_call s st k : issues st k ->
    seq_step (mkSys s st [])
      (mkSys (snd (backend_send k s)) (fst (recv k (notes st) (Some (fst (backend_send k s))) st)) [])
| seq_fail s st k : issues st k -> seq_step (mkSys s st []) (mkSys s (fst (recv k (notes st) None st)) [])
| seq_ui s st st' : ui_step st st' -> seq_step (mkSys s st []) (mkSys s st' [])
| seq_env s s' st : env_step s s' -> seq_step (mkSys s st []) (mkSys s' st []).

(** No request in flight, and the page lists the collection. *)
Definition consistent (x : Sys St) : Prop :=
  inflight x = [] /\ backend_inv (srv x) /\ agree (notes (page x)) (collection (srv x)) /\
  Sorted newer_first (notes (page x)) /\ loading (page x) = false /\
  (forall e, editingNote (page x) = Some e -> id_ok (_id e)).


(** The identifier a request names is one the server hands out. *)
Definition call_ok (k : Call) : Prop :=
  match k with
  | CUpdate id _ _ | CDelete id => id_ok id
  | _ => True
  end.

(** Running the continuation of [k] with the list [cap] it captured and
    the answer [r], on any page that shows [cap] and is not loading, gives
    a page that lists the collection of [s'] (the server after answering). *)
Definition answered (s' : St) (k : Call) (cap : list INote) (r : Response) : Prop :=
  forall st, notes st = cap -> loading st = false ->
    (forall e, editingNote st = Some e -> id_ok (_id e)) ->
    consistent (mkSys s' (fst (recv k cap (Some r) st)) []).

Lemma listed_note s ns x :
  backend_inv s -> agree ns (collection s) -> x ∈ ns -> id_ok (_id x) /\ createdAt x <= now s.
Proof.
  intros Hs Ha Hx. pose proof (inv_notes s _ _ Hs (agree_lookup _ _ _ Ha Hx)) as (_ & ? & ?).
  by split.
Qed.

(** A failed request leaves the page as it was (an alert is shown). *)
Lemma recv_None k cap st : k <> CList -> fst (recv k cap None st) = st.
Proof. by destruct k. Qed.

Lemma issues_cases st k :
  issues st k ->
  (exists t c, k = CCreate t c /\ editingNote st = None) \/
  (exists e t c, k = CUpdate (_id e) t c /\ editingNote st = Some e) \/
  (exists n, k = CDelete (_id n) /\ n ∈ notes st).
Proof.
  destruct 1 as [t c k Hl Hv Hk | n k Hl Hn Hk].
  - revert Hk. rw /form_submit /createNote. destruct (editingNote st) as [e|] eqn:He.
    + intros [= <-]. right; left. by exists e, t, c.
    + case_match; intros [= <-]. left. by exists t, c.
  - intros. right; right. exists n. by injection Hk as <-.
Qed.

Lemma issues_not_list st k : issues st k -> k <> CList.
Proof. intros Hk ->. by destruct (issues_cases _ _ Hk) as [(? & ? & ? & _)|[(? & ? & ? & ? & _)|(? & ? & _)]]. Qed.

(** The collection did not change: the page still agrees with it. *)
Lemma consistent_same s s' st :
  consistent (mkSys s st []) -> backend_inv s' -> collection s' = collection s ->
  consistent (mkSys s' st []).
Proof. intros (_ & _ & Ha & Hs & Hl & He) Hinv Hc. rw /consistent /= Hc. by split_and!. Qed.

(** A failed answer leaves the page as it was, and the page as it was
    lists the collection. *)
Lemma failed_answered s' k cap r :
  k <> CList -> ok r = false -> backend_inv s' -> agree cap (collection s') ->
  Sorted newer_first cap -> answered s' k cap r.
Proof.
  intros Hk Hok Hs Ha Hsort st <- Hl He.
  destruct k; [done| | |]; rw /= ?/createNote_recv ?/updateNote_recv ?/deleteNote_recv Hok;
    by split_and!.
Qed.

(** The answer of the server to a request the page sends on a list that
    agrees with the collection, run on any page that shows that list. *)
Lemma send_answered s k cap :
  backend_inv s -> agree cap (collection s) -> Sorted newer_first cap -> call_ok k -> k <> CList ->
  answered (snd (backend_send k s)) k cap (fst (backend_send k s)).
Proof.
  intros Hs Ha Hsort Hk Hnl. pose proof (inv_send k s Hs) as Hs'.
  destruct k as [|t c|id t c|id]; [done| | |].
  - pose proof (spec_create s t c Hs) as Hsp. destruct (backend_send _ s) as [r s']; cbn in Hs' |- *.
    destruct Hsp as (_ & [(Hok & Hcol) | (n & Hok & Hd & Hf & Hcol & Hca)]);
      [apply failed_answered; by rw ?Hcol|].
    intros st <- Hl He. rw /= /createNote_recv Hok Hd /consistent /= Hcol. split_and!; try done.
    + by apply agree_insert_fresh.
    + apply Sorted_cons_newest; [|done]. intros x Hx. rw Hca. by eapply listed_note.
  - pose proof (spec_update s id t c Hs Hk) as Hsp. destruct (backend_send _ s) as [r s']; cbn in Hs' |- *.
    destruct Hsp as (_ & [(Hok & Hcol) | (n & n' & Hok & Hd & Hn & Hcol & Hid & Hca)]);
      [apply failed_answered; by rw ?Hcol|].
    intros st <- Hl He. rw /= /updateNote_recv Hok Hd /consistent /= Hcol. split_and!; try done.
    + by eapply agree_replace.
    + apply Sorted_replace_note; [|done]. intros x Hx Hxid.
      pose proof (agree_lookup _ _ _ Ha Hx) as Hlx. rw Hxid Hn in Hlx. by injection Hlx as ->.
  - pose proof (spec_delete s id Hs Hk) as Hsp. destruct (backend_send _ s) as [r s']; cbn in Hs' |- *.
    destruct Hsp as (_ & [(Hok & Hcol) | (Hok & Hcol)]); [apply failed_answered; by rw ?Hcol|].
    intros st <- Hl He. rw /= /deleteNote_recv Hok /consistent /= Hcol. split_and!; try done.
    + by apply agree_delete.
    + by apply Sorted_remove_note.
Qed.

(** What the user sends names a listed note or the note being edited. *)
Lemma issues_call_ok s st k : consistent (mkSys s st []) -> issues st k -> call_ok k.
Proof.
  intros (_ & Hinv & Ha & _ & _ & Hed) Hk.
  destruct (issues_cases _ _ Hk) as [(t & c & -> & _)|[(e & t & c & -> & He)|(n & -> & Hn)]]; cbn.
  - done.
  - by apply Hed.
  - exact (proj1 (listed_note s _ _ Hinv Ha Hn)).
Qed.

Lemma seq_call_consistent s st k :
  consistent (mkSys s st []) -> issues st k ->
  consistent (mkSys (snd (backend_send k s)) (fst (recv k (notes st) (Some (fst (backend_send k s))) st)) []).
Proof.
  intros Hc Hk. pose proof (issues_call_ok _ _ _ Hc Hk) as Hok. destruct Hc as (_ & Hinv & Ha & Hs & Hl & Hed).
  by apply send_answered; [| | | |eapply issues_not_list|..].
Qed.

Lemma ui_consistent s st st' : consistent (mkSys s st []) -> ui_step st st' -> consistent (mkSys s st' []).
Proof.
  intros (_ & Hinv & Ha & Hs & Hl & Hed). destruct 1 as [st Hl'|st n Hl' Hn|st Hl' Hv];
    rw /consistent /=; split_and!; try done.
  intros e [= <-]. by apply (listed_note s (notes st)).
Qed.

Lemma seq_step_consistent x y : consistent x -> seq_step x y -> consistent y.
Proof.
  intros Hc. destruct 1 as [s st k Hk | s st k Hk | s st st' Hu | s s' st He].
  - by apply seq_call_consistent.
  - rw recv_None; [by eapply issues_not_list|done].
  - by eapply ui_consistent.
  - destruct Hc as (_ & Hinv & Hrest). eapply consistent_same; [by split| |].
    + by eapply inv_env.
    + by apply env_collection.
Qed.

Lemma seq_rtc_consistent x y : consistent x -> rtc seq_step x y -> consistent y.
Proof. intros Hc Hr. induction Hr; eauto using seq_step_consistent. Qed.

(** A sequential step is three steps of the system: the request is sent,
    answered (or fails), and its continuation runs. *)
Lemma seq_step_sys x y : seq_step x y -> rtc sys_step x y.
Proof.
  destruct 1 as [s st k Hk | s st k Hk | s st st' Hu | s s' st He].
  - eapply rtc_l; [by apply (sys_issue (mkSys s st []))|].
    eapply rtc_l; [by apply (sys_serve _ 0 (mkPending k (notes st) None))|].
    rw /serve /=. destruct (backend_send k s) as [r s'] eqn:E.
    eapply rtc_l; [by apply (sys_deliver _ 0 (mkPending k (notes st) (Some (Some r))) (Some r))|].
    done.
  - eapply rtc_l; [by apply (sys_issue (mkSys s st []))|].
    eapply rtc_l; [by apply (sys_drop _ 0 (mkPending k (notes st) None))|].
    eapply rtc_l; [by apply (sys_deliver _ 0 (mkPending k (notes st) (Some None)) None)|].
    done.
  - apply rtc_once. by apply (sys_ui (mkSys s st [])).
  - apply rtc_once. by apply (sys_env (mkSys s st [])).
Qed.

Lemma seq_rtc_sys x y : rtc seq_step x y -> rtc sys_step x y.
Proof. induction 1; [done|]. etrans; [by apply seq_step_sys|done]. Qed.

(** The first answer, when it succeeds, gives a page that lists the
    collection. *)
Lemma boot_consistent s :
  backend_inv s -> success (body (fst (backend_send CList s))) = true ->
  rtc sys_step (boot s) (loaded s) /\ consistent (loaded s).
Proof.
  intros Hinv Hsucc. pose proof (inv_send CList s Hinv) as Hinv'.
  pose proof (spec_list s Hinv) as Hsp. rw /loaded.
  destruct (backend_send CList s) as [r s'] eqn:E. destruct Hsp as (Hcol & Hnow & Hl).
  destruct (Hl Hsucc) as (ns & Hd & Hp & Hs). split.
  - eapply rtc_l; [by apply (sys_serve (boot s) 0 (mkPending CList [] None))|].
    rw /serve /= E. eapply rtc_l; [by apply (sys_deliver _ 0 (mkPending CList [] (Some (Some r))) (Some r))|].
    done.
  - rw /consistent /loadNotes_recv /= Hsucc Hd /=. split_and!; try done.
    apply perm_agree; [|by rw Hcol].
    intros i n Hn. by destruct (inv_notes s' i n Hinv' Hn).
Qed.

(** C24: once the page has shown a successful first answer, as long as the
    user waits for each answer before acting again, every state the page
    and the server reach (through answers, failed requests, the buttons
    of the page, time passing and outages) is a state of the application
    with no request in flight in which the page lists exactly the notes of
    the collection, each once, newest first.  Proved from the laws of
    [Contract.BackendSpec] only. *)
Theorem page_lists_collection s y :
  backend_inv s -> success (body (fst (backend_send CList s))) = true ->
  rtc seq_step (loaded s) y ->
  rtc sys_step (boot s) y /\ inflight y = [] /\
  notes (page y) ≡ₚ map snd (map_to_list (collection (srv y))) /\ Sorted newer_first (notes (page y)).
Proof.
  intros Hinv Hsucc Hr. destruct (boot_consistent s Hinv Hsucc) as [Hb Hc].
  pose proof (seq_rtc_consistent _ _ Hc Hr) as (Hin & _ & Ha & Hs & _).
  split_and!; [|done|by apply agree_perm|done].
  etrans; [exact Hb|]. by apply seq_rtc_sys.
Qed.

Lemma map_card_key fmt ns : map card_key (map (render fmt) ns) = map _id ns.
Proof. by rw map_map. Qed.

(** C32: in the same states, what the page renders matches the
    collection: the message [No notes yet!] exactly when no note is
    stored, and otherwise one card per stored note, with pairwise
    distinct React keys; for any locale's date format. *)
Theorem view_lists_collection fmt s y :
  backend_inv s -> success (body (fst (backend_send CList s))) = true ->
  rtc seq_step (loaded s) y ->
  ((exists h f, view fmt (page y) = Main h f EmptyGrid) <-> collection (srv y) = ∅) /\
  forall h f cs, view fmt (page y) = Main h f (CardGrid cs) ->
    NoDup (map card_key cs) /\ cs ≡ₚ map (render fmt) (map snd (map_to_list (collection (srv y)))).
Proof.
  intros Hinv Hsucc Hr. destruct (boot_consistent s Hinv Hsucc) as [_ Hc].
  destruct (seq_rtc_consistent _ _ Hc Hr) as (_ & _ & Ha & _ & Hl & _).
  pose proof (agree_nil _ _ Ha) as Hnil. pose proof (agree_perm _ _ Ha) as Hp.
  rw /view Hl. split.
  - rw -Hnil. destruct (notes (page y)); [by split; eauto|].
    split; [by intros (? & ? & ?)|done].
  - intros h f cs Hv. destruct (notes (page y)) as [|n ns] eqn:E; [done|].
    injection Hv as _ _ <-.
    change (render fmt n :: map (render fmt) ns) with (map (render fmt) (n :: ns)).
    rw map_card_key. split; [by destruct Ha|].
    by rw Hp.
Qed.

End Refinement.

(** ** While MongoDB is down *)

(** C36: in a state where the page lists the collection and MongoDB cannot
    be reached, every request the user can send fails: the answer is not
    [ok], the collection is unchanged, and the page shows an alert and
    keeps its state. *)
Theorem outage_alerts s st k :
  consistent (mkSys s st []) -> db_up s = false -> issues st k ->
  let (r, s') := send k s in
  ok r = false /\ docs s' = docs s /\ exists msg, recv k (notes st) (Some r) st = (st, Some msg).
Proof.
  intros (_ & Hinv & Ha & _ & _ & Hed) Hdown Hk.
  destruct (issues_cases _ _ Hk) as [(t & c & -> & He)|[(e & t & c & -> & He)|(n & -> & Hn)]].
  - pose proof (POST_outcome s t c) as Ho. rw /send. destruct (Collection.POST _ s) as [r s'].
    destruct Ho as [(Hok & Hd & _)|(? & _ & _ & _ & _ & _ & _ & _ & Hup)]; [|congruence].
    split_and!; [done|done|]. rw /= /createNote_recv Hok. by eexists.
  - pose proof (PUT_outcome s (_id e) t c (Hed e He)) as Ho. rw /send.
    destruct (Member.PUT _ _ s) as [r s'].
    destruct Ho as [(Hok & Hd & _)|(? & _ & _ & _ & _ & _ & Hup)]; [|congruence].
    split_and!; [done|done|]. rw /= /updateNote_recv Hok. by eexists.
  - pose proof (DELETE_outcome s (_id n) (proj1 (listed_note s _ _ Hinv Ha Hn))) as Ho. rw /send.
    destruct (Member.DELETE _ s) as [r s'].
    destruct Ho as [(Hok & Hd & _)|(_ & _ & _ & Hup)]; [|congruence].
    split_and!; [done|done|]. rw /= /deleteNote_recv Hok. by eexists.
Qed.

Lemma view_lists_collection_witness :
  let fmt := fun _ : Z => of_ascii "today" in
  ((exists h f, view fmt (page (loaded example_start)) = Main h f EmptyGrid) <->
     collection (srv (loaded example_start)) = ∅) /\
  forall h f cs, view fmt (page (loaded example_start)) = Main h f (CardGrid cs) ->
    NoDup (map card_key cs) /\
    cs ≡ₚ map (render fmt) (map snd (map_to_list (collection (srv (loaded example_start))))).
Proof.
  intros fmt. apply (view_lists_collection fmt example_start (loaded example_start)).
  - apply init_inv.
  - vm_compute. reflexivity.
  - apply rtc_refl.
Defined.

Lemma outage_alerts_witness :
  let s := mkServer ∅ 1700000000000 5 12345 false false in
  let st := mkPage [] false true None in
  let k := CCreate (of_ascii "Shopping") (of_ascii "Milk") in
  let (r, s') := send k s in
  ok r = false /\ docs s' = docs s /\ exists msg, recv k (notes st) (Some r) st = (st, Some msg).
Proof.
  intros s st k. apply (outage_alerts s st k).
  - split_and!; [done|apply map_Forall_empty| |constructor|done|by intros e].
    split; [constructor|]. intros i n. rw lookup_empty. split; [done|by intros [?%elem_of_nil _]].
  - reflexivity.
  - by apply (issue_form st (of_ascii "Shopping") (of_ascii "Milk")).
Defined.

Lemma page_lists_collection_witness :
  rtc sys_step (boot example_start) (loaded example_start) /\ inflight (loaded example_start) = [] /\
  notes (page (loaded example_start)) ≡ₚ
    map snd (map_to_list (collection (srv (loaded example_start)))) /\
  Sorted newer_first (notes (page (loaded example_start))).
Proof.
  apply (page_lists_collection example_start (loaded example_start)).
  - apply init_inv.
  - vm_compute. reflexivity.
  - apply rtc_refl.
Defined.

End ClientRefine.
