(* ===== verification/ClientHeld.v ===== *)
(** * What the page holds, under every interleaving

    The notes the page holds in a state of the application ([held]) are
    the notes of its list, the note being edited, the lists the closures
    of the requests in flight captured, and the notes of the answers that
    their continuations will read ([held_in_reply]: the list of a
    successful [GET], the note of an [ok] answer to [POST] or [PUT]).
    Whatever the user and the network interleave, every note the page
    holds came from the collection of the server: any property [P] that
    every stored note has, the page's notes have too
    ([held_from_collection], proved from [Contract.BackendSpec] by
    induction on [sys_step]).  On the server of [Backend] the stored notes
    pass the schema, so the page never holds a note the schema rejects
    ([held_notes_valid]). *)

From S2P Require Import Prelude JsString NoteModel Store Api Server Page Contract Backend ClientList Client ClientRefine.
Import JsString NoteModel Store Api Server Page Contract Backend ClientList Client ClientRefine.

Module ClientHeld.

(** The notes an answer's [data] carries. *)
Definition payload_notes (d : option Payload) : list INote :=
  match d with
  | Some (PNote n) => [n]
  | Some (PNotes ns) => ns
  | None => []
  end.

(** The notes of a reply that the continuation of [k] reads: [loadNotes]
    reads [data.data] when [success], [createNote] and [updateNote] when
    [response.ok]; [deleteNote] reads nothing. *)
Definition held_in_reply (k : Call) (r : option (option Response)) : list INote :=
  match r with
  | Some (Some resp) =>
      match k with
      | CList => if success (body resp) then payload_notes (data (body resp)) else []
      | CCreate _ _ | CUpdate _ _ _ => if ok resp then payload_notes (data (body resp)) else []
      | CDelete _ => []
      end
  | _ => []
  end.

Definition held_pending (p : Pending) : list INote := captured p ++ held_in_reply (call p) (reply p).

Definition held {St} (x : Sys St) : list INote :=
  notes (page x) ++ option_list (editingNote (page x)) ++ List.concat (map held_pending (inflight x)).

Lemma Forall_concat_map {A B} (Q : B -> Prop) (f : A -> list B) l :
  Forall Q (List.concat (map f l)) <-> Forall (fun a => Forall Q (f a)) l.
Proof. induction l as [|a l IH]; [by split|]. by rw /= Forall_app IH Forall_cons. Qed.

Section Held.
Context {St : Type} `{BackendSpec St}.
Variable P : INote -> Prop.
Hypothesis stored_P : forall s i n, backend_inv s -> collection s !! i = Some n -> P n.

(** What every note the page holds has: [P], and an identifier the server
    hands out (so that [PUT] and [DELETE] on it are covered by the
    contract). *)
Definition stored_ok (n : INote) : Prop := P n /\ id_ok (_id n).

Definition pending_ok (p : Pending) : Prop := call_ok (call p) /\ Forall stored_ok (held_pending p).

Definition held_inv (x : Sys St) : Prop :=
  backend_inv (srv x) /\ Forall stored_ok (notes (page x)) /\
  Forall stored_ok (option_list (editingNote (page x))) /\ Forall pending_ok (inflight x).

Lemma stored_ok_lookup s i n : backend_inv s -> collection s !! i = Some n -> stored_ok n.
Proof.
  intros Hs Hn. destruct (inv_notes s i n Hs Hn) as (Hi & Hid & _).
  split; [by eapply stored_P|by rw Hi].
Qed.

Lemma stored_ok_listing s ns :
  backend_inv s -> ns ≡ₚ map snd (map_to_list (collection s)) -> Forall stored_ok ns.
Proof.
  intros Hs ->. apply Forall_forall. intros n. rw map_fmap list_elem_of_fmap.
  intros ([i n'] & -> & Hin). apply elem_of_map_to_list in Hin. by eapply stored_ok_lookup.
Qed.

(** The answer of the server to a request carries only stored notes. *)
Lemma reply_ok k s :
  backend_inv s -> call_ok k ->
  Forall stored_ok (held_in_reply k (Some (Some (fst (backend_send k s))))).
Proof.
  intros Hs Hk. pose proof (inv_send k s Hs) as Hs'. destruct k as [|t c|id t c|id]; cbn.
  - pose proof (spec_list s Hs) as Hsp. destruct (backend_send CList s) as [r s']; cbn.
    destruct Hsp as (_ & _ & Hl). destruct (success (body r)) eqn:E; [|constructor].
    destruct (Hl eq_refl) as (ns & -> & Hp & _). by apply (stored_ok_listing s).
  - pose proof (spec_create s t c Hs) as Hsp. destruct (backend_send _ s) as [r s']; cbn.
    destruct Hsp as (_ & [(-> & _)|(n & -> & -> & _ & Hcol & _)]); [constructor|].
    apply Forall_singleton. apply (stored_ok_lookup s' (_id n)); [done|]. by rw Hcol lookup_insert_eq.
  - pose proof (spec_update s id t c Hs Hk) as Hsp. destruct (backend_send _ s) as [r s']; cbn.
    destruct Hsp as (_ & [(-> & _)|(n & n' & -> & -> & _ & Hcol & _)]); [constructor|].
    apply Forall_singleton. apply (stored_ok_lookup s' id); [done|]. by rw Hcol lookup_insert_eq.
  - constructor.
Qed.

Lemma Forall_replace_note id n ns :
  Forall stored_ok ns -> stored_ok n -> Forall stored_ok (replace_note id n ns).
Proof.
  rw !Forall_forall. intros Hns Hn x Hx. apply elem_of_replace_note in Hx as [[-> _]|[Hx _]]; auto.
Qed.

Lemma Forall_remove_note id ns : Forall stored_ok ns -> Forall stored_ok (remove_note id ns).
Proof. rw !Forall_forall. intros Hns x Hx. apply elem_of_remove_note in Hx as [Hx _]. auto. Qed.

(** A continuation builds the page's list and edited note from the page,
    the list it captured and the notes of the answer it reads. *)
Lemma recv_ok k cap r st :
  Forall stored_ok (notes st) -> Forall stored_ok (option_list (editingNote st)) ->
  Forall stored_ok cap -> Forall stored_ok (held_in_reply k (Some r)) ->
  Forall stored_ok (notes (fst (recv k cap r st))) /\
  Forall stored_ok (option_list (editingNote (fst (recv k cap r st)))).
Proof.
  intros Hn He Hc Hr. destruct k as [|t c|id t c|id], r as [resp|]; cbn in Hr |- *; try done;
    rw ?/loadNotes_recv ?/createNote_recv ?/updateNote_recv ?/deleteNote_recv.
  - destruct (success (body resp)); [|done]. destruct (data (body resp)) as [[]|]; done.
  - destruct (ok resp); [|done]. destruct (data (body resp)) as [[n|]|]; try done.
    inv Hr. split; [by constructor|done].
  - destruct (ok resp); [|done]. destruct (data (body resp)) as [[n|]|]; try done.
    inv Hr. split; [by apply Forall_replace_note|constructor].
  - destruct (ok resp); [|done]. split; [by apply Forall_remove_note|done].
Qed.

Lemma issues_ok st k :
  Forall stored_ok (notes st) -> Forall stored_ok (option_list (editingNote st)) ->
  issues st k -> call_ok k.
Proof.
  intros Hn He Hk.
  destruct (issues_cases _ _ Hk) as [(t & c & -> & _)|[(e & t & c & -> & Hed)|(n & -> & Hin)]]; cbn.
  - done.
  - rw Hed in He. by inv He as [|? ? [_ ?]].
  - rw Forall_forall in Hn. by destruct (Hn n Hin).
Qed.

Lemma ui_ok st st' :
  Forall stored_ok (notes st) -> Forall stored_ok (option_list (editingNote st)) ->
  ui_step st st' ->
  Forall stored_ok (notes st') /\ Forall stored_ok (option_list (editingNote st')).
Proof.
  intros Hn He. destruct 1 as [st _|st n _ Hin|st _ _]; cbn; split; try done.
  - rw Forall_forall in Hn. by apply Forall_singleton, Hn.
Qed.

Lemma held_step x y : held_inv x -> sys_step x y -> held_inv y.
Proof.
  intros (Hs & Hn & He & Hp).
  destruct 1 as [x k Hk|x i p Hi Hr|x i p Hi Hr|x i p r Hi Hr|x st' Hu|x s' Henv].
  - split_and!; try done. apply Forall_app; split; [done|]. apply Forall_singleton.
    split; [by eapply issues_ok|]. by rw /held_pending /= app_nil_r.
  - pose proof (Forall_lookup_1 _ _ _ _ Hp Hi) as [Hk Hcap].
    pose proof (reply_ok (call p) (srv x) Hs Hk) as Hrep. pose proof (inv_send (call p) (srv x) Hs).
    rw /serve. destruct (backend_send (call p) (srv x)) as [r s'].
    split_and!; try done. apply Forall_insert; [done|]. split; [done|].
    rw /held_pending Hr /= app_nil_r in Hcap. by apply Forall_app.
  - pose proof (Forall_lookup_1 _ _ _ _ Hp Hi) as [Hk Hcap].
    split_and!; try done. apply Forall_insert; [done|]. split; [done|].
    rw /held_pending Hr /= in Hcap. by rw /held_pending /=.
  - pose proof (Forall_lookup_1 _ _ _ _ Hp Hi) as [_ Hcap].
    rw /held_pending Hr Forall_app in Hcap. destruct Hcap as [Hcap Hrep].
    destruct (recv_ok (call p) (captured p) r (page x) Hn He Hcap Hrep).
    split_and!; try done. by apply Forall_delete.
  - destruct (ui_ok _ _ Hn He Hu). by split_and!.
  - split_and!; try done. by eapply inv_env.
Qed.

Lemma held_boot s : backend_inv s -> held_inv (boot s).
Proof.
  intros Hs. split_and!; try done. apply Forall_singleton. split; [done|].
  rw /held_pending /=. constructor.
Qed.

Lemma held_inv_held x : held_inv x -> Forall stored_ok (held x).
Proof.
  intros (_ & Hn & He & Hp). rw /held !Forall_app Forall_concat_map. split_and!; try done.
  eapply Forall_impl; [exact Hp|]. by intros p [_ ?].
Qed.

(** Under every interleaving, from the page's mount, every note the page
    holds has the property [P] of the stored notes. *)
Lemma held_from_collection s y :
  backend_inv s -> rtc sys_step (boot s) y -> Forall stored_ok (held y).
Proof.
  intros Hs Hr. apply held_inv_held.
  assert (Hgen : forall x y, rtc sys_step x y -> held_inv x -> held_inv y).
  { induction 1; eauto using held_step. }
  by apply (Hgen _ _ Hr), held_boot.
Qed.

End Held.

(** ** On the server of [Backend] *)

Lemma stored_valid s i n :
  store_inv s -> docs s !! i = Some n -> schema_ok n /\ createdAt n <= updatedAt n.
Proof. intros Hs Hn. by destruct (store_inv_lookup _ _ _ Hs Hn) as (_ & _ & ? & _ & ?). Qed.

(** C15: from the page's mount on a server whose collection is well
    formed, under every interleaving of the user's events, the server's
    answers, failed fetches, continuations, time passing and outages,
    every note the page holds (listed, being edited, captured by a request
    in flight, or in an answer a continuation will read) passes the schema
    (a trimmed non-empty title of at most 100 code units and a trimmed
    non-empty content), was not updated before it was created, and has a
    96-bit identifier. *)
Theorem held_notes_valid s y :
  store_inv s -> rtc sys_step (boot s) y ->
  Forall (fun n => (schema_ok n /\ createdAt n <= updatedAt n) /\ 0 <= _id n < 2 ^ 96) (held y).
Proof.
  intros Hs Hr.
  exact (held_from_collection (fun n => schema_ok n /\ createdAt n <= updatedAt n) stored_valid s y Hs Hr).
Qed.

Lemma held_notes_valid_witness :
  Forall (fun n => (schema_ok n /\ createdAt n <= updatedAt n) /\ 0 <= _id n < 2 ^ 96)
    (held (default (boot example_start) (run two_notes (boot example_start)))).
Proof.
  apply (held_notes_valid example_start).
  - apply init_inv.
  - destruct (run two_notes (boot example_start)) eqn:E; [by eapply run_steps|apply rtc_refl].
Defined.

End ClientHeld.
