(* ===== verification/ClientSerial.v ===== *)
(** * Requests that do not overlap keep the page right

    [serial_step] is a step of [Client.sys_step] after which at most one
    request is in flight: the user may open and close the form, pick a
    note to edit, and the server may answer or the fetch fail, time pass
    and MongoDB go down, in any order, but the user sends nothing while an
    answer is outstanding.  The invariant [serial_inv] says, of the one
    request in flight, that it captured the list the page shows and that
    its continuation, once the server has answered, brings the page to a
    list equal to the collection ([ClientRefine.answered]).  Hence every
    state with nothing in flight lists the collection
    ([serial_lists_collection]), the counterpart of the runs of
    [ClientRuns], in which two requests overlap.  Proved from the laws of
    [Contract.BackendSpec] only. *)

From S2P Require Import Prelude JsString NoteModel Store Api Server Page Contract Backend ClientList Client ClientRefine.
From Stdlib Require Import Sorted.
Import JsString NoteModel Store Api Server Page Contract Backend ClientList Client ClientRefine.

Module ClientSerial.

Section Serial.
Context {St : Type} `{BackendSpec St}.

Definition serial_step (x y : Sys St) : Prop :=
  sys_step x y /\ (List.length (inflight y) <= 1)%nat.

(** What the page keeps while a request is in flight. *)
Definition page_ok (st : PageState) : Prop :=
  Sorted newer_first (notes st) /\ loading st = false /\
  (forall e, editingNote st = Some e -> id_ok (_id e)) /\ (forall n, n ∈ notes st -> id_ok (_id n)).

Definition serial_inv (x : Sys St) : Prop :=
  match inflight x with
  | [] => consistent x
  | [p] =>
      backend_inv (srv x) /\ page_ok (page x) /\ captured p = notes (page x) /\
      call_ok (call p) /\ call p <> CList /\
      match reply p with
      | Some (Some r) => answered (srv x) (call p) (captured p) r
      | _ => agree (captured p) (collection (srv x))
      end
  | _ => False
  end.

(** [run] when no action leaves more than one request in flight. *)
Fixpoint serial_run (acts : list Action) (x : Sys St) : bool :=
  match acts with
  | [] => true
  | a :: acts' =>
      match act a x with
      | Some y => (List.length (inflight y) <=? 1)%nat && serial_run acts' y
      | None => false
      end
  end.

Lemma consistent_page_ok s st : consistent (mkSys s st []) -> page_ok st.
Proof.
  intros (_ & Hinv & Ha & Hs & Hl & He). split_and!; try done.
  intros n Hn. exact (proj1 (listed_note s _ _ Hinv Ha Hn)).
Qed.

Lemma page_ok_consistent s st :
  backend_inv s -> agree (notes st) (collection s) -> page_ok st -> consistent (mkSys s st []).
Proof. intros Hs Ha (Hsort & Hl & He & _). by split_and!. Qed.

Lemma ui_page_ok st st' : page_ok st -> ui_step st st' -> page_ok st' /\ notes st' = notes st.
Proof.
  intros (Hs & Hl & He & Hn). destruct 1 as [st _|st n _ Hin|st _ _]; cbn.
  - done.
  - split; [|done]. split_and!; try done. intros e [= <-]. by apply Hn.
  - split; [|done]. by split_and!.
Qed.

Lemma answered_env s s' k cap r : env_step s s' -> answered s k cap r -> answered s' k cap r.
Proof.
  intros He Ha st Hst Hl Hed. pose proof (Ha st Hst Hl Hed) as Hc.
  eapply consistent_same; [exact Hc| |by apply env_collection].
  eapply inv_env; [exact He|]. by destruct Hc as (_ & ? & _).
Qed.

Lemma lookup_singleton_pending (p q : Pending) i : [p] !! i = Some q -> i = 0%nat /\ q = p.
Proof. destruct i as [|[|i]]; cbn; [by intros [= ->]|done|done]. Qed.

(** Nothing in flight: the user sends a request, or the page and the
    server change without one. *)
Lemma serial_idle x y : inflight x = [] -> consistent x -> sys_step x y -> serial_inv y.
Proof.
  intros Hin Hc. destruct 1 as [x k Hk|x i p Hi _|x i p Hi _|x i p r Hi _|x st' Hu|x s' He];
    try (rw Hin in Hi; done).
  - destruct x as [s st l]; cbn in Hin |- *; subst l.
    rw /serial_inv /=. split_and!; try done.
    + by destruct Hc as (_ & ? & _).
    + by eapply consistent_page_ok.
    + by eapply issues_call_ok.
    + by eapply issues_not_list.
    + by destruct Hc as (_ & _ & ? & _).
  - destruct x as [s st l]; cbn in Hin |- *; subst l. rw /serial_inv /=. by eapply ui_consistent.
  - destruct x as [s st l]; cbn in Hin |- *; subst l. rw /serial_inv /=.
    eapply consistent_same; [exact Hc| |by apply env_collection].
    eapply inv_env; [exact He|]. by destruct Hc as (_ & ? & _).
Qed.

(** One request in flight: it is answered or fails, its continuation
    runs, or the page and the server change around it. *)
Lemma serial_busy x y p :
  inflight x = [p] -> serial_inv x -> serial_step x y -> serial_inv y.
Proof.
  intros Hin Hinv [Hstep Hlen]. rw /serial_inv Hin in Hinv.
  destruct Hinv as (Hs & Hok & Hcap & Hk & Hnl & Hr).
  destruct Hstep as [x k _|x i q Hi Hq|x i q Hi Hq|x i q r Hi Hq|x st' Hu|x s' He].
  - rw /issue /= Hin /= in Hlen. lia.
  - rw Hin in Hi. apply lookup_singleton_pending in Hi as [-> ->].
    rw /serve. pose proof (inv_send (call p) (srv x) Hs).
    pose proof (send_answered (srv x) (call p) (captured p) Hs) as Hans. rw Hq in Hr.
    destruct (backend_send (call p) (srv x)) as [r s'].
    rw /serial_inv /= Hin /=. split_and!; try done.
    apply Hans; [done| |done|done]. rw Hcap. by destruct Hok.
  - rw Hin in Hi. apply lookup_singleton_pending in Hi as [-> ->]. rw Hq in Hr.
    by rw /serial_inv /= Hin /=.
  - rw Hin in Hi. apply lookup_singleton_pending in Hi as [-> ->].
    rw /serial_inv /deliver /= Hin /=. rw Hq in Hr. destruct (Hok) as (Hsort & Hl & He & _).
    destruct r as [resp|].
    + by apply Hr.
    + rw recv_None //. apply page_ok_consistent; [done| |done]. by rw -Hcap.
  - destruct (ui_page_ok _ _ Hok Hu) as [Hok' Hn]. rw /serial_inv /= Hin. split_and!; try done.
    by rw Hn.
  - rw /serial_inv /= Hin. split_and!; try done.
    + by eapply inv_env.
    + destruct (reply p) as [[r|]|]; [by eapply answered_env| |]; by rw (env_collection _ _ He).
Qed.

Lemma serial_step_inv x y : serial_inv x -> serial_step x y -> serial_inv y.
Proof.
  intros Hinv Hst. destruct (inflight x) as [|p [|q l]] eqn:Hin.
  - rw /serial_inv Hin in Hinv. by apply (serial_idle x y Hin Hinv), Hst.
  - by apply (serial_busy x y p Hin).
  - by rw /serial_inv Hin in Hinv.
Qed.

Lemma serial_rtc_inv x y : serial_inv x -> rtc serial_step x y -> serial_inv y.
Proof. intros Hx Hr. induction Hr; eauto using serial_step_inv. Qed.

Lemma serial_rtc_sys x y : rtc serial_step x y -> rtc sys_step x y.
Proof. induction 1 as [|x y z [Hxy _] _ IH]; [done|]. by eapply rtc_l. Qed.

Lemma serial_run_steps acts x y :
  serial_run acts x = true -> run acts x = Some y -> rtc serial_step x y.
Proof.
  revert x. induction acts as [|a acts IH]; intros x; cbn; [by intros _ [= ->]|].
  destruct (act a x) as [x'|] eqn:Ha; [|done]. intros [Hl Hs]%andb_prop Hr.
  eapply rtc_l; [|by apply IH]. split; [by eapply act_step|]. by apply Nat.leb_le.
Qed.

(** A run of [serial_run] from the loaded page that ends with nothing in
    flight ends in a consistent state. *)
Lemma serial_run_consistent s acts y :
  backend_inv s -> success (body (fst (backend_send CList s))) = true ->
  serial_run acts (loaded s) = true -> run acts (loaded s) = Some y -> inflight y = [] ->
  consistent y.
Proof.
  intros Hs Hsucc Hsr Hr Hin. destruct (boot_consistent s Hs Hsucc) as [_ Hc].
  assert (Hy : serial_inv y).
  { eapply serial_rtc_inv; [|by eapply serial_run_steps]. by rw /serial_inv. }
  by rw /serial_inv Hin in Hy.
Qed.

(** C26: once the page has shown a successful first answer, under every
    interleaving of the user's clicks, the server's answers, failed
    fetches, continuations, time passing and outages in which the user
    never has two requests in flight at once, every state with no request
    in flight is a state of the application in which the page lists
    exactly the notes of the collection, each once, newest first.
    Together with [ClientRuns], the overlap of two requests is what makes
    the page and the server disagree. *)
Theorem serial_lists_collection s y :
  backend_inv s -> success (body (fst (backend_send CList s))) = true ->
  rtc serial_step (loaded s) y -> inflight y = [] ->
  rtc sys_step (boot s) y /\
  notes (page y) ≡ₚ map snd (map_to_list (collection (srv y))) /\ Sorted newer_first (notes (page y)).
Proof.
  intros Hs Hsucc Hr Hin. destruct (boot_consistent s Hs Hsucc) as [Hb Hc].
  assert (Hy : serial_inv y) by (eapply serial_rtc_inv; [|exact Hr]; by rw /serial_inv).
  rw /serial_inv Hin in Hy. destruct Hy as (_ & _ & Ha & Hsort & _).
  split_and!; [|by apply agree_perm|done]. etrans; [exact Hb|]. by apply serial_rtc_sys.
Qed.

End Serial.

(** The user creates [Shopping]; while the answer is outstanding the
    header button is pressed; the user then edits the note, the update's
    fetch fails, and the user deletes the note. *)
Definition serial_example : list Action :=
  [AToggle; ASubmit (of_ascii "Shopping") (of_ascii "Milk"); AServe 0; AToggle; ADeliver 0;
   AEdit 0; ASubmit (of_ascii "Shopping list") (of_ascii "Milk, bread"); ADrop 0; ADeliver 0;
   ADelete 0; AServe 0; ADeliver 0].

Lemma serial_lists_collection_witness :
  let y := default (loaded example_start) (run serial_example (loaded example_start)) in
  rtc sys_step (boot example_start) y /\
  notes (page y) ≡ₚ map snd (map_to_list (collection (srv y))) /\ Sorted newer_first (notes (page y)).
Proof.
  intros y. apply (serial_lists_collection example_start y).
  - apply init_inv.
  - vm_compute. reflexivity.
  - subst y. destruct (run serial_example (loaded example_start)) eqn:E; [|apply rtc_refl].
    apply (serial_run_steps serial_example); [vm_compute; reflexivity|exact E].
  - subst y. vm_compute. reflexivity.
Defined.

End ClientSerial.
