(* ===== verification/ClientRuns.v ===== *)
(** * Overlapping requests: each continuation edits the list it captured

    Each continuation of [page.tsx] calls [setNotes] on the [notes] its
    closure captured when the user triggered the request, not on the
    current list.  Proved from the laws of [Contract.BackendSpec], from
    every state in which the page lists the collection
    ([ClientRefine.consistent]): when two requests are in flight at once
    and the server accepts both, the continuation that runs last undoes
    the other's edit on the page, so that the page, with nothing in
    flight, lists a note the server has deleted
    ([overlapping_deletes_restore], [create_overlapping_delete_restores],
    [update_overlapping_delete_restores]).  Deleting the note the form is
    editing leaves the form on it, and saving it is refused
    ([edit_after_delete_refused]).  The witnesses apply the theorems on
    the server of [Backend] after the user has created two notes. *)

From S2P Require Import Prelude JsString NoteModel Store Api Server NoteCard Page Contract Backend ClientList Client ClientRefine ClientSerial.
From Stdlib Require Import Sorted.
Import JsString NoteModel Store Api Server NoteCard Page Contract Backend ClientList Client ClientRefine ClientSerial.

Module ClientRuns.

Section Races.
Context {St : Type} `{BackendSpec St}.

(** ** The scenarios

    Each is a list of events for the scheduler [Client.run]: the user's
    clicks, then the server answering the requests in flight, then the
    page running their continuations. *)

(** The user deletes the [i]-th card, then the [j]-th before the first
    answer has arrived; the server answers both; the continuations run in
    the order sent. *)
Definition deletes_overlap (i j : nat) : list Action :=
  [ADelete i; ADelete j; AServe 0; AServe 1; ADeliver 0; ADeliver 0].

(** The user submits the form, then deletes the [j]-th card before the
    answer has arrived; the server answers both; the delete's continuation
    runs first. *)
Definition submit_during_delete (t c : list Z) (j : nat) : list Action :=
  [ASubmit t c; ADelete j; AServe 0; AServe 1; ADeliver 1; ADeliver 0].

(** The user deletes the [j]-th card, its answer is shown, then the user
    submits the form and the server answers. *)
Definition delete_then_submit (j : nat) (t c : list Z) : list Action :=
  [ADelete j; AServe 0; ADeliver 0; ASubmit t c; AServe 0].

(** ** The scheduler on two requests *)

Lemma run_cons a acts (x y : Sys St) : act a x = Some y -> run (a :: acts) x = run acts y.
Proof. intros Ha. by rw /= Ha. Qed.

Lemma act_delete (x : Sys St) j n :
  loading (page x) = false -> notes (page x) !! j = Some n ->
  act (ADelete j) x = Some (issue (CDelete (_id n)) x).
Proof. intros Hl Hn. by rw /act Hl /user_act Hn. Qed.

Lemma act_submit (x : Sys St) t c k :
  loading (page x) = false -> form_visible (page x) = true -> form_submit (page x) t c = Some k ->
  act (ASubmit t c) x = Some (issue k x).
Proof. intros Hl Hv Hk. by rw /act Hl /user_act Hv Hk. Qed.

(** Two requests sent from a page with nothing in flight, both answered,
    their continuations run in the order sent or in the other order. *)
Lemma run_answer_both (x : Sys St) k1 k2 :
  inflight x = [] ->
  let (r1, s1) := backend_send k1 (srv x) in
  let (r2, s2) := backend_send k2 s1 in
  run [AServe 0; AServe 1; ADeliver 0; ADeliver 0] (issue k2 (issue k1 x)) =
    Some (mkSys s2 (fst (recv k2 (notes (page x)) (Some r2)
                           (fst (recv k1 (notes (page x)) (Some r1) (page x))))) []) /\
  run [AServe 0; AServe 1; ADeliver 1; ADeliver 0] (issue k2 (issue k1 x)) =
    Some (mkSys s2 (fst (recv k1 (notes (page x)) (Some r1)
                           (fst (recv k2 (notes (page x)) (Some r2) (page x))))) []).
Proof.
  destruct x as [s st l]; cbn; intros ->. rw /issue /serve /deliver /=.
  destruct (backend_send k1 s) as [r1 s1]. cbn. by destruct (backend_send k2 s1).
Qed.

(** One request sent from a page with nothing in flight, answered, and
    its continuation run. *)
Lemma run_answer_one (x : Sys St) k acts :
  inflight x = [] ->
  let (r, s') := backend_send k (srv x) in
  run (AServe 0 :: ADeliver 0 :: acts) (issue k x) =
    run acts (mkSys s' (fst (recv k (notes (page x)) (Some r) (page x))) []).
Proof.
  destruct x as [s st l]; cbn; intros ->. rw /issue /serve /deliver /=.
  by destruct (backend_send k s).
Qed.

(** ** What an accepted request did, by the contract *)

Lemma send_delete_ok s id r s' :
  backend_inv s -> id_ok id -> backend_send (CDelete id) s = (r, s') -> ok r = true ->
  collection s' = delete id (collection s).
Proof.
  intros Hs Hid E Hok. pose proof (spec_delete s id Hs Hid) as Hsp. rw E in Hsp.
  by destruct Hsp as [_ [[Hf _]|[_ ->]]]; [congruence|].
Qed.

Lemma send_create_ok s t c r s' :
  backend_inv s -> backend_send (CCreate t c) s = (r, s') -> ok r = true ->
  exists n, data (body r) = Some (PNote n) /\ collection s' = <[_id n := n]> (collection s).
Proof.
  intros Hs E Hok. pose proof (spec_create s t c Hs) as Hsp. rw E in Hsp.
  destruct Hsp as [_ [[Hf _]|(n & _ & Hd & _ & Hc & _)]]; [congruence|by exists n].
Qed.

Lemma send_update_ok s id t c r s' :
  backend_inv s -> id_ok id -> backend_send (CUpdate id t c) s = (r, s') -> ok r = true ->
  exists n', data (body r) = Some (PNote n') /\ collection s' = <[id := n']> (collection s).
Proof.
  intros Hs Hid E Hok. pose proof (spec_update s id t c Hs Hid) as Hsp. rw E in Hsp.
  destruct Hsp as [_ [[Hf _]|(n & n' & _ & Hd & _ & Hc & _)]]; [congruence|by exists n'].
Qed.

Lemma send_update_absent s id t c r s' :
  backend_inv s -> id_ok id -> collection s !! id = None ->
  backend_send (CUpdate id t c) s = (r, s') -> ok r = false /\ collection s' = collection s.
Proof.
  intros Hs Hid Hn E. pose proof (spec_update s id t c Hs Hid) as Hsp. rw E in Hsp.
  by destruct Hsp as [_ [?|(n & n' & _ & _ & Hn' & _)]]; [|congruence].
Qed.

Lemma backend_send_inv k s r s' : backend_inv s -> backend_send k s = (r, s') -> backend_inv s'.
Proof. intros Hs E. pose proof (inv_send k s Hs) as Hi. by rw E in Hi. Qed.

(** Two cards of a page that lists the collection name two notes. *)
Lemma consistent_ids_distinct (x : Sys St) i j a b :
  consistent x -> notes (page x) !! i = Some a -> notes (page x) !! j = Some b -> i <> j ->
  _id a <> _id b.
Proof.
  intros (_ & _ & [Hnd _] & _) Hi Hj Hij Heq. apply Hij.
  eapply (NoDup_lookup (map _id (notes (page x)))); [done| |].
  - by rw map_fmap list_lookup_fmap Hi.
  - by rw map_fmap list_lookup_fmap Hj /= -Heq.
Qed.

Lemma consistent_listed (x : Sys St) j n :
  consistent x -> notes (page x) !! j = Some n -> id_ok (_id n).
Proof.
  intros (_ & Hs & Ha & _) Hn. apply (listed_note (srv x) (notes (page x))); [done|done|].
  by eapply list_elem_of_lookup_2.
Qed.

(** ** The races *)

(** C25: with two deletes in flight at once, each continuation filters
    the list its closure captured: from any state in which the page lists
    the collection, when the user deletes two different cards before the
    first answer arrives and the server deletes both notes, the page, once
    both continuations have run in the order sent, lists every note but
    the second, the first included, although the server has deleted it. *)
Theorem overlapping_deletes_restore (x : Sys St) i j a b :
  consistent x -> notes (page x) !! i = Some a -> notes (page x) !! j = Some b -> i <> j ->
  ok (fst (backend_send (CDelete (_id a)) (srv x))) = true ->
  ok (fst (backend_send (CDelete (_id b)) (snd (backend_send (CDelete (_id a)) (srv x))))) = true ->
  exists y, run (deletes_overlap i j) x = Some y /\
    inflight y = [] /\ notes (page y) = remove_note (_id b) (notes (page x)) /\
    collection (srv y) = delete (_id b) (delete (_id a) (collection (srv x))) /\
    a ∈ notes (page y) /\ collection (srv y) !! _id a = None.
Proof.
  rw /deletes_overlap. intros Hc Hi Hj Hij. pose proof (consistent_ids_distinct x i j a b Hc Hi Hj Hij) as Hab.
  pose proof Hc as (Hin & Hs & _ & _ & Hl & _).
  pose proof (run_answer_both x (CDelete (_id a)) (CDelete (_id b)) Hin) as Hrun.
  destruct (backend_send (CDelete (_id a)) (srv x)) as [r1 s1] eqn:E1; cbn [fst snd].
  destruct (backend_send (CDelete (_id b)) s1) as [r2 s2] eqn:E2; cbn [fst snd]. intros Hok1 Hok2.
  rw (run_cons _ _ _ _ (act_delete x i a Hl Hi)) (run_cons _ _ _ _ (act_delete (issue (CDelete (_id a)) x) j b Hl Hj)).
  eexists; split; [exact (proj1 Hrun)|]. cbn. rw Hok1 Hok2 /=.
  rw (send_delete_ok s1 (_id b) r2 s2 (backend_send_inv _ _ _ _ Hs E1) (consistent_listed x j b Hc Hj) E2 Hok2).
  rw (send_delete_ok (srv x) (_id a) r1 s1 Hs (consistent_listed x i a Hc Hi) E1 Hok1).
  split_and!; try done.
  - apply elem_of_remove_note. split; [by eapply list_elem_of_lookup_2|done].
  - rw lookup_delete_ne; [congruence|]. by rw lookup_delete_eq.
Qed.

(** C29: the create's continuation prepends the new note to the list its
    closure captured when the form was submitted: from any state in which
    the page lists the collection, when the user submits a new note and,
    before the answer arrives, deletes a card, and the server accepts both
    requests, the page, once the delete's continuation and then the
    create's have run, lists the new note before every note it listed
    before, the deleted one included, although the server has deleted it. *)
Theorem create_overlapping_delete_restores (x : Sys St) t c j b :
  consistent x -> form_visible (page x) = true -> form_submit (page x) t c = Some (CCreate t c) ->
  notes (page x) !! j = Some b ->
  ok (fst (backend_send (CCreate t c) (srv x))) = true ->
  ok (fst (backend_send (CDelete (_id b)) (snd (backend_send (CCreate t c) (srv x))))) = true ->
  exists y n, run (submit_during_delete t c j) x = Some y /\
    inflight y = [] /\ notes (page y) = n :: notes (page x) /\
    collection (srv y) = delete (_id b) (<[_id n := n]> (collection (srv x))) /\
    b ∈ notes (page y) /\ collection (srv y) !! _id b = None.
Proof.
  rw /submit_during_delete. intros Hc Hv Hk Hj. pose proof Hc as (Hin & Hs & _ & _ & Hl & _).
  pose proof (run_answer_both x (CCreate t c) (CDelete (_id b)) Hin) as Hrun.
  destruct (backend_send (CCreate t c) (srv x)) as [r1 s1] eqn:E1; cbn [fst snd].
  destruct (backend_send (CDelete (_id b)) s1) as [r2 s2] eqn:E2; cbn [fst snd]. intros Hok1 Hok2.
  destruct (send_create_ok _ _ _ _ _ Hs E1 Hok1) as (n & Hd & Hc1).
  rw (run_cons _ _ _ _ (act_submit x t c _ Hl Hv Hk))
     (run_cons _ _ _ _ (act_delete (issue (CCreate t c) x) j b Hl Hj)).
  eexists; exists n; split; [exact (proj2 Hrun)|]. cbn. rw Hok2 /= Hok1 Hd /=.
  rw (send_delete_ok s1 (_id b) r2 s2 (backend_send_inv _ _ _ _ Hs E1) (consistent_listed x j b Hc Hj) E2 Hok2) Hc1.
  split_and!; try done.
  - apply elem_of_cons. right. by eapply list_elem_of_lookup_2.
  - by rw lookup_delete_eq.
Qed.

(** C37: the update's continuation maps over the list its closure
    captured when the form was submitted: from any state in which the
    page lists the collection and the form edits a note, when the user
    saves the form and, before the answer arrives, deletes another card,
    and the server accepts both requests, the page, once the delete's
    continuation and then the update's have run, lists the updated note
    and every other note it listed before, the deleted one included,
    although the server has deleted it. *)
Theorem update_overlapping_delete_restores (x : Sys St) e t c j b :
  consistent x -> editingNote (page x) = Some e -> notes (page x) !! j = Some b -> _id b <> _id e ->
  ok (fst (backend_send (CUpdate (_id e) t c) (srv x))) = true ->
  ok (fst (backend_send (CDelete (_id b)) (snd (backend_send (CUpdate (_id e) t c) (srv x))))) = true ->
  exists y n', run (submit_during_delete t c j) x = Some y /\
    inflight y = [] /\ notes (page y) = replace_note (_id e) n' (notes (page x)) /\
    collection (srv y) = delete (_id b) (<[_id e := n']> (collection (srv x))) /\
    b ∈ notes (page y) /\ collection (srv y) !! _id b = None.
Proof.
  rw /submit_during_delete. intros Hc He Hj Hbe. pose proof Hc as (Hin & Hs & _ & _ & Hl & Hed).
  assert (Hv : form_visible (page x) = true).
  { rw /form_visible He. apply orb_true_iff. right. apply bool_decide_eq_true_2. by eexists. }
  assert (Hk : form_submit (page x) t c = Some (CUpdate (_id e) t c)) by by rw /form_submit He.
  pose proof (run_answer_both x (CUpdate (_id e) t c) (CDelete (_id b)) Hin) as Hrun.
  destruct (backend_send (CUpdate (_id e) t c) (srv x)) as [r1 s1] eqn:E1; cbn [fst snd].
  destruct (backend_send (CDelete (_id b)) s1) as [r2 s2] eqn:E2; cbn [fst snd]. intros Hok1 Hok2.
  destruct (send_update_ok _ _ _ _ _ _ Hs (Hed e He) E1 Hok1) as (n' & Hd & Hc1).
  rw (run_cons _ _ _ _ (act_submit x t c _ Hl Hv Hk))
     (run_cons _ _ _ _ (act_delete (issue (CUpdate (_id e) t c) x) j b Hl Hj)).
  eexists; exists n'; split; [exact (proj2 Hrun)|]. cbn. rw Hok2 /= Hok1 Hd /=.
  rw (send_delete_ok s1 (_id b) r2 s2 (backend_send_inv _ _ _ _ Hs E1) (consistent_listed x j b Hc Hj) E2 Hok2) Hc1.
  split_and!; try done.
  - apply elem_of_replace_note. right. split; [by eapply list_elem_of_lookup_2|done].
  - by rw lookup_delete_eq.
Qed.

(** C31: [deleteNote] does not clear [editingNote]: from any state in
    which the page lists the collection and the form edits the note of a
    card, when the user deletes that card and the server deletes the note,
    the form, once the delete's continuation has run, still edits the
    deleted note, and saving it sends [PUT] on its identifier, which the
    server refuses without touching the collection, so that the page
    alerts [Failed to update note]. *)
Theorem edit_after_delete_refused (x : Sys St) e j t c :
  consistent x -> editingNote (page x) = Some e -> notes (page x) !! j = Some e ->
  ok (fst (backend_send (CDelete (_id e)) (srv x))) = true ->
  exists y r, run (delete_then_submit j t c) x = Some y /\
    editingNote (page y) = Some e /\ notes (page y) = remove_note (_id e) (notes (page x)) /\
    collection (srv y) = delete (_id e) (collection (srv x)) /\
    inflight y = [mkPending (CUpdate (_id e) t c) (notes (page y)) (Some (Some r))] /\
    ok r = false /\
    recv (CUpdate (_id e) t c) (notes (page y)) (Some r) (page y) = (page y, Some "Failed to update note").
Proof.
  rw /delete_then_submit. intros Hc He Hj. pose proof Hc as (Hin & Hs & _ & _ & Hl & _).
  pose proof (consistent_listed x j e Hc Hj) as Hid.
  rw (run_cons _ _ _ _ (act_delete x j e Hl Hj)).
  pose proof (run_answer_one x (CDelete (_id e)) [ASubmit t c; AServe 0] Hin) as Hrun.
  destruct (backend_send (CDelete (_id e)) (srv x)) as [r1 s1] eqn:E1; cbn [fst snd]. intros Hok1.
  rw Hrun. cbn [fst recv deleteNote_recv]. rw Hok1. cbn [fst]. pose proof (send_delete_ok _ _ _ _ Hs Hid E1 Hok1) as Hc1.
  set (y1 := mkSys s1 (set_notes (remove_note (_id e) (notes (page x))) (page x)) []).
  assert (Hv : form_visible (page y1) = true).
  { rw /form_visible /= He. apply orb_true_iff. right. apply bool_decide_eq_true_2. by eexists. }
  assert (Hk : form_submit (page y1) t c = Some (CUpdate (_id e) t c)) by by rw /form_submit /= He.
  rw (run_cons _ _ _ _ (act_submit y1 t c _ Hl Hv Hk)) /= /issue /serve /=.
  destruct (backend_send (CUpdate (_id e) t c) s1) as [r2 s2] eqn:E2.
  destruct (send_update_absent s1 (_id e) t c r2 s2 (backend_send_inv _ _ _ _ Hs E1) Hid) as [Hok2 Hc2];
    [by rw Hc1 lookup_delete_eq|done|].
  eexists; exists r2. split; [reflexivity|]. rw /= Hok2 Hc2 Hc1. by split_and!.
Qed.

End Races.

(** ** On the server of [Backend], after the user has created two notes *)

(** The state after [acts], run from the loaded page. *)
Definition example_after (acts : list Action) :=
  default (loaded example_start) (run acts (loaded example_start)).

(** The [j]-th card of a state. *)
Definition card_of (x : Sys Server) (j : nat) : INote :=
  default (mkNote 0 [] [] 0 0 0) (notes (page x) !! j).

Lemma example_after_consistent acts :
  serial_run acts (loaded example_start) = true ->
  run acts (loaded example_start) = Some (example_after acts) ->
  inflight (example_after acts) = [] -> consistent (example_after acts).
Proof. intros. eapply serial_run_consistent; [apply init_inv|by vm_compute|done|done|done]. Qed.

Ltac example_consistent := apply example_after_consistent; vm_compute; reflexivity.

Lemma overlapping_deletes_restore_witness :
  let x := example_after create_two in
  exists y, run (deletes_overlap 0 1) x = Some y /\
    inflight y = [] /\ notes (page y) = remove_note (_id (card_of x 1)) (notes (page x)) /\
    collection (srv y) = delete (_id (card_of x 1)) (delete (_id (card_of x 0)) (collection (srv x))) /\
    card_of x 0 ∈ notes (page y) /\ collection (srv y) !! _id (card_of x 0) = None.
Proof.
  intros x. apply (overlapping_deletes_restore x 0 1 (card_of x 0) (card_of x 1)).
  - subst x. example_consistent.
  - reflexivity.
  - reflexivity.
  - lia.
  - vm_compute. reflexivity.
  - vm_compute. reflexivity.
Defined.

Lemma create_overlapping_delete_restores_witness :
  let x := example_after (create_two ++ [AToggle]) in
  let t := of_ascii "Third" in let c := of_ascii "c" in
  exists y n, run (submit_during_delete t c 1) x = Some y /\
    inflight y = [] /\ notes (page y) = n :: notes (page x) /\
    collection (srv y) = delete (_id (card_of x 1)) (<[_id n := n]> (collection (srv x))) /\
    card_of x 1 ∈ notes (page y) /\ collection (srv y) !! _id (card_of x 1) = None.
Proof.
  intros x t c. apply (create_overlapping_delete_restores x t c 1 (card_of x 1)).
  - subst x. example_consistent.
  - vm_compute. reflexivity.
  - vm_compute. reflexivity.
  - reflexivity.
  - vm_compute. reflexivity.
  - vm_compute. reflexivity.
Defined.

Lemma update_overlapping_delete_restores_witness :
  let x := example_after (create_two ++ [AEdit 0]) in
  let t := of_ascii "Second v2" in let c := of_ascii "b2" in
  exists y n', run (submit_during_delete t c 1) x = Some y /\
    inflight y = [] /\ notes (page y) = replace_note (_id (card_of x 0)) n' (notes (page x)) /\
    collection (srv y) = delete (_id (card_of x 1)) (<[_id (card_of x 0) := n']> (collection (srv x))) /\
    card_of x 1 ∈ notes (page y) /\ collection (srv y) !! _id (card_of x 1) = None.
Proof.
  intros x t c. apply (update_overlapping_delete_restores x (card_of x 0) t c 1 (card_of x 1)).
  - subst x. example_consistent.
  - vm_compute. reflexivity.
  - reflexivity.
  - apply (bool_decide_eq_false_1 (_id (card_of x 1) = _id (card_of x 0))). vm_compute. reflexivity.
  - vm_compute. reflexivity.
  - vm_compute. reflexivity.
Defined.

Lemma edit_after_delete_refused_witness :
  let x := example_after (create_two ++ [AEdit 0]) in
  let t := of_ascii "Second v2" in let c := of_ascii "b2" in
  exists y r, run (delete_then_submit 0 t c) x = Some y /\
    editingNote (page y) = Some (card_of x 0) /\
    notes (page y) = remove_note (_id (card_of x 0)) (notes (page x)) /\
    collection (srv y) = delete (_id (card_of x 0)) (collection (srv x)) /\
    inflight y = [mkPending (CUpdate (_id (card_of x 0)) t c) (notes (page y)) (Some (Some r))] /\
    ok r = false /\
    recv (CUpdate (_id (card_of x 0)) t c) (notes (page y)) (Some r) (page y) =
      (page y, Some "Failed to update note").
Proof.
  intros x t c. apply (edit_after_delete_refused x (card_of x 0) 0 t c).
  - subst x. example_consistent.
  - vm_compute. reflexivity.
  - reflexivity.
  - vm_compute. reflexivity.
Defined.

End ClientRuns.
